(** * Bondra: matching pipeline, session lifecycle and relay handlers

    A shallow embedding of the backend services
    - [src/services/matching/queueManager.ts]   (QueueManager)
    - [src/services/matching/sessionManager.ts] (SessionManager)
    - [src/services/matching/pairingEngine.ts]  (PairingEngine)
    - [src/services/matching/loadBalancer.ts]   (LoadBalancer)
    - [src/websocket/socketManager.ts]          (SocketManager)
    - [src/websocket/wsServer.ts]               (WebSocketServer)
    - [src/websocket/handlers/chatHandler.ts], [signalHandler.ts]
    over a model of the Redis store they share.

    Every [async] method becomes a computation in the state monad [M] over
    [World]; every [await] is a bind.  One method runs to completion before
    the next starts, and every store command succeeds, so the [catch]
    branches of the methods are never entered.  Keys do not expire: the
    [EX]/[SETEX] lifetimes are left out. *)

From Stdlib Require Import ZArith QArith Lqa List String Ascii Bool Lia.
From stdpp Require Import gmap strings list fin_maps.
From Stdlib Require Import Sorting.Sorted.

Local Open Scope Z_scope.
Local Open Scope string_scope.
Local Open Scope list_scope.

(* ===================================================================== *)
(** * Part I.  The embedding                                              *)
(* ===================================================================== *)

(** ** Constants ([src/config/constants.ts]) *)

Inductive SessionType := VIDEO | AUDIO | TEXT.

Inductive SessionStatus := ACTIVE | ENDED | ABANDONED.

#[global] Instance SessionType_eq_dec : EqDecision SessionType.
Proof. solve_decision. Defined.

#[global] Instance SessionStatus_eq_dec : EqDecision SessionStatus.
Proof. solve_decision. Defined.

(** ** Redis keys

    The table [REDIS_KEYS] of [config/redis.ts] lies outside this
    development, so the key space is kept symbolic: one constructor per key
    template used by the services.  Keys built from different templates are
    different keys. *)

Inductive QueueKey := QUEUE_VIDEO | QUEUE_AUDIO | QUEUE_TEXT.

#[global] Instance QueueKey_eq_dec : EqDecision QueueKey.
Proof. solve_decision. Defined.

#[global] Instance QueueKey_countable : Countable QueueKey.
Proof.
  refine (inj_countable'
    (fun k => match k with QUEUE_VIDEO => 0%nat | QUEUE_AUDIO => 1%nat | QUEUE_TEXT => 2%nat end)
    (fun n => match n with 0%nat => QUEUE_VIDEO | 1%nat => QUEUE_AUDIO | _ => QUEUE_TEXT end) _).
  by intros [].
Defined.

(** ** Records stored as JSON

    [JSON.parse (JSON.stringify x)] is taken to be [x]: the store holds the
    records themselves. *)

Record IQueueUser := mkQueueUser {
  userId : string;
  socketId : string;
  joinedAt : Z;
}.

Record IActiveSession := mkActiveSession {
  id : string;
  sessionType : SessionType;
  user1Id : string;
  user2Id : string;
  startedAt : Z;
}.

(** ** Sorted sets

    A Redis sorted set is a list of (member, score) kept in ascending order
    of score, members with equal scores in lexicographic order. *)

Definition zset := list (string * Z).

Definition entry_leb (a b : string * Z) : bool :=
  (a.2 <? b.2)%Z || ((a.2 =? b.2)%Z && String.leb a.1 b.1).

Fixpoint zinsert (e : string * Z) (z : zset) : zset :=
  match z with
  | [] => [e]
  | x :: rest => if entry_leb e x then e :: x :: rest else x :: zinsert e rest
  end.

Definition members (z : zset) : list string := map fst z.

(** ZREM key member...: drop every listed member. *)
Definition zrem_list (ms : list string) (z : zset) : zset :=
  List.filter (fun e => negb (bool_decide (e.1 ∈ ms))) z.

(** ZADD key score member: a member already present is moved to its new
    score. *)
Definition zadd_list (score : Z) (m : string) (z : zset) : zset :=
  zinsert (m, score) (zrem_list [m] z).

(** ZSCORE key member *)
Fixpoint zscore_list (m : string) (z : zset) : option Z :=
  match z with
  | [] => None
  | (x, s) :: rest => if bool_decide (x = m) then Some s else zscore_list m rest
  end.

(** ZRANK key member (0-based) *)
Fixpoint zrank_list (m : string) (z : zset) : option nat :=
  match z with
  | [] => None
  | (x, _) :: rest =>
      if bool_decide (x = m) then Some 0%nat else S <$> zrank_list m rest
  end.

(** ZRANGE key 0 1 *)
Definition zrange01 (z : zset) : list string := members (take 2 z).

(** ZREMRANGEBYSCORE key 0 cutoff *)
Definition zremrangebyscore_list (lo hi : Z) (z : zset) : zset :=
  List.filter (fun e => negb ((lo <=? e.2)%Z && (e.2 <=? hi)%Z)) z.

(** ** The store

    - [q_video], [q_audio], [q_text]: the sorted sets under [REDIS_KEYS.QUEUE_*];
    - [queue_user]: the string keys [`${REDIS_KEYS.QUEUE_x}:user:${userId}`],
      indexed by the prefix constant and the user id;
    - [session]: the keys [`${REDIS_KEYS.SESSION}${sessionId}`];
    - [session_user]: the keys [`${REDIS_KEYS.SESSION_USER}${userId}`];
    - [locks]: the keys [`${REDIS_KEYS.LOCK_MATCHING}${queueType}`] that are
      currently held. *)

Record Redis := mkRedis {
  q_video : zset;
  q_audio : zset;
  q_text : zset;
  queue_user : gmap (QueueKey * string) IQueueUser;
  session : gmap string IActiveSession;
  session_user : gmap string string;
  locks : list SessionType;
}.

Definition redis_empty : Redis :=
  mkRedis [] [] [] ∅ ∅ ∅ [].

Definition zget (k : QueueKey) (r : Redis) : zset :=
  match k with
  | QUEUE_VIDEO => q_video r
  | QUEUE_AUDIO => q_audio r
  | QUEUE_TEXT => q_text r
  end.

Definition zput (k : QueueKey) (z : zset) (r : Redis) : Redis :=
  match k with
  | QUEUE_VIDEO => mkRedis z (q_audio r) (q_text r) (queue_user r) (session r) (session_user r) (locks r)
  | QUEUE_AUDIO => mkRedis (q_video r) z (q_text r) (queue_user r) (session r) (session_user r) (locks r)
  | QUEUE_TEXT => mkRedis (q_video r) (q_audio r) z (queue_user r) (session r) (session_user r) (locks r)
  end.

Definition set_queue_user (f : gmap (QueueKey * string) IQueueUser -> gmap (QueueKey * string) IQueueUser)
    (r : Redis) : Redis :=
  mkRedis (q_video r) (q_audio r) (q_text r) (f (queue_user r)) (session r) (session_user r) (locks r).

Definition set_session (f : gmap string IActiveSession -> gmap string IActiveSession)
    (r : Redis) : Redis :=
  mkRedis (q_video r) (q_audio r) (q_text r) (queue_user r) (f (session r)) (session_user r) (locks r).

Definition set_session_user (f : gmap string string -> gmap string string)
    (r : Redis) : Redis :=
  mkRedis (q_video r) (q_audio r) (q_text r) (queue_user r) (session r) (f (session_user r)) (locks r).

Definition set_locks (f : list SessionType -> list SessionType) (r : Redis) : Redis :=
  mkRedis (q_video r) (q_audio r) (q_text r) (queue_user r) (session r) (session_user r) (f (locks r)).

(** ** Events and payloads ([src/websocket/types/events.ts]) *)

Inductive WSEvents :=
  | CONNECTION | DISCONNECT | ERROR
  | AUTH | AUTH_SUCCESS | AUTH_ERROR
  | QUEUE_JOIN | QUEUE_LEAVE | QUEUE_POSITION | QUEUE_ERROR
  | MATCH_FOUND | MATCH_DISCONNECTED | MATCH_NEXT | MATCH_ERROR
  | CALL_OFFER | CALL_ANSWER | CALL_ICE_CANDIDATE | CALL_END | CALL_ERROR
  | CHAT_MESSAGE | CHAT_TYPING | CHAT_STOP_TYPING
  | FRIEND_ONLINE | FRIEND_OFFLINE | FRIEND_CALL | FRIEND_LIST
  | STATUS_UPDATE | USER_COUNT
  | REPORT_USER | REPORT_SUCCESS | REPORT_ERROR.

(** A JavaScript string is a sequence of UTF-16 code units; [length] counts
    code units. *)
Definition jsstring := list N.

(** [RTCSessionDescriptionInit] and [RTCIceCandidateInit] values: the
    handlers never look inside them. *)
Definition Blob := string.

(** The object literals the handlers emit. *)
Inductive Payload :=
  | ErrorPayload (message : string)
  | ChatPayload (message : jsstring) (timestamp : Z) (senderId : string)
  | OfferPayload (offer : Blob) (senderId : string)
  | AnswerPayload (answer : Blob) (senderId : string)
  | IcePayload (candidate : Blob) (senderId : string)
  | UserPayload (user : string)
  | AuthSuccessPayload (socket user username : string) (timestamp : Z).

(** [io.to(socketId).emit(event, data)] and [socket.emit(event, data)] *)
Record Emission := mkEmission {
  target : string;
  event : WSEvents;
  payload : Payload;
}.

(** Calls into [MetricsService] ([config/monitoring.ts]), recorded in the
    order they are made. *)
Inductive Metric :=
  | updateQueueSize (t : SessionType) (size : nat)
  | trackQueueJoin (t : SessionType)
  | trackQueueWaitTime (t : SessionType) (seconds : Q)
  | trackQueueLeave (t : SessionType) (reason : string)
  | trackSessionStart (t : SessionType)
  | trackSessionEnd (t : SessionType) (reason : string) (seconds : Q)
  | trackError (subsystem kind : string)
  | trackWsConnection
  | trackWsDisconnection (reason : string)
  | messagesSent_inc (label : string).

(** [RedisService.publish(REDIS_CHANNELS.MATCH_FOUND, {...})] *)
Record MatchFound := mkMatchFound {
  mf_sessionId : string;
  mf_user1Id : string;
  mf_user2Id : string;
  mf_sessionType : SessionType;
}.

(** ** The world

    Besides the store: the presence records, the socket registries of
    [SocketManager] and [WebSocketServer], what the process has sent out, and
    the answers of its environment.  [clock n] is what the [n]-th call of
    [Date.now()] returns; [db_create n] and [db_end n] are what the [n]-th
    call into the [Session] model ([models/Session.ts], a parameter of this
    development) returns: the id of the row [Session.create] inserted, or
    [None] for [null], and the boolean of [Session.endSession]. *)

Record World := mkWorld {
  redis : Redis;
  presence : gset string;
  userSockets : gmap string (list string);
  activeConnections : gmap string string;
  metrics : list Metric;
  published : list MatchFound;
  outbox : list Emission;
  clock : nat -> Z;
  ticks : nat;
  db_create : nat -> option string;
  db_end : nat -> bool;
  db_calls : nat;
}.

Definition with_redis (f : Redis -> Redis) (w : World) : World :=
  mkWorld (f (redis w)) (presence w) (userSockets w) (activeConnections w) (metrics w)
    (published w) (outbox w) (clock w) (ticks w) (db_create w) (db_end w) (db_calls w).

Definition with_presence (f : gset string -> gset string) (w : World) : World :=
  mkWorld (redis w) (f (presence w)) (userSockets w) (activeConnections w) (metrics w)
    (published w) (outbox w) (clock w) (ticks w) (db_create w) (db_end w) (db_calls w).

Definition with_userSockets (f : gmap string (list string) -> gmap string (list string))
    (w : World) : World :=
  mkWorld (redis w) (presence w) (f (userSockets w)) (activeConnections w) (metrics w)
    (published w) (outbox w) (clock w) (ticks w) (db_create w) (db_end w) (db_calls w).

Definition with_activeConnections (f : gmap string string -> gmap string string)
    (w : World) : World :=
  mkWorld (redis w) (presence w) (userSockets w) (f (activeConnections w)) (metrics w)
    (published w) (outbox w) (clock w) (ticks w) (db_create w) (db_end w) (db_calls w).

Definition with_metrics (f : list Metric -> list Metric) (w : World) : World :=
  mkWorld (redis w) (presence w) (userSockets w) (activeConnections w) (f (metrics w))
    (published w) (outbox w) (clock w) (ticks w) (db_create w) (db_end w) (db_calls w).

Definition with_published (f : list MatchFound -> list MatchFound) (w : World) : World :=
  mkWorld (redis w) (presence w) (userSockets w) (activeConnections w) (metrics w)
    (f (published w)) (outbox w) (clock w) (ticks w) (db_create w) (db_end w) (db_calls w).

Definition with_outbox (f : list Emission -> list Emission) (w : World) : World :=
  mkWorld (redis w) (presence w) (userSockets w) (activeConnections w) (metrics w)
    (published w) (f (outbox w)) (clock w) (ticks w) (db_create w) (db_end w) (db_calls w).

Definition tick (w : World) : World :=
  mkWorld (redis w) (presence w) (userSockets w) (activeConnections w) (metrics w)
    (published w) (outbox w) (clock w) (S (ticks w)) (db_create w) (db_end w) (db_calls w).

Definition db_called (w : World) : World :=
  mkWorld (redis w) (presence w) (userSockets w) (activeConnections w) (metrics w)
    (published w) (outbox w) (clock w) (ticks w) (db_create w) (db_end w) (S (db_calls w)).

(** A world with an empty store and registries, given its environment. *)
Definition boot (clk : nat -> Z) (dbc : nat -> option string) (dbe : nat -> bool) : World :=
  mkWorld redis_empty ∅ ∅ ∅ [] [] [] clk 0 dbc dbe 0.

(** ** The monad of the [async] methods *)

Definition M (A : Type) : Type := World -> A * World.

#[global] Instance M_ret : MRet M := fun A (a : A) (w : World) => (a, w).

#[global] Instance M_bind : MBind M :=
  fun A B (f : A -> M B) (m : M A) (w : World) => let (a, w') := m w in f a w'.

Definition gets {A} (f : World -> A) : M A := fun w => (f w, w).
Definition modify (f : World -> World) : M unit := fun w => (tt, f w).

(** [Date.now()] *)
Definition Date_now : M Z := fun w => (clock w (ticks w), tick w).

(** *** Store commands *)

Definition zscore (k : QueueKey) (m : string) : M (option Z) :=
  gets (fun w => zscore_list m (zget k (redis w))).

Definition zadd (k : QueueKey) (score : Z) (m : string) : M unit :=
  modify (with_redis (fun r => zput k (zadd_list score m (zget k r)) r)).

Definition zrem (k : QueueKey) (ms : list string) : M nat :=
  fun w =>
    let z := zget k (redis w) in
    let z' := zrem_list ms z in
    ((length z - length z')%nat, with_redis (zput k z') w).

Definition zrange_0_1 (k : QueueKey) : M (list string) :=
  gets (fun w => zrange01 (zget k (redis w))).

Definition zcard (k : QueueKey) : M nat :=
  gets (fun w => length (zget k (redis w))).

Definition zrank (k : QueueKey) (m : string) : M (option nat) :=
  gets (fun w => zrank_list m (zget k (redis w))).

Definition zremrangebyscore (k : QueueKey) (lo hi : Z) : M nat :=
  fun w =>
    let z := zget k (redis w) in
    let z' := zremrangebyscore_list lo hi z in
    ((length z - length z')%nat, with_redis (zput k z') w).

(** Modelled from the spec: [RedisService.acquireLock] and [releaseLock] of
    [config/redis.ts].  The spec describes the lock as set-if-absent on the
    lock key, released by deleting it. *)
Definition acquireLock (t : SessionType) : M bool :=
  fun w =>
    if bool_decide (t ∈ locks (redis w)) then (false, w)
    else (true, with_redis (set_locks (cons t)) w).

Definition releaseLock (t : SessionType) : M unit :=
  modify (with_redis (set_locks (List.filter (fun x => negb (bool_decide (x = t)))))).

Definition track (m : Metric) : M unit :=
  modify (with_metrics (fun l => l ++ [m])).

Definition publish (m : MatchFound) : M unit :=
  modify (with_published (fun l => l ++ [m])).

Definition emit (sock : string) (ev : WSEvents) (p : Payload) : M unit :=
  modify (with_outbox (fun l => l ++ [mkEmission sock ev p])).

(** ** QueueManager ([src/services/matching/queueManager.ts]) *)

Definition getQueueKey (queueType : SessionType) : QueueKey :=
  match queueType with
  | VIDEO => QUEUE_VIDEO
  | AUDIO => QUEUE_AUDIO
  | TEXT => QUEUE_TEXT
  end.

(** The key [`${REDIS_KEYS.QUEUE_VIDEO}:user:${userId}`] that [addToQueue],
    [removeFromQueue] and [getUserData] all build. *)
Definition userDataKey (userId : string) : QueueKey * string := (QUEUE_VIDEO, userId).

Definition getUserData (userId : string) : M (option IQueueUser) :=
  gets (fun w => queue_user (redis w) !! userDataKey userId).

Definition getQueueSize (queueType : SessionType) : M nat :=
  zcard (getQueueKey queueType).

Definition addToQueue (userId socketId : string) (queueType : SessionType) : M bool :=
  let queueKey := getQueueKey queueType in
  timestamp ← Date_now;
  existingScore ← zscore queueKey userId;
  if existingScore is Some _ then mret false
  else
    let userData := mkQueueUser userId socketId timestamp in
    modify (with_redis (set_queue_user <[userDataKey userId := userData]>));;
    zadd queueKey timestamp userId;;
    queueSize ← getQueueSize queueType;
    track (updateQueueSize queueType queueSize);;
    track (trackQueueJoin queueType);;
    mret true.

Definition removeFromQueue (userId : string) (queueType : SessionType) : M bool :=
  let queueKey := getQueueKey queueType in
  userData ← getUserData userId;
  (if userData is Some d then
     now ← Date_now;
     track (trackQueueWaitTime queueType (inject_Z (now - joinedAt d) / 1000)%Q)
   else mret tt);;
  removed ← zrem queueKey [userId];
  modify (with_redis (set_queue_user (delete (userDataKey userId))));;
  queueSize ← getQueueSize queueType;
  track (updateQueueSize queueType queueSize);;
  mret (bool_decide (0 < removed)%nat).

(** [users] holds at most two ids, so [users.length < 2] fails exactly when
    it is [u0; u1]. *)
Definition findMatch (userId : string) (queueType : SessionType) : M (option IQueueUser) :=
  let queueKey := getQueueKey queueType in
  lock ← acquireLock queueType;
  if negb lock then mret None
  else
    users ← zrange_0_1 queueKey;
    match users with
    | u0 :: u1 :: _ =>
        if negb (bool_decide (userId ∈ users)) then
          releaseLock queueType;; mret None
        else
          let partnerId := if bool_decide (u0 = userId) then u1 else u0 in
          zrem queueKey [u0; u1];;
          partnerData ← getUserData partnerId;
          releaseLock queueType;;
          match partnerData with
          | None =>
              addToQueue userId "" queueType;;
              mret None
          | Some _ =>
              queueSize ← getQueueSize queueType;
              track (updateQueueSize queueType queueSize);;
              track (trackQueueLeave queueType "matched");;
              mret partnerData
          end
    | _ => releaseLock queueType;; mret None
    end.

Definition getQueuePosition (userId : string) (queueType : SessionType) : M nat :=
  rank ← zrank (getQueueKey queueType) userId;
  mret (if rank is Some n then (n + 1)%nat else 0%nat).

(** The loop over [[VIDEO, AUDIO, TEXT]] returning at the first hit. *)
Definition isUserInQueue (userId : string) : M (option SessionType) :=
  sv ← zscore (getQueueKey VIDEO) userId;
  if sv is Some _ then mret (Some VIDEO)
  else
    sa ← zscore (getQueueKey AUDIO) userId;
    if sa is Some _ then mret (Some AUDIO)
    else
      st ← zscore (getQueueKey TEXT) userId;
      if st is Some _ then mret (Some TEXT) else mret None.

(** The three removals of the [Promise.all], in the order they are started. *)
Definition removeFromAllQueues (userId : string) : M unit :=
  removeFromQueue userId VIDEO;;
  removeFromQueue userId AUDIO;;
  removeFromQueue userId TEXT;;
  mret tt.

Definition QUEUE_TIMEOUT : Z := 60000.

Definition cleanupStaleEntries_one (cutoff : Z) (type : SessionType) : M nat :=
  removed ← zremrangebyscore (getQueueKey type) 0 cutoff;
  (if bool_decide (0 < removed)%nat
   then track (trackQueueLeave type "timeout") else mret tt);;
  queueSize ← getQueueSize type;
  track (updateQueueSize type queueSize);;
  mret removed.

Definition cleanupStaleEntries : M nat :=
  now ← Date_now;
  let cutoff := now - QUEUE_TIMEOUT in
  a ← cleanupStaleEntries_one cutoff VIDEO;
  b ← cleanupStaleEntries_one cutoff AUDIO;
  c ← cleanupStaleEntries_one cutoff TEXT;
  mret (a + b + c)%nat.

(** ** SessionManager ([src/services/matching/sessionManager.ts]) *)

(** [!s] for a string that may be [null]: [null] and the empty string are
    falsy. *)
Definition falsy (s : option string) : bool :=
  match s with
  | None => true
  | Some x => bool_decide (x = "")
  end.

(** [Session.create(sessionType, user1Id, user2Id)]: the id of the new row,
    or [None]. *)
Definition Session_create : M (option string) :=
  fun w => (db_create w (db_calls w), db_called w).

(** [Session.endSession(sessionId, status)] *)
Definition Session_endSession : M bool :=
  fun w => (db_end w (db_calls w), db_called w).

Definition getActiveSession (userId : string) : M (option IActiveSession) :=
  sessionId ← gets (fun w => session_user (redis w) !! userId);
  match sessionId with
  | Some sid =>
      if falsy sessionId then mret None
      else
        sessionData ← gets (fun w => session (redis w) !! sid);
        match sessionData with
        | None =>
            modify (with_redis (set_session_user (delete userId)));;
            mret None
        | Some d => mret (Some d)
        end
  | None => mret None
  end.

Definition getSessionById (sessionId : string) : M (option IActiveSession) :=
  gets (fun w => session (redis w) !! sessionId).

(** Returns the id of the created session ([session.id]) rather than the
    whole row. *)
Definition createSession (sessionType : SessionType) (user1Id user2Id : string)
    : M (option string) :=
  user1Session ← getActiveSession user1Id;
  user2Session ← getActiveSession user2Id;
  if bool_decide (is_Some user1Session) || bool_decide (is_Some user2Session)
  then mret None
  else
    session ← Session_create;
    match session with
    | None => mret None
    | Some sid =>
        now ← Date_now;
        let sessionData := mkActiveSession sid sessionType user1Id user2Id now in
        modify (with_redis (set_session <[sid := sessionData]>));;
        modify (with_redis (set_session_user <[user1Id := sid]>));;
        modify (with_redis (set_session_user <[user2Id := sid]>));;
        track (trackSessionStart sessionType);;
        mret (Some sid)
    end.

Definition endReason (status : SessionStatus) : string :=
  if bool_decide (status = ENDED) then "normal"
  else if bool_decide (status = ABANDONED) then "timeout" else "disconnect".

Definition endSession (sessionId : string) (status : SessionStatus) : M bool :=
  sessionData ← getSessionById sessionId;
  match sessionData with
  | None => mret false
  | Some d =>
      now ← Date_now;
      let durationSeconds := (inject_Z (now - startedAt d) / 1000)%Q in
      updated ← Session_endSession;
      (if updated : bool then
         modify (with_redis (set_session (delete sessionId)));;
         modify (with_redis (set_session_user (delete (user1Id d))));;
         modify (with_redis (set_session_user (delete (user2Id d))));;
         track (trackSessionEnd (sessionType d) (endReason status) durationSeconds)
       else mret tt);;
      mret updated
  end.

Definition endSessionForUser (userId : string) : M bool :=
  session ← getActiveSession userId;
  match session with
  | None => mret false
  | Some s => endSession (id s) ENDED
  end.

Definition isUserInSession (userId : string) : M bool :=
  session ← getActiveSession userId;
  mret (bool_decide (is_Some session)).

Definition getSessionPartner (userId : string) : M (option string) :=
  session ← getActiveSession userId;
  match session with
  | None => mret None
  | Some s =>
      mret (Some (if bool_decide (user1Id s = userId) then user2Id s else user1Id s))
  end.

(** ** PairingEngine ([src/services/matching/pairingEngine.ts]) *)

Record IMatchResult := mkMatchResult {
  success : bool;
  sessionId : option string;
  partner : option IQueueUser;
  error : option string;
}.

Definition failure (msg : string) : IMatchResult :=
  mkMatchResult false None None (Some msg).

Definition matchUser (userId : string) (queueType : SessionType) : M IMatchResult :=
  inQueue ← isUserInQueue userId;
  if inQueue is None then mret (failure "User not in queue")
  else
    partner ← findMatch userId queueType;
    match partner with
    | None => mret (failure "No match found")
    | Some p =>
        let '(mkQueueUser partnerUserId partnerSocketId _) := p in
        session ← createSession queueType userId partnerUserId;
        match session with
        | None =>
            addToQueue userId "" queueType;;
            addToQueue partnerUserId partnerSocketId queueType;;
            track (trackError "matching" "session_creation_failed");;
            mret (failure "Failed to create session")
        | Some sid =>
            removeFromQueue userId queueType;;
            removeFromQueue partnerUserId queueType;;
            publish (mkMatchFound sid userId partnerUserId queueType);;
            track (trackQueueLeave queueType "matched");;
            mret (mkMatchResult true (Some sid) (Some p) None)
        end
    end.

Definition quickMatch (userId socketId : string) (queueType : SessionType)
    : M IMatchResult :=
  added ← addToQueue userId socketId queueType;
  if negb added then mret (failure "Failed to join queue")
  else
    result ← matchUser userId queueType;
    if success result then mret result
    else mret (failure "Waiting for match").

Definition cancelMatching (userId : string) (queueType : SessionType) : M bool :=
  removed ← removeFromQueue userId queueType;
  (if removed : bool then track (trackQueueLeave queueType "cancelled") else mret tt);;
  mret removed.

Definition matchWithFriend (userId friendId : string) (queueType : SessionType)
    : M IMatchResult :=
  userSession ← getActiveSession userId;
  friendSession ← getActiveSession friendId;
  if bool_decide (is_Some userSession) || bool_decide (is_Some friendSession)
  then mret (failure "One or both users are already in a session")
  else
    session ← createSession queueType userId friendId;
    match session with
    | None => mret (failure "Failed to create session")
    | Some sid => mret (mkMatchResult true (Some sid) None None)
    end.

Definition rematch (userId : string) (queueType : SessionType) : M IMatchResult :=
  currentSession ← getActiveSession userId;
  (if currentSession is Some s then endSession (id s) ENDED;; mret tt else mret tt);;
  removeFromAllQueues userId;;
  quickMatch userId "" queueType.

(** ** Presence

    Modelled from the spec: [setUserOnline] and [setUserOffline] of
    [services/friends/presenceTracker.ts].  The spec has a presence record
    per user whose absence means offline; [setUserOnline] creates the record
    of the user and [setUserOffline] removes it. *)

Definition setUserOnline (userId socketId : string) : M unit :=
  modify (with_presence (fun p => {[userId]} ∪ p)).

Definition setUserOffline (userId : string) : M unit :=
  modify (with_presence (fun p => p ∖ {[userId]})).

Definition isOnline (userId : string) (w : World) : bool :=
  bool_decide (userId ∈ presence w).

(** ** SocketManager ([src/websocket/socketManager.ts])

    [userSockets : Map<string, Set<string>>]; a [Set] is kept as the list of
    its elements in insertion order.  A socket is given by [socket.id] and
    [socket.data.userId]. *)

Definition set_add (x : string) (s : list string) : list string :=
  if bool_decide (x ∈ s) then s else s ++ [x].

Definition set_delete (x : string) (s : list string) : list string :=
  List.filter (fun y => negb (bool_decide (y = x))) s.

Definition registerSocket (socket userId : string) : M unit :=
  has ← gets (fun w => bool_decide (is_Some (userSockets w !! userId)));
  (if negb has then modify (with_userSockets <[userId := []]>) else mret tt);;
  modify (with_userSockets (fun m => <[userId := set_add socket (default [] (m !! userId))]> m));;
  setUserOnline userId socket.

Definition unregisterSocket (socket userId : string) : M unit :=
  userSocketSet ← gets (fun w => userSockets w !! userId);
  match userSocketSet with
  | Some s =>
      let s' := set_delete socket s in
      modify (with_userSockets <[userId := s']>);;
      if bool_decide (length s' = 0%nat) then
        modify (with_userSockets (delete userId));;
        setUserOffline userId
      else mret tt
  | None => mret tt
  end.

Definition getUserSockets (userId : string) : M (list string) :=
  gets (fun w => default [] (userSockets w !! userId)).

Fixpoint emitEach (socketIds : list string) (ev : WSEvents) (data : Payload) : M unit :=
  match socketIds with
  | [] => mret tt
  | s :: rest => emit s ev data;; emitEach rest ev data
  end.

Definition emitToUser (userId : string) (ev : WSEvents) (data : Payload) : M unit :=
  socketIds ← getUserSockets userId;
  emitEach socketIds ev data.

(** ** WebSocketServer ([src/websocket/wsServer.ts])

    [activeConnections : Map<string, Socket>]; of a socket only the user id
    it carries is kept. *)

Definition cleanupUserSession (userId : string) : M unit :=
  removeFromAllQueues userId;;
  endSessionForUser userId;;
  setUserOffline userId.

Definition handleConnection (socket userId username : string) : M unit :=
  modify (with_activeConnections <[socket := userId]>);;
  track trackWsConnection;;
  now ← Date_now;
  emit socket AUTH_SUCCESS (AuthSuccessPayload socket userId username now).

Definition handleDisconnection (socket userId : string) : M unit :=
  modify (with_activeConnections (delete socket));;
  track (trackWsDisconnection "normal");;
  cleanupUserSession userId.

(** ** Chat handler ([src/websocket/handlers/chatHandler.ts]) *)

(** ECMAScript [WhiteSpace] and [LineTerminator] code units, the ones
    [String.prototype.trim] strips. *)
Definition isWhiteSpace (c : N) : bool :=
  bool_decide (c ∈ [9; 10; 11; 12; 13; 32; 160; 5760; 8232; 8233; 8239; 8287; 12288; 65279]%N)
  || ((8192 <=? c)%N && (c <=? 8202)%N).

Fixpoint trimStart (s : jsstring) : jsstring :=
  match s with
  | [] => []
  | c :: rest => if isWhiteSpace c then trimStart rest else s
  end.

Definition trim (s : jsstring) : jsstring :=
  rev (trimStart (rev (trimStart s))).

(** The listener on [WSEvents.CHAT_MESSAGE] installed for a socket with id
    [socket] and [socket.data.userId = userId]. *)
Definition onChatMessage (socket userId : string) (message : jsstring) : M unit :=
  if bool_decide (length message = 0%nat) || bool_decide (length (trim message) = 0%nat) then
    emit socket ERROR (ErrorPayload "Message cannot be empty")
  else if bool_decide (1000 < length message)%nat then
    emit socket ERROR (ErrorPayload "Message too long (max 1000 characters)")
  else
    partnerId ← getSessionPartner userId;
    match partnerId with
    | Some p =>
        if falsy partnerId then emit socket ERROR (ErrorPayload "No active session")
        else
          timestamp ← Date_now;
          emitToUser p CHAT_MESSAGE (ChatPayload message timestamp userId);;
          track (messagesSent_inc "random")
    | None => emit socket ERROR (ErrorPayload "No active session")
    end.

Definition onChatTyping (socket userId : string) : M unit :=
  partnerId ← getSessionPartner userId;
  match partnerId with
  | Some p =>
      if falsy partnerId then mret tt
      else emitToUser p CHAT_TYPING (UserPayload userId)
  | None => mret tt
  end.

(** ** Signal handler ([src/websocket/handlers/signalHandler.ts]) *)

Definition onCallOffer (socket userId : string) (offer : Blob) : M unit :=
  partnerId ← getSessionPartner userId;
  match partnerId with
  | Some p =>
      if falsy partnerId then emit socket CALL_ERROR (ErrorPayload "No active session")
      else emitToUser p CALL_OFFER (OfferPayload offer userId)
  | None => emit socket CALL_ERROR (ErrorPayload "No active session")
  end.

Definition onCallAnswer (socket userId : string) (answer : Blob) : M unit :=
  partnerId ← getSessionPartner userId;
  match partnerId with
  | Some p =>
      if falsy partnerId then emit socket CALL_ERROR (ErrorPayload "No active session")
      else emitToUser p CALL_ANSWER (AnswerPayload answer userId)
  | None => emit socket CALL_ERROR (ErrorPayload "No active session")
  end.

Definition onCallIceCandidate (socket userId : string) (candidate : Blob) : M unit :=
  partnerId ← getSessionPartner userId;
  match partnerId with
  | Some p =>
      if falsy partnerId then mret tt
      else emitToUser p CALL_ICE_CANDIDATE (IcePayload candidate userId)
  | None => mret tt
  end.

Definition onCallEnd (socket userId : string) : M unit :=
  partnerId ← getSessionPartner userId;
  (match partnerId with
   | Some p =>
       if falsy partnerId then mret tt
       else emitToUser p CALL_END (UserPayload userId)
   | None => mret tt
   end);;
  endSessionForUser userId;;
  mret tt.

(** ** LoadBalancer ([src/services/matching/loadBalancer.ts])

    JavaScript numbers are modelled by exact rationals: the rounding of
    binary64 arithmetic is not modelled. *)

Module LoadBalancer.

Record IServerInstance := mkInstance {
  instanceId : string;
  host : string;
  port : Z;
  activeConnections : Z;
  cpuUsage : Q;
  memoryUsage : Q;
  lastHeartbeat : Z;
  isHealthy : bool;
}.

(** [scan] lists the records under [loadbalancer:instance:*] in the order the
    SCAN loop reads them. *)
Fixpoint getHealthyInstances (scan : list IServerInstance) : M (list IServerInstance) :=
  match scan with
  | [] => mret []
  | instance :: rest =>
      now ← Date_now;
      let timeSinceHeartbeat := now - lastHeartbeat instance in
      instances ← getHealthyInstances rest;
      if bool_decide (timeSinceHeartbeat < 30000) && isHealthy instance
      then mret (instance :: instances)
      else mret instances
  end.

Definition loadScore (instance : IServerInstance) : Q :=
  (cpuUsage instance * (4 # 10)
   + memoryUsage instance * (3 # 10)
   + (inject_Z (activeConnections instance) / 100) * (3 # 10))%Q.

(** [Array.prototype.sort(compareFn)]: a stable sort; [compareFn a b <= 0]
    keeps [a] before [b]. *)
Fixpoint sort_insert {A} (compareFn : A -> A -> Q) (a : A) (l : list A) : list A :=
  match l with
  | [] => [a]
  | b :: rest =>
      if Qle_bool (compareFn a b) 0 then a :: b :: rest
      else b :: sort_insert compareFn a rest
  end.

Definition sort {A} (compareFn : A -> A -> Q) (l : list A) : list A :=
  fold_right (sort_insert compareFn) [] l.

(** An element of [instancesWithScore]: the instance and its [loadScore]. *)
Definition compareScore (a b : IServerInstance * Q) : Q := (a.2 - b.2)%Q.

Definition getLeastLoadedInstance (scan : list IServerInstance)
    : M (option (IServerInstance * Q)) :=
  instances ← getHealthyInstances scan;
  if bool_decide (length instances = 0%nat) then mret None
  else
    let instancesWithScore := map (fun instance => (instance, loadScore instance)) instances in
    mret (head (sort compareScore instancesWithScore)).

(** An instance with its score, as in [instancesWithScore]. *)
Definition withScore (instance : IServerInstance) : IServerInstance * Q :=
  (instance, loadScore instance).

(** The instances [getHealthyInstances] keeps. *)
Definition healthyOf (scan : list IServerInstance) (w : World) : list IServerInstance :=
  (getHealthyInstances scan w).1.




End LoadBalancer.

(** ** Observations used in the statements *)

(** The waiting entries of the three modalities. *)
Definition waiting (w : World) : zset * zset * zset :=
  (q_video (redis w), q_audio (redis w), q_text (redis w)).

(** The queue of a modality, and the score of a user in it. *)
Definition queueOf (t : SessionType) (w : World) : zset :=
  zget (getQueueKey t) (redis w).

Definition scoreIn (t : SessionType) (u : string) (w : World) : option Z :=
  zscore_list u (queueOf t w).

(** The sidecar record of a user. *)
Definition userDataOf (u : string) (w : World) : option IQueueUser :=
  queue_user (redis w) !! userDataKey u.

(** The world after [releaseLock]. *)
Definition unlocked (t : SessionType) : World -> World :=
  with_redis (set_locks (List.filter (fun x => negb (bool_decide (x = t))))).

(** Pair extraction removes both of the two oldest entries and returns a
    partner, or leaves the waiting entries as they were. *)
Definition pair_both_or_neither (u : string) (t : SessionType) (w : World) : Prop :=
  let res := (findMatch u t w).1 in
  let w' := (findMatch u t w).2 in
  (is_Some res ∧ ∀ x, x ∈ zrange01 (queueOf t w) → scoreIn t x w' = None)
  ∨ waiting w' = waiting w.

(** A user waiting in modality [m1] is refused by [addToQueue] for modality
    [m2], and nothing is inserted. *)
Definition enqueue_refused (u s : string) (m1 m2 : SessionType) (w : World) : Prop :=
  is_Some (scoreIn m1 u w) →
  (addToQueue u s m2 w).1 = false ∧ redis (addToQueue u s m2 w).2 = redis w.

(** What a call [findMatch u t] in world [w] leaves behind: the queues of
    the other modalities are untouched, and for the queue of [t] one of
    three things holds.
    - Nothing was extracted: [null] is returned and the waiting entries are
      as before.
    - A pair was extracted: [u] is among the two oldest entries [u0], [u1],
      the sidecar record of the other one is returned, and both entries are
      gone.
    - The partner could not be rehydrated: [null] is returned, the entry of
      the partner is gone, and [u] is back in the queue with the time of the
      re-insertion as score and an empty socket id in its sidecar record. *)
Definition findMatch_post (u : string) (t : SessionType) (w : World) : Prop :=
  let now := clock w (ticks w) in
  let res := (findMatch u t w).1 in
  let w' := (findMatch u t w).2 in
  (∀ t', t' ≠ t → queueOf t' w' = queueOf t' w) ∧
  ((res = None ∧ waiting w' = waiting w)
   ∨ (∃ u0 u1, zrange01 (queueOf t w) = [u0; u1] ∧ u ∈ [u0; u1] ∧
        is_Some res ∧ res = userDataOf (if bool_decide (u0 = u) then u1 else u0) w ∧
        scoreIn t u0 w' = None ∧ scoreIn t u1 w' = None ∧
        (∀ x, x ≠ u0 → x ≠ u1 → scoreIn t x w' = scoreIn t x w))
   ∨ (∃ partnerId,
        (zrange01 (queueOf t w) = [u; partnerId] ∨ zrange01 (queueOf t w) = [partnerId; u]) ∧
        partnerId ≠ u ∧ res = None ∧ userDataOf partnerId w = None ∧
        scoreIn t partnerId w' = None ∧ scoreIn t u w' = Some now ∧
        userDataOf u w' = Some (mkQueueUser u "" now) ∧
        (∀ x, x ≠ u → x ≠ partnerId → scoreIn t x w' = scoreIn t x w))).

(** What [addToQueue u s m2] does in a world [w]: its guard looks at the
    queue of [m2] only. *)
Definition addToQueue_post (u s : string) (m1 m2 : SessionType) (w : World) : Prop :=
  let now := clock w (ticks w) in
  let res := (addToQueue u s m2 w).1 in
  let w' := (addToQueue u s m2 w).2 in
  (is_Some (scoreIn m2 u w) → res = false ∧ redis w' = redis w) ∧
  (scoreIn m2 u w = None →
     res = true ∧ scoreIn m2 u w' = Some now ∧ scoreIn m1 u w' = scoreIn m1 u w ∧
     userDataOf u w' = Some (mkQueueUser u s now)).

(** [u] joins the queue of [m] and is then removed from the queue of [m']:
    the entry in [m] stays, the sidecar record is gone. *)
Definition shared_sidecar_post (u s : string) (m m' : SessionType) (w : World) : Prop :=
  let now := clock w (ticks w) in
  let w1 := (addToQueue u s m w).2 in
  let w2 := (removeFromQueue u m' w1).2 in
  queue_user (redis w1) !! (QUEUE_VIDEO, u) = Some (mkQueueUser u s now) ∧
  (getUserData u w1).1 = Some (mkQueueUser u s now) ∧
  scoreIn m u w2 = Some now ∧
  queue_user (redis w2) !! (QUEUE_VIDEO, u) = None ∧
  (getUserData u w2).1 = None ∧
  (scoreIn m' u w = None → (removeFromQueue u m' w1).1 = false).

(** ** Session bookkeeping *)

(** The reverse pointer of [u] names session [sid]. *)
Definition pointsTo (u sid : string) (w : World) : Prop :=
  session_user (redis w) !! u = Some sid.


(** The database never hands out the same id twice, nor the empty id. *)
Definition fresh_ids (dbc : nat -> option string) : Prop :=
  (∀ i j sid, dbc i = Some sid → dbc j = Some sid → i = j) ∧ (∀ i, dbc i ≠ Some "").

(** The session [createSession t a b] creates in [w], if any, with its two
    members. *)
Definition created (t : SessionType) (a b : string) (w : World)
    : list (string * string * string) :=
  match (createSession t a b w).1 with
  | Some sid => [(sid, a, b)]
  | None => []
  end.

(** The worlds that [createSession], [endSession] and [getActiveSession]
    reach from an empty store, together with the sessions created on the
    way. *)
Inductive sm_reachable (clk : nat -> Z) (dbc : nat -> option string) (dbe : nat -> bool)
    : list (string * string * string) -> World -> Prop :=
  | sm_boot : sm_reachable clk dbc dbe [] (boot clk dbc dbe)
  | sm_createSession h w t a b :
      sm_reachable clk dbc dbe h w →
      sm_reachable clk dbc dbe (h ++ created t a b w) (createSession t a b w).2
  | sm_endSession h w sid status :
      sm_reachable clk dbc dbe h w →
      sm_reachable clk dbc dbe h (endSession sid status w).2
  | sm_getActiveSession h w u :
      sm_reachable clk dbc dbe h w →
      sm_reachable clk dbc dbe h (getActiveSession u w).2.

(** [endSession sid] in [w], acknowledged by the database: it returns true,
    the record and both reverse pointers are gone, and from any world with
    that store a further call returns false and leaves the store as it is. *)
Definition endSession_post (sid : string) (status : SessionStatus) (d : IActiveSession)
    (w : World) : Prop :=
  let w1 := (endSession sid status w).2 in
  (endSession sid status w).1 = true ∧
  session (redis w1) !! sid = None ∧
  session_user (redis w1) !! user1Id d = None ∧
  session_user (redis w1) !! user2Id d = None ∧
  ∀ status' w2, redis w2 = redis w1 →
    (endSession sid status' w2).1 = false ∧ redis (endSession sid status' w2).2 = redis w2.

(** The world after [createSession] has written session [sid]. *)
Definition sessionWritten (t : SessionType) (a b sid : string) (w : World) : World :=
  let now := clock w (ticks w) in
  with_metrics (fun l => l ++ [trackSessionStart t])
    (with_redis
       (fun r => set_session_user <[b := sid]>
                   (set_session_user <[a := sid]>
                      (set_session <[sid := mkActiveSession sid t a b now]> r)))
       (tick w)).

(** What holds of the session keys in every reachable world with history
    [h]: a record has a non-empty id issued by the database and both its
    reverse pointers; a reverse pointer names a record of which its user is a
    member; a session of the history that still has a record has the members
    it was created with. *)
Record sm_inv (dbc : nat -> option string) (h : list (string * string * string))
    (w : World) : Prop := {
  inv_db : db_create w = dbc;
  inv_record : ∀ sid d, session (redis w) !! sid = Some d →
    sid ≠ "" ∧ (∃ i, (i < db_calls w)%nat ∧ dbc i = Some sid) ∧
    pointsTo (user1Id d) sid w ∧ pointsTo (user2Id d) sid w;
  inv_pointer : ∀ u sid, pointsTo u sid w →
    ∃ d, session (redis w) !! sid = Some d ∧ (u = user1Id d ∨ u = user2Id d);
  inv_history : ∀ sid a b, (sid, a, b) ∈ h →
    (∃ i, (i < db_calls w)%nat ∧ dbc i = Some sid) ∧
    ∀ d, session (redis w) !! sid = Some d → user1Id d = a ∧ user2Id d = b;
}.

(** ** Pairing *)

(** The sidecar record stored for a user carries the id of that user. *)
Definition sidecar_wf (w : World) : Prop :=
  ∀ x d, userDataOf x w = Some d → userId d = x.

(** The parts of the world the queue manager works on are the same in [w]
    and [w']. *)
Definition queue_frame (w w' : World) : Prop :=
  (∀ k, zget k (redis w') = zget k (redis w)) ∧
  queue_user (redis w') = queue_user (redis w) ∧
  clock w' = clock w ∧ ticks w' = ticks w ∧ metrics w' = metrics w.

(** [quickMatch u s t] in [w] when the pair [u], [p] was extracted and the
    session could not be created: the result reports failure, both users
    are back in the queue of [t], each with the time of its own re-insertion
    as score (the second and third clock readings of the call), the caller
    with an empty socket id, and the last metric recorded is the matching
    error. *)
Definition requeue_post (u s : string) (t : SessionType) (p : IQueueUser) (w : World) : Prop :=
  let t_caller := clock w (S (ticks w)) in
  let t_partner := clock w (S (S (ticks w))) in
  let res := (quickMatch u s t w).1 in
  let w' := (quickMatch u s t w).2 in
  success res = false ∧
  scoreIn t u w' = Some t_caller ∧
  scoreIn t (userId p) w' = Some t_partner ∧
  userDataOf u w' = Some (mkQueueUser u "" t_caller) ∧
  userDataOf (userId p) w' = Some (mkQueueUser (userId p) (socketId p) t_partner) ∧
  last (metrics w') = Some (trackError "matching" "session_creation_failed").

(** The same situation, with both users back at the scores they had when
    the pair was extracted. *)
Definition requeued_at_original_scores (u s : string) (t : SessionType) (w : World) : Prop :=
  let w1 := (addToQueue u s t w).2 in
  ∀ p, (findMatch u t w1).1 = Some p →
       (createSession t u (userId p) (findMatch u t w1).2).1 = None →
       let res := (quickMatch u s t w).1 in
       let w' := (quickMatch u s t w).2 in
       success res = false ∧
       trackError "matching" "session_creation_failed" ∈ metrics w' ∧
       scoreIn t u w' = scoreIn t u w1 ∧
       scoreIn t (userId p) w' = scoreIn t (userId p) w1.

(** ** Relay *)

(** The sockets [emitToUser] reaches. *)
Definition socketsOf (u : string) (w : World) : list string :=
  default [] (userSockets w !! u).

(** What [emitToUser u ev data] adds to the outbox. *)
Definition fanout (u : string) (ev : WSEvents) (data : Payload) (w : World) : list Emission :=
  map (fun s => mkEmission s ev data) (socketsOf u w).

(** Empty or made of white space only. *)
Definition blank (message : jsstring) : bool := forallb isWhiteSpace message.

(** The call sent one error event to [socket] and nothing else. *)
Definition rejected (socket : string) (ev : WSEvents) (w w' : World) : Prop :=
  ∃ msg, outbox w' = outbox w ++ [mkEmission socket ev (ErrorPayload msg)].

(** The call sent the chat payload to the sockets of [partner] and nothing
    else. *)
Definition delivered (userId partner : string) (message : jsstring) (w w' : World) : Prop :=
  outbox w' = outbox w ++
    fanout partner CHAT_MESSAGE (ChatPayload message (clock w (ticks w)) userId) w.

(** The rule of [chat:message] with rejection of empty and of over-long
    texts only. *)
Definition chat_rule_as_stated (socket userId : string) (message : jsstring) (w : World) : Prop :=
  let w' := (onChatMessage socket userId message w).2 in
  match (getSessionPartner userId w).1 with
  | None => rejected socket ERROR w w'
  | Some partner =>
      if bool_decide (length message = 0%nat) || bool_decide (1000 < length message)%nat
      then rejected socket ERROR w w'
      else delivered userId partner message w w'
  end.

(** The rule the handler follows: blank texts are rejected as well, and an
    empty partner id counts as no partner.  The store is what it was, up to
    the deletion of a dangling reverse pointer by the partner lookup. *)
Definition chat_rule (socket userId : string) (message : jsstring) (w : World) : Prop :=
  let w' := (onChatMessage socket userId message w).2 in
  let partnerId := (getSessionPartner userId w).1 in
  (if blank message || bool_decide (1000 < length message)%nat || falsy partnerId
   then rejected socket ERROR w w'
   else delivered userId (default "" partnerId) message w w') ∧
  (redis w' = redis w ∨ redis w' = redis (getActiveSession userId w).2).

Inductive Signal := Offer | Answer | Ice.

Definition onSignal (k : Signal) (socket userId : string) (blob : Blob) : M unit :=
  match k with
  | Offer => onCallOffer socket userId blob
  | Answer => onCallAnswer socket userId blob
  | Ice => onCallIceCandidate socket userId blob
  end.

Definition relayed (k : Signal) (userId : string) (blob : Blob) : WSEvents * Payload :=
  match k with
  | Offer => (CALL_OFFER, OfferPayload blob userId)
  | Answer => (CALL_ANSWER, AnswerPayload blob userId)
  | Ice => (CALL_ICE_CANDIDATE, IcePayload blob userId)
  end.

(** With a partner the payload is relayed as it came. *)
Definition signal_relayed (k : Signal) (userId partner : string) (blob : Blob) (w w' : World) : Prop :=
  outbox w' = outbox w ++ fanout partner (relayed k userId blob).1 (relayed k userId blob).2 w.

(** Without a partner every signaling message is dropped silently. *)
Definition signal_rule_as_stated (k : Signal) (socket userId : string) (blob : Blob)
    (w : World) : Prop :=
  let w' := (onSignal k socket userId blob w).2 in
  let partnerId := (getSessionPartner userId w).1 in
  if falsy partnerId then outbox w' = outbox w
  else signal_relayed k userId (default "" partnerId) blob w w'.

(** Without a partner only [call:ice] is dropped silently; [call:offer] and
    [call:answer] answer the sender with [call:error]. *)
Definition signal_rule (k : Signal) (socket userId : string) (blob : Blob) (w : World) : Prop :=
  let w' := (onSignal k socket userId blob w).2 in
  let partnerId := (getSessionPartner userId w).1 in
  if falsy partnerId then
    match k with
    | Ice => outbox w' = outbox w
    | _ => outbox w' = outbox w ++ [mkEmission socket CALL_ERROR (ErrorPayload "No active session")]
    end
  else signal_relayed k userId (default "" partnerId) blob w w'.

(** The world after an error event went to [socket]. *)
Definition sendError (socket : string) (ev : WSEvents) (msg : string) : World -> World :=
  with_outbox (fun l => l ++ [mkEmission socket ev (ErrorPayload msg)]).


(** ** Scenarios *)

(** A clock that advances by one millisecond per reading, a database that
    hands out the ids of [ids] in turn and acknowledges every update. *)
Definition world0 (ids : list string) : World :=
  boot (fun n => Z.of_nat n) (fun n => ids !! n) (fun _ => true).

(** [u1] joins the audio queue, a removal of [u1] from the video queue is
    requested, then [u2] joins the audio queue. *)
Definition world_orphaned_entry : World :=
  ((addToQueue "u1" "s1" AUDIO;;
    removeFromQueue "u1" VIDEO;;
    addToQueue "u2" "s2" AUDIO) (world0 [])).2.

(** [u1] waits in the video queue. *)
Definition world_one_waiting : World :=
  (addToQueue "u1" "s1" VIDEO (world0 [])).2.

(** [a] and [b] are in session under id [s1]. *)
Definition world_in_session : World :=
  (createSession VIDEO "a" "b" (world0 ["s1"; "s2"])).2.

(** [p] waits in the video queue and the database refuses every insert. *)
Definition world_partner_waiting : World :=
  (addToQueue "p" "sp" VIDEO (world0 [])).2.

(** [a] and [b] are in session and [b] has one socket on this instance. *)
Definition world_chat : World :=
  (registerSocket "sb" "b" world_in_session).2.

(** [u] is connected through two sockets, [s1] and [s2]. *)
Definition world_two_tabs : World :=
  ((handleConnection "s1" "u" "alice";;
    registerSocket "s1" "u";;
    handleConnection "s2" "u" "alice";;
    registerSocket "s2" "u") (world0 [])).2.

(** ** Queue order

    The order Redis keeps a sorted set in: by score, then by member. *)

Definition entry_le (a b : string * Z) : Prop := entry_leb a b = true.

(** Every queue is in that order and holds a user at most once; every
    sidecar record carries the id of its user. *)
Definition queues_wf (w : World) : Prop :=
  (∀ k, StronglySorted entry_le (zget k (redis w))) ∧
  (∀ k, NoDup (members (zget k (redis w)))) ∧
  sidecar_wf w.

(** The worlds the queue manager reaches from an empty store. *)
Inductive qm_reachable : World -> Prop :=
  | qm_boot clk dbc dbe : qm_reachable (boot clk dbc dbe)
  | qm_addToQueue w u s t :
      qm_reachable w → qm_reachable (addToQueue u s t w).2
  | qm_removeFromQueue w u t :
      qm_reachable w → qm_reachable (removeFromQueue u t w).2
  | qm_findMatch w u t :
      qm_reachable w → qm_reachable (findMatch u t w).2
  | qm_removeFromAllQueues w u :
      qm_reachable w → qm_reachable (removeFromAllQueues u w).2
  | qm_cleanupStaleEntries w :
      qm_reachable w → qm_reachable (cleanupStaleEntries w).2.

(** [u] has an entry in no queue. *)
Definition inNoQueue (u : string) (w : World) : Prop :=
  ∀ t, scoreIn t u w = None.

(** The same three conditions on a store. *)
Definition redis_wf (r : Redis) : Prop :=
  (∀ k, StronglySorted entry_le (zget k r)) ∧
  (∀ k, NoDup (members (zget k r))) ∧
  (∀ x d, queue_user r !! userDataKey x = Some d → userId d = x).

(** The place of a modality in the loop [[VIDEO, AUDIO, TEXT]]. *)
Definition modality_rank (t : SessionType) : nat :=
  match t with VIDEO => 0 | AUDIO => 1 | TEXT => 2 end.

(** What [getQueuePosition u t] answers in [w]: the world is untouched; the
    position is 0 exactly for a user without entry, and otherwise it is the
    1-based index of the entry of [u] in the queue. *)
Definition getQueuePosition_post (u : string) (t : SessionType) (w : World) : Prop :=
  let pos := (getQueuePosition u t w).1 in
  (getQueuePosition u t w).2 = w ∧
  (pos = 0%nat ↔ scoreIn t u w = None) ∧
  (pos ≤ length (queueOf t w))%nat ∧
  ∀ s, scoreIn t u w = Some s → (1 ≤ pos)%nat ∧ queueOf t w !! (pos - 1)%nat = Some (u, s).

(** What [isUserInQueue u] answers in [w]: the first modality, in the order
    video, audio, text, in whose queue [u] has an entry. *)
Definition isUserInQueue_post (u : string) (w : World) : Prop :=
  (isUserInQueue u w).2 = w ∧
  match (isUserInQueue u w).1 with
  | None => inNoQueue u w
  | Some t =>
      is_Some (scoreIn t u w) ∧
      ∀ t', (modality_rank t' < modality_rank t)%nat → scoreIn t' u w = None
  end.

(** After [removeFromAllQueues u]: no entry and no sidecar record of [u] is
    left, and the entries and records of every other user are as before. *)
Definition removeFromAllQueues_post (u : string) (w : World) : Prop :=
  let w' := (removeFromAllQueues u w).2 in
  inNoQueue u w' ∧ userDataOf u w' = None ∧ (isUserInQueue u w').1 = None ∧
  ∀ x, x ≠ u → (∀ t, scoreIn t x w' = scoreIn t x w) ∧ userDataOf x w' = userDataOf x w.

(** An entry is stale at [cutoff]. *)
Definition stale (cutoff s : Z) : bool := (0 <=? s)%Z && (s <=? cutoff)%Z.

(** After [cleanupStaleEntries]: with [cutoff] = now - 60 s, an entry is
    left exactly when it was there and is not stale; the call returns the
    number of entries removed; the sidecar records are all still there. *)
Definition cleanupStaleEntries_post (w : World) : Prop :=
  let cutoff := clock w (ticks w) - QUEUE_TIMEOUT in
  let w' := (cleanupStaleEntries w).2 in
  (∀ t x, scoreIn t x w' =
     match scoreIn t x w with
     | Some s => if stale cutoff s then None else Some s
     | None => None
     end) ∧
  (cleanupStaleEntries w).1 =
    (length (queueOf VIDEO w) - length (queueOf VIDEO w')
     + (length (queueOf AUDIO w) - length (queueOf AUDIO w'))
     + (length (queueOf TEXT w) - length (queueOf TEXT w')))%nat ∧
  queue_user (redis w') = queue_user (redis w).

(** A successful [findMatch u t] in [w] pairs the two users who have waited
    longest: whoever is still waiting in the queue afterwards has a score at
    least as high as the caller's and the partner's. *)
Definition findMatch_fifo (u : string) (t : SessionType) (p : IQueueUser) (w : World) : Prop :=
  let w' := (findMatch u t w).2 in
  ∃ partnerId su sp,
    partnerId ≠ u ∧ userDataOf partnerId w = Some p ∧
    scoreIn t u w = Some su ∧ scoreIn t partnerId w = Some sp ∧
    ∀ x sx, scoreIn t x w' = Some sx → (su ≤ sx)%Z ∧ (sp ≤ sx)%Z.

(** A user who joins after everyone waiting is placed last, and nobody
    else moves. *)
Definition joins_at_back (u s : string) (t : SessionType) (w : World) : Prop :=
  let w' := (addToQueue u s t w).2 in
  (getQueuePosition u t w').1 = S (length (queueOf t w)) ∧
  (getQueueSize t w').1 = S (length (queueOf t w)) ∧
  ∀ x, x ≠ u → (getQueuePosition x t w').1 = (getQueuePosition x t w).1.

(** [addToQueue] followed by [removeFromQueue]. *)
Definition enqueue_dequeue_post (u s : string) (t : SessionType) (w : World) : Prop :=
  let w1 := (addToQueue u s t w).2 in
  let w2 := (removeFromQueue u t w1).2 in
  (addToQueue u s t w).1 = true ∧ (removeFromQueue u t w1).1 = true ∧
  waiting w2 = waiting w ∧ userDataOf u w2 = None ∧
  ∀ x, x ≠ u → userDataOf x w2 = userDataOf x w.

(** [findMatch] and the matching lock. *)
Definition findMatch_lock_post (u : string) (t : SessionType) (w : World) : Prop :=
  (t ∈ locks (redis w) → findMatch u t w = (None, w)) ∧
  locks (redis (findMatch u t w).2) = locks (redis w).

(** [cancelMatching u t]: true exactly for a user with an entry in the queue
    of [t]; the entry and the sidecar record are gone afterwards, and the
    leave is counted as cancelled only when an entry was removed. *)
Definition cancelMatching_post (u : string) (t : SessionType) (w : World) : Prop :=
  let res := (cancelMatching u t w).1 in
  let w' := (cancelMatching u t w).2 in
  (res = true ↔ is_Some (scoreIn t u w)) ∧
  scoreIn t u w' = None ∧ userDataOf u w' = None ∧
  (trackQueueLeave t "cancelled" ∈ drop (length (metrics w)) (metrics w') ↔ res = true).

(** ** Sessions *)

(** [u] is one of the two members of a session record. *)
Definition memberOf (u : string) (d : IActiveSession) : Prop :=
  u = user1Id d ∨ u = user2Id d.

(** What a lookup [getActiveSession u] in [w] leaves behind: a second lookup
    gives the same answer and changes nothing; no record and no reverse
    pointer of another user is touched; an answer is the record the reverse
    pointer of [u] names, and without an answer [u] has no reverse pointer
    any more, or an empty one. *)
Definition getActiveSession_post (u : string) (w : World) : Prop :=
  let r := (getActiveSession u w).1 in
  let w' := (getActiveSession u w).2 in
  getActiveSession u w' = (r, w') ∧
  session (redis w') = session (redis w) ∧
  (∀ x, x ≠ u → session_user (redis w') !! x = session_user (redis w) !! x) ∧
  match r with
  | Some d => w' = w ∧ ∃ sid, sid ≠ "" ∧ pointsTo u sid w ∧ session (redis w) !! sid = Some d
  | None => session_user (redis w') !! u = None ∨ session_user (redis w') !! u = Some ""
  end.

(** The session keys are consistent: a record is stored under its own,
    non-empty id and both its members point to it; a reverse pointer names a
    record of which its user is a member. *)
Definition sessions_wf (w : World) : Prop :=
  (∀ sid d, session (redis w) !! sid = Some d →
     id d = sid ∧ sid ≠ "" ∧ pointsTo (user1Id d) sid w ∧ pointsTo (user2Id d) sid w) ∧
  (∀ u sid, pointsTo u sid w → ∃ d, session (redis w) !! sid = Some d ∧ memberOf u d).

(** Every record is stored under its own id, and no user is a member of two
    records. *)
Definition one_session_per_user (w : World) : Prop :=
  (∀ sid d, session (redis w) !! sid = Some d → id d = sid) ∧
  (∀ u sid1 sid2 d1 d2,
     session (redis w) !! sid1 = Some d1 → session (redis w) !! sid2 = Some d2 →
     memberOf u d1 → memberOf u d2 → sid1 = sid2).

(** [u] has no reverse pointer. *)
Definition free (u : string) (w : World) : Prop := session_user (redis w) !! u = None.

(** [createSession t a b] in [w]: it succeeds exactly when both users are
    free and the database issues an id; a refusal leaves the store as it
    was; after a success the two users are each other's partner under the
    issued id and nobody else's session changes. *)
Definition createSession_post (t : SessionType) (a b : string) (w : World) : Prop :=
  let res := (createSession t a b w).1 in
  let w' := (createSession t a b w).2 in
  (is_Some res ↔ free a w ∧ free b w ∧ is_Some (db_create w (db_calls w))) ∧
  (res = None → redis w' = redis w) ∧
  (∀ sid, res = Some sid →
     db_create w (db_calls w) = Some sid ∧
     (getActiveSession a w').1 = Some (mkActiveSession sid t a b (clock w (ticks w))) ∧
     (getActiveSession b w').1 = Some (mkActiveSession sid t a b (clock w (ticks w))) ∧
     (getSessionPartner a w').1 = Some b ∧ (getSessionPartner b w').1 = Some a ∧
     ∀ x, x ≠ a → x ≠ b → (getActiveSession x w').1 = (getActiveSession x w).1).

(** [endSessionForUser u] in [w], where [u] is in session with [p]: when the
    database acknowledges the update the call returns true and neither [u]
    nor [p] is in a session afterwards, everybody else's session being what
    it was; when it does not, the call returns false and the store is as
    before. *)
Definition endSessionForUser_post (u p : string) (w : World) : Prop :=
  let res := (endSessionForUser u w).1 in
  let w' := (endSessionForUser u w).2 in
  if db_end w (db_calls w) then
    res = true ∧
    (isUserInSession u w').1 = false ∧ (isUserInSession p w').1 = false ∧
    (∀ x, x ≠ u → x ≠ p → (getActiveSession x w').1 = (getActiveSession x w).1)
  else res = false ∧ redis w' = redis w.

(** A session that is created and then ended leaves the store of [w]. *)
Definition create_end_roundtrip (t : SessionType) (a b sid : string) (status : SessionStatus)
    (w : World) : Prop :=
  let w1 := (createSession t a b w).2 in
  (endSession sid status w1).1 = true ∧ redis (endSession sid status w1).2 = redis w.

(** ** PairingEngine, continued ([src/services/matching/pairingEngine.ts]) *)

(** The body of [matchOldestUsers] writes a log line and nothing else. *)
Definition matchOldestUsers (queueType : SessionType) : M unit := mret tt.

(** [for (let i = 0; i < n; i++) body] *)
Fixpoint forLoop (n : nat) (body : M unit) : M unit :=
  match n with
  | O => mret tt
  | S k => body;; forLoop k body
  end.

(** The callback of the interval timers that [start] installs. *)
Definition processQueue (queueType : SessionType) : M unit :=
  queueSize ← getQueueSize queueType;
  if (queueSize <? 2)%nat then mret tt
  else
    let matchCount := (queueSize / 2)%nat in
    forLoop matchCount (matchOldestUsers queueType).

Record IMatchingStatus := mkMatchingStatus {
  inQueue : bool;
  queueType : option SessionType;
  position : option nat;
  estimatedWaitTime : option Z;
}.

Definition getMatchingStatus (userId : string) : M IMatchingStatus :=
  inQueue ← isUserInQueue userId;
  match inQueue with
  | None => mret (mkMatchingStatus false None None None)
  | Some queueType =>
      position ← getQueuePosition userId queueType;
      queueSize ← getQueueSize queueType;
      let estimatedWaitTime := Z.max 0 ((Z.of_nat position - 1) * 5) in
      mret (mkMatchingStatus true (Some queueType) (Some position) (Some estimatedWaitTime))
  end.

Definition forceMatch (user1Id user2Id : string) (queueType : SessionType) : M IMatchResult :=
  removeFromAllQueues user1Id;;
  removeFromAllQueues user2Id;;
  session ← createSession queueType user1Id user2Id;
  match session with
  | None => mret (failure "Failed to create session")
  | Some sid => mret (mkMatchResult true (Some sid) None None)
  end.

(** The timer callback reads the size of the queue and changes nothing:
    whoever waits keeps waiting. *)
Definition processQueue_post (t : SessionType) (w : World) : Prop :=
  processQueue t w = (tt, w).

(** [quickMatch u s t] for a newcomer [u] when the only user waiting in the
    queue of [t] is [userId p], with sidecar record [p], both are free, the
    lock is free and the database issues [sid]: the call succeeds with [sid]
    and [p]; the queue of [t] is empty and both sidecar records are gone; the
    session record of [sid] has the caller as first and the partner as second
    member and both reverse pointers name it; one match event is published;
    the lock is free again. *)
Definition quickMatch_paired (u s : string) (t : SessionType) (p : IQueueUser) (sid : string)
    (w : World) : Prop :=
  let res := (quickMatch u s t w).1 in
  let w' := (quickMatch u s t w).2 in
  res = mkMatchResult true (Some sid) (Some p) None ∧
  queueOf t w' = [] ∧
  userDataOf u w' = None ∧ userDataOf (userId p) w' = None ∧
  (∃ started, session (redis w') !! sid = Some (mkActiveSession sid t u (userId p) started)) ∧
  pointsTo u sid w' ∧ pointsTo (userId p) sid w' ∧
  published w' = published w ++ [mkMatchFound sid u (userId p) t] ∧
  locks (redis w') = locks (redis w).

(** [quickMatch u s t] for a newcomer [u] who joins behind everybody when
    nobody or more than one user is waiting in the queue of [t]: the call
    reports that [u] waits, [u] is the last entry of the queue with the time
    of the call as score, the entries before it are as they were, and no
    session is created and no match published. *)
Definition quickMatch_waits (u s : string) (t : SessionType) (w : World) : Prop :=
  let now := clock w (ticks w) in
  let res := (quickMatch u s t w).1 in
  let w' := (quickMatch u s t w).2 in
  res = failure "Waiting for match" ∧
  queueOf t w' = queueOf t w ++ [(u, now)] ∧
  userDataOf u w' = Some (mkQueueUser u s now) ∧
  session (redis w') = session (redis w) ∧
  session_user (redis w') = session_user (redis w) ∧
  published w' = published w ∧
  db_calls w' = db_calls w.

(** [matchWithFriend u f t] ends in the world [createSession t u f] ends
    in and reports its session id; it succeeds exactly when a session was
    created, names no partner record, and leaves the queues and the sidecar
    records alone. *)
Definition matchWithFriend_post (u f : string) (t : SessionType) (w : World) : Prop :=
  let res := (matchWithFriend u f t w).1 in
  let w' := (matchWithFriend u f t w).2 in
  w' = (createSession t u f w).2 ∧
  sessionId res = (createSession t u f w).1 ∧
  success res = bool_decide (is_Some (createSession t u f w).1) ∧
  partner res = None ∧
  waiting w' = waiting w ∧ queue_user (redis w') = queue_user (redis w).

(** [forceMatch u1 u2 t]: whether or not a session comes out of it, both
    users are in no queue and have no sidecar record afterwards; the session
    id reported is the one [createSession t u1 u2] gives in [w]. *)
Definition forceMatch_post (u1 u2 : string) (t : SessionType) (w : World) : Prop :=
  let res := (forceMatch u1 u2 t w).1 in
  let w' := (forceMatch u1 u2 t w).2 in
  inNoQueue u1 w' ∧ inNoQueue u2 w' ∧
  userDataOf u1 w' = None ∧ userDataOf u2 w' = None ∧
  sessionId res = (createSession t u1 u2 w).1 ∧
  success res = bool_decide (is_Some (createSession t u1 u2 w).1).

(** [getMatchingStatus u]: nothing changes; a user in no queue is reported
    as not queued; otherwise the first modality (video, audio, text) in which
    the user waits is reported, with the place of the user in that queue and
    five seconds of estimated wait per user ahead. *)
Definition getMatchingStatus_post (u : string) (w : World) : Prop :=
  let res := (getMatchingStatus u w).1 in
  (getMatchingStatus u w).2 = w ∧
  (inNoQueue u w → res = mkMatchingStatus false None None None) ∧
  (∀ t, (isUserInQueue u w).1 = Some t →
     ∃ n s, queueOf t w !! n = Some (u, s) ∧
       res = mkMatchingStatus true (Some t) (Some (S n)) (Some (5 * Z.of_nat n)%Z)).

(** The session keys, the database and the published events are the same
    in [w] and [w']. *)
Definition session_frame (w w' : World) : Prop :=
  session (redis w') = session (redis w) ∧
  session_user (redis w') = session_user (redis w) ∧
  db_create w' = db_create w ∧ db_end w' = db_end w ∧ db_calls w' = db_calls w ∧
  published w' = published w.

(** ** SocketManager and the handlers, continued *)

Definition isUserConnected (userId : string) : M bool :=
  gets (fun w =>
    match userSockets w !! userId with
    | Some s => bool_decide (0 < length s)%nat
    | None => false
    end).

Definition getUserCount : M nat :=
  gets (fun w => size (userSockets w)).

Definition onChatStopTyping (socket userId : string) : M unit :=
  partnerId ← getSessionPartner userId;
  match partnerId with
  | Some p =>
      if falsy partnerId then mret tt
      else emitToUser p CHAT_STOP_TYPING (UserPayload userId)
  | None => mret tt
  end.

(** The worlds [registerSocket] and [unregisterSocket] reach from an empty
    registry. *)
Inductive sock_reachable : World -> Prop :=
  | sock_boot clk dbc dbe : sock_reachable (boot clk dbc dbe)
  | sock_registerSocket w socket userId :
      sock_reachable w → sock_reachable (registerSocket socket userId w).2
  | sock_unregisterSocket w socket userId :
      sock_reachable w → sock_reachable (unregisterSocket socket userId w).2.

(** The users with a socket set are the users with a presence record, and
    no socket set is empty or lists a socket twice. *)
Definition sockets_wf (w : World) : Prop :=
  dom (userSockets w) = presence w ∧
  ∀ u l, userSockets w !! u = Some l → l ≠ [] ∧ NoDup l.

(** Presence follows the registry: the registry is consistent,
    [isUserConnected] answers what the presence record says, and
    [getUserCount] counts the users that are online. *)
Definition presence_tracks_sockets (w : World) : Prop :=
  sockets_wf w ∧
  (∀ u, (isUserConnected u w).1 = isOnline u w) ∧
  (getUserCount w).1 = size (presence w).

(** A socket that is registered and then unregistered: every user has the
    sockets it had, and its user is online exactly when other sockets are
    left. *)
Definition register_unregister_post (socket u : string) (w : World) : Prop :=
  let w' := (unregisterSocket socket u (registerSocket socket u w).2).2 in
  (∀ x, socketsOf x w' = socketsOf x w) ∧
  isOnline u w' = bool_decide (socketsOf u w ≠ []) ∧
  (∀ x, x ≠ u → isOnline x w' = isOnline x w).

(** [call:end] from [u]: a partner with a non-empty id is told on each of
    its sockets, nobody else is; then the session is ended for both when the
    database acknowledges, and kept when it does not.  Without a session
    nothing is sent and no record changes. *)
Definition onCallEnd_post (socket u : string) (w : World) : Prop :=
  let w' := (onCallEnd socket u w).2 in
  match (getSessionPartner u w).1 with
  | Some p =>
      outbox w' = outbox w ++
        (if bool_decide (p = "") then [] else fanout p CALL_END (UserPayload u) w) ∧
      if db_end w (db_calls w)
      then (isUserInSession u w').1 = false ∧ (isUserInSession p w').1 = false
      else redis w' = redis w
  | None => outbox w' = outbox w ∧ session (redis w') = session (redis w)
  end.

Inductive Typing := StartTyping | StopTyping.

Definition onTyping (k : Typing) (socket userId : string) : M unit :=
  match k with
  | StartTyping => onChatTyping socket userId
  | StopTyping => onChatStopTyping socket userId
  end.

Definition typingEvent (k : Typing) : WSEvents :=
  match k with
  | StartTyping => CHAT_TYPING
  | StopTyping => CHAT_STOP_TYPING
  end.

(** A typing indicator goes to every socket of the partner with the id of
    the sender, and to nobody without a partner; the sender never gets an
    answer; the store is what the partner lookup left. *)
Definition typing_rule (k : Typing) (socket userId : string) (w : World) : Prop :=
  let w' := (onTyping k socket userId w).2 in
  let partnerId := (getSessionPartner userId w).1 in
  outbox w' = outbox w ++
    (if falsy partnerId then []
     else fanout (default "" partnerId) (typingEvent k) (UserPayload userId) w) ∧
  redis w' = redis (getActiveSession userId w).2 ∧
  metrics w' = metrics w.


(** ** LoadBalancer, continued *)

(** The record scanned at place [i] passes the test of
    [getHealthyInstances]: it is flagged healthy and, at the clock reading
    made for it, its heartbeat is less than 30 s old. *)
Definition passes (w : World) (i : nat) (instance : LoadBalancer.IServerInstance) : bool :=
  bool_decide (clock w (ticks w + i) - LoadBalancer.lastHeartbeat instance < 30000)
  && LoadBalancer.isHealthy instance.

(** [getHealthyInstances] returns, in the order of the scan, the records
    that pass and no other, and reads the clock once per record. *)
Definition healthy_rule (scan : list LoadBalancer.IServerInstance) (w : World) : Prop :=
  let l := LoadBalancer.healthyOf scan w in
  sublist l scan ∧
  (∀ x, x ∈ l → ∃ i, scan !! i = Some x ∧ passes w i x = true) ∧
  (∀ i x, scan !! i = Some x → passes w i x = true → x ∈ l) ∧
  ticks (LoadBalancer.getHealthyInstances scan w).2 = (ticks w + length scan)%nat.

(** [getLeastLoadedInstance] returns a scanned record that passes the
    health test, and nothing exactly when no scanned record passes. *)
Definition least_loaded_healthy (scan : list LoadBalancer.IServerInstance) (w : World) : Prop :=
  match (LoadBalancer.getLeastLoadedInstance scan w).1 with
  | Some (r, _) => ∃ i, scan !! i = Some r ∧ passes w i r = true
  | None => ∀ i x, scan !! i = Some x → passes w i x = false
  end.

(* ===================================================================== *)
(** * Part II.  Properties                                                *)
(* ===================================================================== *)

(** ** Sorted sets and the store *)

Lemma zget_zput_eq k z r : zget k (zput k z r) = z.
Proof. by destruct k. Qed.

Lemma zget_zput_ne k k' z r : k' ≠ k → zget k' (zput k z r) = zget k' r.
Proof. by destruct k, k'. Qed.

Lemma zput_zget k r : zput k (zget k r) r = r.
Proof. by destruct k, r. Qed.

Lemma getQueueKey_inj t t' : getQueueKey t = getQueueKey t' → t = t'.
Proof. by destruct t, t'. Qed.

Lemma zscore_list_None m z : zscore_list m z = None ↔ m ∉ members z.
Proof.
  induction z as [|[x s] z IH]; simpl.
  - split; [intros _; apply not_elem_of_nil | done].
  - case_bool_decide as Hx.
    + subst. split; [done | intros H; exfalso; apply H; left].
    + rewrite IH, not_elem_of_cons. intuition congruence.
Qed.

Lemma zscore_list_zrem m ms z :
  zscore_list m (zrem_list ms z) = if bool_decide (m ∈ ms) then None else zscore_list m z.
Proof.
  induction z as [|[x s] z IH]; simpl; [by case_bool_decide|].
  destruct (bool_decide (x ∈ ms)) eqn:Hx; simpl; rewrite IH.
  - apply bool_decide_eq_true in Hx.
    destruct (bool_decide (m ∈ ms)) eqn:Hm; [done|].
    apply bool_decide_eq_false in Hm.
    rewrite bool_decide_eq_false_2; [done | congruence].
  - apply bool_decide_eq_false in Hx.
    destruct (bool_decide (x = m)) eqn:Hxm; [|done].
    apply bool_decide_eq_true in Hxm. subst x.
    by rewrite bool_decide_eq_false_2.
Qed.

Lemma zscore_list_zinsert_ne m x s z :
  x ≠ m → zscore_list m (zinsert (x, s) z) = zscore_list m z.
Proof.
  intros Hne. induction z as [|[y t] z IH]; simpl.
  - by rewrite bool_decide_eq_false_2.
  - destruct (entry_leb (x, s) (y, t)); simpl.
    + by rewrite (bool_decide_eq_false_2 (x = m)).
    + by rewrite IH.
Qed.

Lemma zscore_list_zinsert_eq m s z :
  zscore_list m z = None → zscore_list m (zinsert (m, s) z) = Some s.
Proof.
  induction z as [|[y t] z IH]; simpl.
  - by rewrite bool_decide_eq_true_2.
  - case_bool_decide as Hy; [done|]. intros Hz.
    destruct (entry_leb (m, s) (y, t)); simpl.
    + by rewrite bool_decide_eq_true_2.
    + rewrite (bool_decide_eq_false_2 _ Hy). auto.
Qed.

Lemma zscore_list_zadd_eq m s z : zscore_list m (zadd_list s m z) = Some s.
Proof.
  unfold zadd_list. apply zscore_list_zinsert_eq.
  rewrite zscore_list_zrem, bool_decide_eq_true_2; [done|].
  by apply list_elem_of_singleton.
Qed.

Lemma zscore_list_zadd_ne m x s z :
  x ≠ m → zscore_list m (zadd_list s x z) = zscore_list m z.
Proof.
  intros Hne. unfold zadd_list. rewrite zscore_list_zinsert_ne by done.
  rewrite zscore_list_zrem, bool_decide_eq_false_2; [done|].
  rewrite list_elem_of_singleton. congruence.
Qed.

Lemma zrem_list_absent m z : zscore_list m z = None → zrem_list [m] z = z.
Proof.
  unfold zrem_list. induction z as [|[x s] z IH]; simpl; [done|].
  case_bool_decide as Hx; [done|]. intros Hz.
  rewrite bool_decide_eq_false_2; simpl.
  - by rewrite IH.
  - rewrite list_elem_of_singleton. congruence.
Qed.

Lemma zrange01_cons2 e0 e1 z : zrange01 (e0 :: e1 :: z) = [e0.1; e1.1].
Proof. done. Qed.

Lemma zget_set_queue_user k f r : zget k (set_queue_user f r) = zget k r.
Proof. by destruct k. Qed.

Lemma zget_set_locks k f r : zget k (set_locks f r) = zget k r.
Proof. by destruct k. Qed.

Lemma zget_set_session k f r : zget k (set_session f r) = zget k r.
Proof. by destruct k. Qed.

Lemma zget_set_session_user k f r : zget k (set_session_user f r) = zget k r.
Proof. by destruct k. Qed.

Lemma queue_user_zput k z r : queue_user (zput k z r) = queue_user r.
Proof. by destruct k. Qed.

Lemma session_zput k z r : session (zput k z r) = session r.
Proof. by destruct k. Qed.

Lemma session_user_zput k z r : session_user (zput k z r) = session_user r.
Proof. by destruct k. Qed.

Arguments zrem_list : simpl never.
Arguments zadd_list : simpl never.

Lemma zrem_list_cons_eq m s z : zrem_list [m] ((m, s) :: z) = zrem_list [m] z.
Proof. unfold zrem_list. simpl. by rewrite bool_decide_eq_true_2 by left. Qed.

Lemma zrem_list_cons_ne m x s z :
  x ≠ m → zrem_list [m] ((x, s) :: z) = (x, s) :: zrem_list [m] z.
Proof.
  intros Hne. unfold zrem_list. simpl.
  by rewrite bool_decide_eq_false_2 by (rewrite list_elem_of_singleton; congruence).
Qed.

Lemma zrem_list_zinsert m s z :
  zscore_list m z = None → zrem_list [m] (zinsert (m, s) z) = z.
Proof.
  induction z as [|[x sc] z IH]; simpl.
  - intros _. apply zrem_list_cons_eq.
  - case_bool_decide as Hx; [done|]. intros Hz.
    destruct (entry_leb (m, s) (x, sc)).
    + rewrite zrem_list_cons_eq. by apply zrem_list_absent; simpl; rewrite bool_decide_eq_false_2.
    + rewrite zrem_list_cons_ne by done. by rewrite IH.
Qed.

Create Rewrite HintDb store.

#[local] Hint Rewrite zget_zput_eq zget_set_queue_user zget_set_locks zget_set_session
  zget_set_session_user queue_user_zput session_zput session_user_zput : store.

(** ** QueueManager *)

(** Unfolds the binds of a method body down to the store commands. *)
Ltac run_M :=
  unfold mbind, M_bind, mret, M_ret, gets, modify, Date_now, zscore, zadd, zrem,
    zrange_0_1, zcard, zrank, track, publish, emit, getQueueSize, getUserData in *;
  simpl in *.

Lemma addToQueue_eq u s m w :
  addToQueue u s m w =
    let k := getQueueKey m in
    let now := clock w (ticks w) in
    match zscore_list u (zget k (redis w)) with
    | Some _ => (false, tick w)
    | None =>
        let z' := zadd_list now u (zget k (redis w)) in
        (true,
         with_metrics (fun l => l ++ [updateQueueSize m (length z'); trackQueueJoin m])
           (with_redis
              (fun r => zput k z' (set_queue_user <[userDataKey u := mkQueueUser u s now]> r))
              (tick w)))
    end.
Proof.
  unfold addToQueue. run_M.
  destruct (zscore_list u (zget (getQueueKey m) (redis w))) eqn:Hz; [done|].
  f_equal. unfold with_metrics, with_redis; simpl.
  by rewrite zget_zput_eq, zget_set_queue_user, <- app_assoc.
Qed.

Lemma removeFromQueue_redis u m w :
  redis (removeFromQueue u m w).2 =
    set_queue_user (delete (userDataKey u))
      (zput (getQueueKey m) (zrem_list [u] (zget (getQueueKey m) (redis w))) (redis w)).
Proof.
  unfold removeFromQueue. run_M.
  by destruct (queue_user (redis w) !! userDataKey u).
Qed.

Lemma removeFromQueue_result u m w :
  (removeFromQueue u m w).1 =
    bool_decide (0 < length (zget (getQueueKey m) (redis w))
                     - length (zrem_list [u] (zget (getQueueKey m) (redis w))))%nat.
Proof.
  unfold removeFromQueue. run_M.
  by destruct (queue_user (redis w) !! userDataKey u).
Qed.

(** A removal touches the queue it is asked for and no other. *)
Lemma removeFromQueue_other_queue u t t' w :
  t' ≠ t → queueOf t' (removeFromQueue u t w).2 = queueOf t' w.
Proof.
  intros Hne. unfold queueOf. rewrite removeFromQueue_redis.
  autorewrite with store. apply zget_zput_ne.
  by intros ?%getQueueKey_inj.
Qed.

(** [addToQueue] followed by [removeFromQueue] leaves the queue as it was. *)
Lemma addToQueue_removeFromQueue u s t w :
  scoreIn t u w = None →
  queueOf t (removeFromQueue u t (addToQueue u s t w).2).2 = queueOf t w.
Proof.
  intros Hu. unfold queueOf. rewrite removeFromQueue_redis, addToQueue_eq. cbv zeta.
  unfold scoreIn, queueOf in Hu. rewrite Hu. cbn [snd redis with_redis with_metrics tick].
  autorewrite with store. unfold zadd_list.
  rewrite (zrem_list_absent u _ Hu). by apply zrem_list_zinsert.
Qed.

Lemma findMatch_eq u t w :
  findMatch u t w =
  if bool_decide (t ∈ locks (redis w)) then (None, w)
  else
    let w1 := with_redis (set_locks (cons t)) w in
    match queueOf t w with
    | (u0, _) :: (u1, _) :: _ =>
        if bool_decide (u ∈ [u0; u1]) then
          let partnerId := if bool_decide (u0 = u) then u1 else u0 in
          let z' := zrem_list [u0; u1] (queueOf t w) in
          let w2 := unlocked t (with_redis (zput (getQueueKey t) z') w1) in
          match userDataOf partnerId w with
          | Some p =>
              (Some p,
               with_metrics
                 (fun l => l ++ [updateQueueSize t (length z'); trackQueueLeave t "matched"]) w2)
          | None => (None, (addToQueue u "" t w2).2)
          end
        else (None, unlocked t w1)
    | _ => (None, unlocked t w1)
    end.
Proof.
  unfold findMatch, acquireLock, releaseLock, unlocked, queueOf, userDataOf. run_M.
  case_bool_decide as Hlock; simpl; [reflexivity|].
  rewrite zget_set_locks.
  destruct (zget (getQueueKey t) (redis w)) as [|[u0 s0] [|[u1 s1] z]] eqn:Hz;
    try reflexivity.
  rewrite zrange01_cons2. cbn [fst negb].
  case_bool_decide as Hin; cbn [negb]; [|reflexivity].
  cbn [redis with_redis]. rewrite queue_user_zput, zget_set_locks, Hz.
  cbn [queue_user set_locks].
  destruct (queue_user (redis w) !! userDataKey (if bool_decide (u0 = u) then u1 else u0)) eqn:Hp.
  - f_equal. unfold with_metrics, with_redis;
      cbn [metrics redis presence userSockets activeConnections published outbox
           clock ticks db_create db_end db_calls].
    by rewrite <- app_assoc, zget_set_locks, zget_zput_eq.
  - by destruct (addToQueue u "" t _).
Qed.

Lemma elem_of_pair (x a b : string) : x ∈ [a; b] ↔ x = a ∨ x = b.
Proof. rewrite !elem_of_cons, elem_of_nil. tauto. Qed.

(** C1, as amended.  [findMatch] either extracts nothing (null, waiting
    entries unchanged), or extracts the two oldest entries and returns the
    partner, or - when the sidecar record of the partner is missing - removes
    the entry of the partner, puts the caller back with a new score and
    returns null. *)
Theorem findMatch_outcomes u t w :
  NoDup (members (queueOf t w)) → findMatch_post u t w.
Proof.
  intros Hnd. unfold findMatch_post. cbv zeta. rewrite findMatch_eq.
  case_bool_decide as Hlock; [split; [done | by left]|].
  cbv zeta.
  destruct (queueOf t w) as [|[u0 s0] [|[u1 s1] z]] eqn:Hz.
  1,2: split; [intros; unfold queueOf, unlocked; simpl; by rewrite !zget_set_locks | by left].
  case_bool_decide as Hin.
  2: split; [intros; unfold queueOf, unlocked; simpl; by rewrite !zget_set_locks | by left].
  assert (Hne : u0 ≠ u1).
  { simpl in Hnd. apply NoDup_cons in Hnd as [Hnd _]. intros ->. apply Hnd. left. }
  set (z' := zrem_list [u0; u1] ((u0, s0) :: (u1, s1) :: z)).
  set (w2 := unlocked t _).
  assert (Hq2 : queueOf t w2 = z').
  { unfold queueOf, w2, unlocked. simpl. by rewrite zget_set_locks, zget_zput_eq. }
  assert (Hother : ∀ t', t' ≠ t → queueOf t' w2 = queueOf t' w).
  { intros t' Ht'. unfold queueOf, w2, unlocked. simpl.
    rewrite zget_set_locks, zget_zput_ne, zget_set_locks; [done|].
    by intros ?%getQueueKey_inj. }
  assert (Hz' : ∀ x, zscore_list x z' = if bool_decide (x ∈ [u0; u1]) then None else scoreIn t x w).
  { intros x. unfold z', scoreIn. by rewrite zscore_list_zrem, Hz. }
  destruct (userDataOf (if bool_decide (u0 = u) then u1 else u0) w) as [p|] eqn:Hp.
  - split; [intros t' Ht'; apply (Hother t' Ht')|].
    right; left. exists u0, u1. cbn [fst snd].
    unfold scoreIn. change (queueOf t (with_metrics ?f w2)) with (queueOf t w2).
    rewrite Hq2, !Hz'.
    repeat split; try done.
    + rewrite bool_decide_eq_true_2; [done | left].
    + rewrite bool_decide_eq_true_2; [done | right; left].
    + intros x Hx0 Hx1. rewrite Hz', bool_decide_eq_false_2; [done|].
      rewrite elem_of_pair. tauto.
  - cbn [fst snd]. rewrite addToQueue_eq. cbv zeta.
    fold (queueOf t w2). rewrite Hq2, Hz', (bool_decide_eq_true_2 _ Hin).
    cbn [snd].
    set (w3 := with_metrics _ _).
    assert (Hq3 : queueOf t w3 = zadd_list (clock w (ticks w)) u z').
    { unfold queueOf, w3. simpl. by rewrite zget_zput_eq. }
    assert (Hother3 : ∀ t', t' ≠ t → queueOf t' w3 = queueOf t' w).
    { intros t' Ht'. rewrite <- (Hother t' Ht'). unfold queueOf, w3. simpl.
      rewrite zget_zput_ne, zget_set_queue_user; [done|].
      by intros ?%getQueueKey_inj. }
    split; [done|].
    right; right.
    exists (if bool_decide (u0 = u) then u1 else u0).
    assert (Hpu : (if bool_decide (u0 = u) then u1 else u0) ≠ u).
    { case_bool_decide; congruence. }
    assert (Hpin : (if bool_decide (u0 = u) then u1 else u0) ∈ [u0; u1]).
    { case_bool_decide; [right; left | left]. }
    unfold scoreIn. rewrite Hq3.
    split_and!; try done.
    + rewrite zrange01_cons2. cbn [fst].
      case_bool_decide as H0; [left; by subst|].
      right. apply elem_of_pair in Hin as [->| ->]; done.
    + rewrite zscore_list_zadd_ne by done.
      by rewrite Hz', (bool_decide_eq_true_2 _ Hpin).
    + apply zscore_list_zadd_eq.
    + unfold userDataOf, w3. simpl. rewrite queue_user_zput. simpl.
      by rewrite lookup_insert_eq.
    + intros x Hxu Hxp. rewrite zscore_list_zadd_ne by done.
      rewrite Hz', bool_decide_eq_false_2; [done|].
      intros Hx. apply Hxp. apply elem_of_pair in Hx, Hin.
      case_bool_decide; destruct Hx, Hin; congruence.
Qed.

Lemma findMatch_outcomes_witness :
  NoDup (members (queueOf AUDIO world_orphaned_entry))
  ∧ findMatch_post "u2" AUDIO world_orphaned_entry.
Proof.
  assert (H : NoDup (members (queueOf AUDIO world_orphaned_entry))).
  { apply (bool_decide_unpack _). by vm_compute. }
  split; [exact H | exact (findMatch_outcomes "u2" AUDIO world_orphaned_entry H)].
Defined.

(** C1, as stated, fails: [u1] waits in the audio queue without a sidecar
    record, [u2] joins and asks for a match; the entry of [u1] is removed,
    [u2] stays in the queue and no partner is returned. *)
Lemma findMatch_leaves_one_of_two :
  ¬ pair_both_or_neither "u2" AUDIO world_orphaned_entry.
Proof.
  unfold pair_both_or_neither. vm_compute.
  intros [[[x Hx] _] | H]; discriminate.
Qed.

(** C2, as amended.  For a user [u] waiting in modality [m1], [addToQueue]
    for modality [m2] returns false and leaves the store alone exactly when
    [u] has an entry in the queue of [m2] itself (in particular when
    [m2 = m1]); when [u] has no entry there the call returns true and inserts
    [u] with the current time as score, the entry in [m1] staying where it
    is. *)
Theorem addToQueue_guard_is_per_queue u s m1 m2 w :
  is_Some (scoreIn m1 u w) → addToQueue_post u s m1 m2 w.
Proof.
  intros Hm1. unfold addToQueue_post. cbv zeta. rewrite addToQueue_eq. cbv zeta.
  fold (queueOf m2 w). fold (scoreIn m2 u w).
  destruct (scoreIn m2 u w) as [sc|] eqn:Hm2; cbn [fst snd].
  - split; [done|]. intros [=].
  - split; [by intros [? [=]]|]. intros _.
    unfold scoreIn, queueOf, userDataOf. simpl.
    rewrite zget_zput_eq, queue_user_zput. simpl.
    split_and!; [done | apply zscore_list_zadd_eq | | by rewrite lookup_insert_eq].
    destruct (decide (m1 = m2)) as [->|Hne].
    + exfalso. rewrite Hm2 in Hm1. by destruct Hm1.
    + rewrite zget_zput_ne, zget_set_queue_user; [done|].
      by intros ?%getQueueKey_inj.
Qed.

Lemma addToQueue_guard_is_per_queue_witness :
  is_Some (scoreIn VIDEO "u1" world_one_waiting)
  ∧ addToQueue_post "u1" "s1" VIDEO AUDIO world_one_waiting.
Proof.
  assert (H : is_Some (scoreIn VIDEO "u1" world_one_waiting)).
  { vm_compute. by eexists. }
  split; [exact H | exact (addToQueue_guard_is_per_queue "u1" "s1" VIDEO AUDIO _ H)].
Defined.

(** C2, as stated, fails: [u1] waits in the video queue and is accepted
    into the audio queue as well. *)
Lemma addToQueue_accepts_second_modality :
  ¬ enqueue_refused "u1" "s1" VIDEO AUDIO world_one_waiting.
Proof.
  unfold enqueue_refused. intros H.
  assert (Hin : is_Some (scoreIn VIDEO "u1" world_one_waiting)).
  { vm_compute. by eexists. }
  destruct (H Hin) as [Hres _]. vm_compute in Hres. discriminate.
Qed.

(** After the second call the user is in two queues at once. *)
Lemma addToQueue_two_queues :
  let w := (addToQueue "u1" "s1" AUDIO world_one_waiting).2 in
  is_Some (scoreIn VIDEO "u1" w) ∧ is_Some (scoreIn AUDIO "u1" w).
Proof. vm_compute. split; by eexists. Qed.

(** C10.  The sidecar record lives under the video prefix whatever the
    modality of the queue, so for two different modalities [m] and [m']:
    after [u] has joined the queue of [m], [getUserData] finds the record
    under [(QUEUE_VIDEO, u)]; a [removeFromQueue u m'] then deletes that
    record although the entry of [u] in the queue of [m] stays, and it does so
    even when [u] has no entry in [m'] (the call then returns false). *)
Theorem removeFromQueue_destroys_shared_sidecar u s m m' w :
  m ≠ m' → scoreIn m u w = None → shared_sidecar_post u s m m' w.
Proof.
  intros Hne Hm. unfold shared_sidecar_post. cbv zeta.
  rewrite removeFromQueue_result, addToQueue_eq. cbv zeta.
  fold (queueOf m w). fold (scoreIn m u w). rewrite Hm. cbn [snd].
  unfold getUserData, gets, scoreIn, queueOf. cbn [fst].
  rewrite removeFromQueue_redis. cbn [redis with_redis with_metrics tick].
  rewrite !queue_user_zput, !zget_set_queue_user. cbn [queue_user set_queue_user].
  rewrite (zget_zput_ne (getQueueKey m') (getQueueKey m)) by (by intros ?%getQueueKey_inj).
  rewrite zget_zput_eq.
  rewrite (zget_zput_ne (getQueueKey m) (getQueueKey m')) by (intros ?%getQueueKey_inj; congruence).
  rewrite zget_set_queue_user.
  unfold userDataKey. rewrite lookup_insert_eq, lookup_delete_eq.
  split_and!; try done.
  - apply zscore_list_zadd_eq.
  - intros Hm'. rewrite zrem_list_absent by done.
    rewrite bool_decide_eq_false_2; [done | lia].
Qed.

Lemma removeFromQueue_destroys_shared_sidecar_witness :
  AUDIO ≠ VIDEO ∧ scoreIn AUDIO "u1" (world0 []) = None
  ∧ shared_sidecar_post "u1" "s1" AUDIO VIDEO (world0 []).
Proof.
  assert (H1 : AUDIO ≠ VIDEO) by discriminate.
  assert (H2 : scoreIn AUDIO "u1" (world0 []) = None) by reflexivity.
  split_and!; [exact H1 | exact H2 |].
  exact (removeFromQueue_destroys_shared_sidecar "u1" "s1" AUDIO VIDEO _ H1 H2).
Defined.

(** Whatever the world and the modality, [removeFromQueue] leaves no sidecar
    record of the user behind. *)
Lemma removeFromQueue_always_deletes_sidecar u m w :
  userDataOf u (removeFromQueue u m w).2 = None.
Proof.
  unfold userDataOf. rewrite removeFromQueue_redis. simpl.
  apply lookup_delete_eq.
Qed.

(** ** SessionManager *)

Lemma getActiveSession_eq u w :
  getActiveSession u w =
    match session_user (redis w) !! u with
    | Some sid =>
        if bool_decide (sid = "") then (None, w)
        else
          match session (redis w) !! sid with
          | Some d => (Some d, w)
          | None => (None, with_redis (set_session_user (delete u)) w)
          end
    | None => (None, w)
    end.
Proof.
  unfold getActiveSession. run_M.
  destruct (session_user (redis w) !! u) as [sid|]; [|done].
  unfold falsy. case_bool_decide; [done|].
  by destruct (session (redis w) !! sid).
Qed.

Lemma endSession_eq sid status w :
  endSession sid status w =
    match session (redis w) !! sid with
    | None => (false, w)
    | Some d =>
        let now := clock w (ticks w) in
        let w1 := db_called (tick w) in
        if db_end w (db_calls w) then
          (true,
           with_metrics
             (fun l => l ++ [trackSessionEnd (sessionType d) (endReason status)
                               (inject_Z (now - startedAt d) / 1000)%Q])
             (with_redis
                (fun r => set_session_user (delete (user2Id d))
                            (set_session_user (delete (user1Id d))
                               (set_session (delete sid) r))) w1))
        else (false, w1)
    end.
Proof.
  unfold endSession, getSessionById, Session_endSession. run_M.
  destruct (session (redis w) !! sid) as [d|]; [|done].
  by destruct (db_end w (db_calls w)).
Qed.

(** C5.  For a session with a record in the store whose update the database
    acknowledges, the first [endSession] returns true and removes the record
    with both reverse pointers; every later call, from any world with the
    store it left, returns false and does not change the store. *)
Theorem endSession_idempotent sid status d w :
  session (redis w) !! sid = Some d →
  db_end w (db_calls w) = true →
  endSession_post sid status d w.
Proof.
  intros Hd Hdb. unfold endSession_post. cbv zeta.
  rewrite endSession_eq, Hd. cbv zeta. rewrite Hdb. cbn [fst snd].
  cbn [redis with_metrics with_redis session session_user set_session set_session_user
       db_called tick].
  assert (Hgone : delete sid (session (redis w)) !! sid = None) by apply lookup_delete_eq.
  split_and!; [done | done | | apply lookup_delete_eq |].
  - destruct (decide (user2Id d = user1Id d)) as [->|Hne].
    + apply lookup_delete_eq.
    + rewrite lookup_delete_ne by done. apply lookup_delete_eq.
  - intros status' w2 Hw2. rewrite endSession_eq, Hw2.
    cbn [redis with_redis session set_session set_session_user db_called tick].
    by rewrite Hgone.
Qed.

Lemma endSession_idempotent_witness :
  let d := mkActiveSession "s1" VIDEO "a" "b" 0 in
  session (redis world_in_session) !! "s1" = Some d
  ∧ db_end world_in_session (db_calls world_in_session) = true
  ∧ endSession_post "s1" ENDED d world_in_session.
Proof.
  intros d.
  assert (H1 : session (redis world_in_session) !! "s1" = Some d) by (by vm_compute).
  assert (H2 : db_end world_in_session (db_calls world_in_session) = true) by reflexivity.
  split_and!; [exact H1 | exact H2 |].
  exact (endSession_idempotent "s1" ENDED d world_in_session H1 H2).
Defined.

Lemma createSession_eq t a b w :
  createSession t a b w =
    let w1 := (getActiveSession a w).2 in
    let w2 := (getActiveSession b w1).2 in
    if bool_decide (is_Some (getActiveSession a w).1)
       || bool_decide (is_Some (getActiveSession b w1).1)
    then (None, w2)
    else
      match db_create w2 (db_calls w2) with
      | None => (None, db_called w2)
      | Some sid => (Some sid, sessionWritten t a b sid (db_called w2))
      end.
Proof.
  unfold createSession, Session_create, sessionWritten. run_M.
  destruct (getActiveSession a w) as [s1 w1]. simpl.
  destruct (getActiveSession b w1) as [s2 w2]. simpl.
  destruct (bool_decide (is_Some s1) || bool_decide (is_Some s2)); [done|].
  by destruct (db_create w2 (db_calls w2)).
Qed.

(** A successful [createSession] leaves the record and both reverse
    pointers in the store. *)
Lemma createSession_writes_record_and_pointers t a b sid w :
  (createSession t a b w).1 = Some sid →
  let w' := (createSession t a b w).2 in
  (∃ d, session (redis w') !! sid = Some d ∧ user1Id d = a ∧ user2Id d = b) ∧
  pointsTo a sid w' ∧ pointsTo b sid w'.
Proof.
  cbv zeta. rewrite createSession_eq. cbv zeta.
  destruct (bool_decide _ || bool_decide _); [done|].
  destruct (db_create _ _) as [sid'|]; [|done]. cbn [fst snd]. intros [= ->].
  unfold pointsTo, sessionWritten. simpl. split_and!.
  - eexists. by rewrite lookup_insert_eq.
  - destruct (decide (b = a)) as [->|Hne].
    + by rewrite lookup_insert_eq.
    + rewrite lookup_insert_ne by done. by rewrite lookup_insert_eq.
  - by rewrite lookup_insert_eq.
Qed.

(** *** The reverse pointers

    The environment is fixed: a clock, and a database whose ids are fresh. *)

Section SessionInvariant.

Variable clk : nat -> Z.
Variable dbc : nat -> option string.
Variable dbe : nat -> bool.
Hypothesis dbc_fresh : fresh_ids dbc.

Lemma getActiveSession_inv h u w :
  sm_inv dbc h w →
  getActiveSession u w =
    (match session_user (redis w) !! u with
     | Some sid => session (redis w) !! sid
     | None => None
     end, w).
Proof.
  intros Hinv. rewrite getActiveSession_eq.
  destruct (session_user (redis w) !! u) as [sid|] eqn:Hu; [|done].
  destruct (inv_pointer _ _ _ Hinv u sid Hu) as (d & Hd & _).
  destruct (inv_record _ _ _ Hinv sid d Hd) as (Hne & _).
  rewrite bool_decide_eq_false_2 by done. by rewrite Hd.
Qed.

Lemma getActiveSession_None_inv h u w :
  sm_inv dbc h w →
  (getActiveSession u w).1 = None → session_user (redis w) !! u = None.
Proof.
  intros Hinv. rewrite (getActiveSession_inv h) by done. cbn [fst].
  destruct (session_user (redis w) !! u) as [sid|] eqn:Hu; [|done].
  destruct (inv_pointer _ _ _ Hinv u sid Hu) as (d & Hd & _).
  by rewrite Hd.
Qed.

Lemma createSession_inv h t a b w :
  sm_inv dbc h w →
  sm_inv dbc (h ++ created t a b w) (createSession t a b w).2.
Proof.
  intros Hinv. destruct dbc_fresh as [Hinj Hnonempty]. unfold created. rewrite createSession_eq. cbv zeta.
  pose proof (getActiveSession_None_inv h a w Hinv) as Ha.
  pose proof (getActiveSession_None_inv h b w Hinv) as Hb.
  rewrite (getActiveSession_inv h a w Hinv) in *. cbn [fst snd] in *.
  rewrite (getActiveSession_inv h b w Hinv) in *. cbn [fst snd] in *.
  destruct (bool_decide _ || bool_decide _) eqn:Hact; cbn [fst snd].
  { by rewrite app_nil_r. }
  apply orb_false_iff in Hact as [Ha' Hb'].
  apply bool_decide_eq_false in Ha', Hb'.
  assert (HaN : session_user (redis w) !! a = None).
  { apply Ha. destruct (match session_user (redis w) !! a with Some _ => _ | None => _ end); [|done].
    exfalso. apply Ha'. by eexists. }
  assert (HbN : session_user (redis w) !! b = None).
  { apply Hb. destruct (match session_user (redis w) !! b with Some _ => _ | None => _ end); [|done].
    exfalso. apply Hb'. by eexists. }
  clear Ha Hb Ha' Hb'.
  destruct Hinv as [Hdb Hrec Hptr Hhist]. rewrite Hdb.
  destruct (dbc (db_calls w)) as [sid|] eqn:Hsid; cbn [fst snd].
  - (* a session is written *)
    assert (Hfresh : session (redis w) !! sid = None).
    { destruct (session (redis w) !! sid) as [d|] eqn:Hd; [|done].
      destruct (Hrec sid d Hd) as (_ & (i & Hi & Hdi) & _).
      pose proof (Hinj _ _ _ Hdi Hsid). lia. }
    assert (Hnoptr : ∀ u, ¬ pointsTo u sid w).
    { intros u Hu. destruct (Hptr u sid Hu) as (d & Hd & _). congruence. }
    unfold sessionWritten, pointsTo in *.
    split; unfold pointsTo;
      cbn [db_create db_calls redis with_metrics with_redis tick db_called
           session session_user set_session set_session_user].
    + done.
    + intros sid' d'. rewrite lookup_insert. case_decide as Hs.
      * intros [= <-]. subst sid'. cbn [user1Id user2Id].
        split_and!.
        -- intros ->. by apply (Hnonempty (db_calls w)).
        -- exists (db_calls w). split; [lia | done].
        -- destruct (decide (b = a)) as [->|Hne].
           ++ by rewrite lookup_insert_eq.
           ++ rewrite lookup_insert_ne by done. by rewrite lookup_insert_eq.
        -- by rewrite lookup_insert_eq.
      * intros Hd'. destruct (Hrec sid' d' Hd') as (Hne & (i & Hi & Hdi) & Hp1 & Hp2).
        split_and!; [done | exists i; split; [lia | done] | |].
        -- rewrite !lookup_insert_ne; [done | congruence | congruence].
        -- rewrite !lookup_insert_ne; [done | congruence | congruence].
    + intros u sid'. rewrite !lookup_insert.
      case_decide as Hub; [intros [= <-]; subst u|].
      { exists (mkActiveSession sid t a b (clock w (ticks w))).
        rewrite decide_True by done. split; [done | by right]. }
      case_decide as Hua; [intros [= <-]; subst u|].
      { exists (mkActiveSession sid t a b (clock w (ticks w))).
        rewrite decide_True by done. split; [done | by left]. }
      intros Hu. destruct (Hptr u sid' Hu) as (d & Hd & Hmem).
      exists d. rewrite decide_False; [done|]. intros <-. congruence.
    + intros sid' a' b' Hin. apply elem_of_app in Hin as [Hin|Hin].
      * destruct (Hhist sid' a' b' Hin) as ((i & Hi & Hdi) & Hd).
        split; [exists i; split; [lia | done]|].
        intros d'. rewrite lookup_insert_ne; [apply Hd|].
        intros <-. pose proof (Hinj _ _ _ Hdi Hsid). lia.
      * apply list_elem_of_singleton in Hin as [= -> -> ->].
        split; [exists (db_calls w); split; [lia | done]|].
        intros d'. rewrite lookup_insert_eq. by intros [= <-].
  - (* the database refuses *)
    rewrite app_nil_r. split; unfold pointsTo; cbn [db_create db_calls redis db_called];
      [done | | done |].
    + intros sid d Hd. destruct (Hrec sid d Hd) as (Hne & (i & Hi & Hdi) & Hp).
      split_and!; [done | exists i; split; [lia | done] | apply Hp | apply Hp].
    + intros sid a' b' Hin. destruct (Hhist sid a' b' Hin) as ((i & Hi & Hdi) & Hd).
      split; [exists i; split; [lia | done] | done].
Qed.

Lemma boot_inv : sm_inv dbc [] (boot clk dbc dbe).
Proof.
  split; unfold pointsTo; simpl.
  - done.
  - intros sid d. by rewrite lookup_empty.
  - intros u sid. by rewrite lookup_empty.
  - intros sid a b Hin. by apply elem_of_nil in Hin.
Qed.

Lemma getActiveSession_preserves h u w :
  sm_inv dbc h w → sm_inv dbc h (getActiveSession u w).2.
Proof. intros Hinv. by rewrite (getActiveSession_inv h u w Hinv). Qed.

Lemma endSession_inv h sid status w :
  sm_inv dbc h w → sm_inv dbc h (endSession sid status w).2.
Proof.
  intros Hinv. rewrite endSession_eq.
  destruct (session (redis w) !! sid) as [d|] eqn:Hd; [|done].
  destruct Hinv as [Hdb Hrec Hptr Hhist]. cbv zeta.
  destruct (db_end w (db_calls w)).
  - destruct (Hrec sid d Hd) as (_ & _ & Hp1 & Hp2).
    split; unfold pointsTo in *;
      cbn [fst snd db_create db_calls redis with_metrics with_redis tick db_called
           session session_user set_session set_session_user].
    + done.
    + intros sid' d'. rewrite lookup_delete. case_decide as Hs; [done|].
      intros Hd'. destruct (Hrec sid' d' Hd') as (Hne & (i & Hi & Hdi) & Hq1 & Hq2).
      split_and!; [done | exists i; split; [lia | done] | |].
      * rewrite !lookup_delete_ne; [done | congruence | congruence].
      * rewrite !lookup_delete_ne; [done | congruence | congruence].
    + intros u sid'. rewrite !lookup_delete.
      case_decide; [done|]. case_decide; [done|].
      intros Hu. destruct (Hptr u sid' Hu) as (d' & Hd' & Hmem).
      exists d'. rewrite decide_False; [done|].
      intros <-. rewrite Hd in Hd'. injection Hd' as <-. destruct Hmem; congruence.
    + intros sid' a b Hin. destruct (Hhist sid' a b Hin) as ((i & Hi & Hdi) & Hd').
      split; [exists i; split; [lia | done]|].
      intros d'. rewrite lookup_delete. case_decide; [done | apply Hd'].
  - split; unfold pointsTo in *; cbn [snd db_create db_calls redis tick db_called]; [done | | done |].
    + intros sid' d' Hd'. destruct (Hrec sid' d' Hd') as (Hne & (i & Hi & Hdi) & Hp).
      split_and!; [done | exists i; split; [lia | done] | apply Hp | apply Hp].
    + intros sid' a b Hin. destruct (Hhist sid' a b Hin) as ((i & Hi & Hdi) & Hd').
      split; [exists i; split; [lia | done] | done].
Qed.

Lemma sm_reachable_inv h w :
  sm_reachable clk dbc dbe h w → sm_inv dbc h w.
Proof.
  intros Hreach. induction Hreach as [|h w t a b _ IH|h w sid status _ IH|h w u _ IH].
  - apply boot_inv.
  - by apply createSession_inv.
  - by apply endSession_inv.
  - by apply getActiveSession_preserves.
Qed.


End SessionInvariant.

Lemma fresh_ids_list (l : list string) :
  NoDup l → "" ∉ l → fresh_ids (fun n => l !! n).
Proof.
  intros Hnd Hne. split.
  - intros i j sid Hi Hj. by eapply NoDup_lookup.
  - intros i Hi. apply Hne. by eapply list_elem_of_lookup_2.
Qed.


(** ** PairingEngine *)

Lemma zinsert_members e z : members (zinsert e z) ≡ₚ e.1 :: members z.
Proof.
  induction z as [|x z IH]; simpl; [done|].
  destruct (entry_leb e x); simpl; [done|].
  rewrite IH. apply Permutation_swap.
Qed.

Lemma zrem_list_members ms z :
  members (zrem_list ms z) = List.filter (fun x => negb (bool_decide (x ∈ ms))) (members z).
Proof.
  unfold zrem_list, members. induction z as [|[x s] z IH]; simpl; [done|].
  destruct (negb (bool_decide (x ∈ ms))); simpl; by rewrite IH.
Qed.

Lemma zadd_list_NoDup s m z : NoDup (members z) → NoDup (members (zadd_list s m z)).
Proof.
  intros Hnd. unfold zadd_list. rewrite zinsert_members. simpl.
  apply NoDup_cons. split.
  - rewrite <- zscore_list_None, zscore_list_zrem.
    rewrite bool_decide_eq_true_2; [done | by apply list_elem_of_singleton].
  - rewrite zrem_list_members. apply NoDup_ListNoDup, List.NoDup_filter, NoDup_ListNoDup, Hnd.
Qed.

Lemma queue_frame_refl w : queue_frame w w.
Proof. by split_and!. Qed.

Lemma queue_frame_trans w1 w2 w3 :
  queue_frame w1 w2 → queue_frame w2 w3 → queue_frame w1 w3.
Proof.
  intros (Hz & Hu & Hc & Ht & Hm) (Hz' & Hu' & Hc' & Ht' & Hm').
  split_and!; [intros k; by rewrite Hz' | congruence..].
Qed.

Lemma getActiveSession_frame u w : queue_frame w (getActiveSession u w).2.
Proof.
  rewrite getActiveSession_eq.
  destruct (session_user (redis w) !! u) as [sid|]; [|apply queue_frame_refl].
  case_bool_decide; [apply queue_frame_refl|].
  destruct (session (redis w) !! sid); [apply queue_frame_refl|].
  split_and!; try done.
Qed.

Lemma createSession_fail_frame t a b w :
  (createSession t a b w).1 = None → queue_frame w (createSession t a b w).2.
Proof.
  rewrite createSession_eq. cbv zeta.
  pose proof (getActiveSession_frame a w) as H1.
  pose proof (getActiveSession_frame b (getActiveSession a w).2) as H2.
  pose proof (queue_frame_trans _ _ _ H1 H2) as H12.
  destruct (bool_decide _ || bool_decide _); cbn [fst snd]; [done|].
  destruct (db_create _ _); cbn [fst snd]; [done|]. intros _.
  eapply queue_frame_trans; [exact H12|]. by split_and!.
Qed.

Lemma isUserInQueue_world u w : (isUserInQueue u w).2 = w.
Proof.
  unfold isUserInQueue. run_M.
  repeat (match goal with |- context [match ?x with _ => _ end] => destruct x end; simpl); done.
Qed.

Lemma isUserInQueue_Some u t w :
  is_Some (scoreIn t u w) → is_Some (isUserInQueue u w).1.
Proof.
  unfold isUserInQueue, scoreIn, queueOf. run_M. intros [sc Hsc].
  destruct (zscore_list u (q_video (redis w))) eqn:Hv; simpl; [by eexists|].
  destruct (zscore_list u (q_audio (redis w))) eqn:Ha; simpl; [by eexists|].
  destruct (zscore_list u (q_text (redis w))) eqn:Ht; simpl; [by eexists|].
  destruct t; simpl in Hsc; congruence.
Qed.


Lemma quickMatch_create_failed u s t p w :
  (addToQueue u s t w).1 = true →
  let w1 := (addToQueue u s t w).2 in
  let w2 := (findMatch u t w1).2 in
  let w3 := (createSession t u (userId p) w2).2 in
  let w4 := (addToQueue u "" t w3).2 in
  let w5 := (addToQueue (userId p) (socketId p) t w4).2 in
  is_Some (isUserInQueue u w1).1 →
  (findMatch u t w1).1 = Some p →
  (createSession t u (userId p) w2).1 = None →
  quickMatch u s t w =
    (failure "Waiting for match",
     with_metrics (fun l => l ++ [trackError "matching" "session_creation_failed"]) w5).
Proof.
  intros Hadd w1 w2 w3 w4 w5 Hin Hfind Hcreate.
  subst w1 w2 w3 w4 w5.
  unfold quickMatch, matchUser. unfold mbind, M_bind, mret, M_ret, track, modify.
  destruct (addToQueue u s t w) as [added w1]. cbn [fst snd] in *. subst added. cbn [negb].
  pose proof (isUserInQueue_world u w1) as Hw.
  destruct (isUserInQueue u w1) as [inq w1']. cbn [fst snd] in *. subst w1'.
  destruct Hin as [q ->].
  destruct (findMatch u t w1) as [r w2]. cbn [fst snd] in *. subst r.
  destruct p as [pu ps pj]. cbn [userId socketId] in *.
  destruct (createSession t u pu w2) as [r w3]. cbn [fst snd] in *. subst r.
  destruct (addToQueue u "" t w3) as [r4 w4]. cbn [fst snd].
  destruct (addToQueue pu ps t w4) as [r5 w5]. cbn [fst snd].
  reflexivity.
Qed.

Lemma addToQueue_true_inv u s t w :
  (addToQueue u s t w).1 = true → scoreIn t u w = None.
Proof.
  rewrite addToQueue_eq. cbv zeta. unfold scoreIn, queueOf.
  by destruct (zscore_list u (zget (getQueueKey t) (redis w))).
Qed.

Lemma addToQueue_fresh u s t w :
  scoreIn t u w = None →
  let now := clock w (ticks w) in
  let w' := (addToQueue u s t w).2 in
  (addToQueue u s t w).1 = true ∧
  queueOf t w' = zadd_list now u (queueOf t w) ∧
  (∀ x, userDataOf x w' =
        if bool_decide (x = u) then Some (mkQueueUser u s now) else userDataOf x w) ∧
  locks (redis w') = locks (redis w) ∧
  clock w' = clock w ∧ ticks w' = S (ticks w) ∧
  last (metrics w') = Some (trackQueueJoin t).
Proof.
  intros Hsc. cbv zeta. rewrite addToQueue_eq. cbv zeta.
  unfold scoreIn, queueOf in Hsc. rewrite Hsc. cbn [fst snd].
  unfold queueOf, userDataOf. simpl.
  rewrite zget_zput_eq, queue_user_zput. simpl.
  split_and!; try done.
  - intros x. unfold userDataKey. rewrite lookup_insert.
    case_decide as Hx; case_bool_decide as Hx'; try done.
    + injection Hx as ->. done.
    + by subst.
  - by destruct t.
  - by rewrite (last_app_cons _ [_]).
Qed.

Lemma findMatch_Some u t p w :
  NoDup (members (queueOf t w)) →
  (findMatch u t w).1 = Some p →
  let w' := (findMatch u t w).2 in
  ∃ partnerId, partnerId ≠ u ∧ userDataOf partnerId w = Some p ∧
    scoreIn t u w' = None ∧ scoreIn t partnerId w' = None ∧
    queue_user (redis w') = queue_user (redis w) ∧
    clock w' = clock w ∧ ticks w' = ticks w.
Proof.
  intros Hnd. cbv zeta. rewrite findMatch_eq.
  case_bool_decide as Hlock; [done|]. cbv zeta.
  destruct (queueOf t w) as [|[u0 s0] [|[u1 s1] z]] eqn:Hz; try done.
  case_bool_decide as Hin; [|done].
  assert (Hne : u0 ≠ u1).
  { simpl in Hnd. apply NoDup_cons in Hnd as [Hnd _]. intros ->. apply Hnd. left. }
  destruct (userDataOf (if bool_decide (u0 = u) then u1 else u0) w) as [p'|] eqn:Hp;
    cbn [fst snd]; [|done].
  intros [= ->]. exists (if bool_decide (u0 = u) then u1 else u0).
  unfold scoreIn, queueOf, unlocked. simpl.
  rewrite zget_set_locks, zget_zput_eq, !zscore_list_zrem.
  assert (Hpin : (if bool_decide (u0 = u) then u1 else u0) ∈ [u0; u1]).
  { case_bool_decide; [right; left | left]. }
  rewrite (bool_decide_eq_true_2 _ Hin), (bool_decide_eq_true_2 _ Hpin).
  split_and!; try done.
  - case_bool_decide; congruence.
  - by destruct t.
Qed.

Lemma sidecar_wf_addToQueue u s t w :
  sidecar_wf w → sidecar_wf (addToQueue u s t w).2.
Proof.
  intros Hwf x d. rewrite addToQueue_eq. cbv zeta.
  destruct (zscore_list u (zget (getQueueKey t) (redis w))); cbn [snd].
  - apply Hwf.
  - unfold userDataOf, userDataKey. simpl. rewrite queue_user_zput. simpl.
    rewrite lookup_insert. case_decide as Hx.
    + injection Hx as ->. by intros [= <-].
    + apply Hwf.
Qed.

(** C4, as amended.  When [quickMatch] has enqueued the caller, the pair
    extraction succeeds and [createSession] then returns null, both users are
    re-enqueued in the same modality, each with the time of its re-insertion
    as its new [joinedAt] score (not the score it had), the caller with an
    empty socket id; the matching error metric is recorded and the result
    reports failure. *)
Theorem quickMatch_requeues_with_new_scores u s t p w :
  NoDup (members (queueOf t w)) → sidecar_wf w →
  (addToQueue u s t w).1 = true →
  (findMatch u t (addToQueue u s t w).2).1 = Some p →
  (createSession t u (userId p) (findMatch u t (addToQueue u s t w).2).2).1 = None →
  requeue_post u s t p w.
Proof.
  intros Hnd Hwf Hadd Hfind Hcreate.
  pose proof (addToQueue_true_inv _ _ _ _ Hadd) as Hfresh.
  destruct (addToQueue_fresh u s t w Hfresh) as (_ & Hq1 & Hd1 & _ & Hc1 & Ht1 & _).
  pose proof (sidecar_wf_addToQueue u s t w Hwf) as Hwf1.
  set (w1 := (addToQueue u s t w).2) in *.
  assert (Hnd1 : NoDup (members (queueOf t w1))).
  { rewrite Hq1. by apply zadd_list_NoDup. }
  destruct (findMatch_Some u t p w1 Hnd1 Hfind)
    as (pid & Hpu & Hp & Hsu2 & Hsp2 & Hd2 & Hc2 & Ht2).
  pose proof (Hwf1 pid p Hp) as Hpid.
  set (w2 := (findMatch u t w1).2) in *.
  destruct (createSession_fail_frame t u (userId p) w2 Hcreate)
    as (Hz3 & Hd3 & Hc3 & Ht3 & _).
  set (w3 := (createSession t u (userId p) w2).2) in *.
  assert (Hsu3 : scoreIn t u w3 = None).
  { unfold scoreIn, queueOf. rewrite Hz3. exact Hsu2. }
  assert (Hsp3 : scoreIn t pid w3 = None).
  { unfold scoreIn, queueOf. rewrite Hz3. exact Hsp2. }
  destruct (addToQueue_fresh u "" t w3 Hsu3) as (_ & Hq4 & Hd4 & _ & Hc4 & Ht4 & _).
  set (w4 := (addToQueue u "" t w3).2) in *.
  assert (Hsp4 : scoreIn t pid w4 = None).
  { unfold scoreIn. rewrite Hq4, zscore_list_zadd_ne by done. exact Hsp3. }
  rewrite <- Hpid in Hsp4.
  destruct (addToQueue_fresh (userId p) (socketId p) t w4 Hsp4)
    as (_ & Hq5 & Hd5 & _ & Hc5 & Ht5 & _).
  set (w5 := (addToQueue (userId p) (socketId p) t w4).2) in *.
  assert (Hinq : is_Some (isUserInQueue u w1).1).
  { apply (isUserInQueue_Some u t). unfold scoreIn. rewrite Hq1, zscore_list_zadd_eq. by eexists. }
  unfold requeue_post. cbv zeta.
  rewrite (quickMatch_create_failed u s t p w Hadd Hinq Hfind Hcreate).
  cbn [fst snd]. fold w1 w2 w3 w4 w5.
  assert (Htu : clock w3 (ticks w3) = clock w (S (ticks w))).
  { by rewrite Hc3, Ht3, Hc2, Ht2, Hc1, Ht1. }
  assert (Htp : clock w4 (ticks w4) = clock w (S (S (ticks w)))).
  { by rewrite Hc4, Ht4, Hc3, Ht3, Hc2, Ht2, Hc1, Ht1. }
  rewrite Htu in *. rewrite Htp in *.
  unfold scoreIn, userDataOf in *.
  change (queueOf t (with_metrics ?f w5)) with (queueOf t w5).
  change (redis (with_metrics ?f w5)) with (redis w5).
  change (metrics (with_metrics ?f w5)) with (f (metrics w5)).
  rewrite Hq5, Hq4.
  split_and!.
  - done.
  - rewrite zscore_list_zadd_ne by congruence. apply zscore_list_zadd_eq.
  - apply zscore_list_zadd_eq.
  - rewrite Hd5, bool_decide_eq_false_2 by congruence.
    by rewrite Hd4, bool_decide_eq_true_2.
  - by rewrite Hd5, bool_decide_eq_true_2.
  - apply last_snoc.
Qed.

Lemma sidecar_wf_boot ids : sidecar_wf (world0 ids).
Proof. intros x d. unfold userDataOf. simpl. by rewrite lookup_empty. Qed.

Lemma quickMatch_requeues_with_new_scores_witness :
  let p := mkQueueUser "p" "sp" 0 in
  let w := world_partner_waiting in
  NoDup (members (queueOf VIDEO w)) ∧ sidecar_wf w
  ∧ (addToQueue "u" "su" VIDEO w).1 = true
  ∧ (findMatch "u" VIDEO (addToQueue "u" "su" VIDEO w).2).1 = Some p
  ∧ (createSession VIDEO "u" (userId p)
       (findMatch "u" VIDEO (addToQueue "u" "su" VIDEO w).2).2).1 = None
  ∧ requeue_post "u" "su" VIDEO p w.
Proof.
  intros p w.
  assert (H1 : NoDup (members (queueOf VIDEO w))).
  { apply (bool_decide_unpack _). by vm_compute. }
  assert (H2 : sidecar_wf w) by apply sidecar_wf_addToQueue, sidecar_wf_boot.
  assert (H3 : (addToQueue "u" "su" VIDEO w).1 = true) by (by vm_compute).
  assert (H4 : (findMatch "u" VIDEO (addToQueue "u" "su" VIDEO w).2).1 = Some p)
    by (by vm_compute).
  assert (H5 : (createSession VIDEO "u" (userId p)
                  (findMatch "u" VIDEO (addToQueue "u" "su" VIDEO w).2).2).1 = None)
    by (by vm_compute).
  split_and!; [exact H1 | exact H2 | exact H3 | exact H4 | exact H5 |].
  exact (quickMatch_requeues_with_new_scores "u" "su" VIDEO p w H1 H2 H3 H4 H5).
Defined.

(** C4, as stated, fails: [p] has waited since time 0, [u] joins at time 1,
    the pair is extracted and the database refuses the session; [u] is back
    with score 2 and [p] with score 3, behind [u]. *)
Lemma quickMatch_loses_original_scores :
  ¬ requeued_at_original_scores "u" "su" VIDEO world_partner_waiting.
Proof.
  unfold requeued_at_original_scores. intros H.
  destruct (H (mkQueueUser "p" "sp" 0)) as (_ & _ & Hu & _); [by vm_compute.. |].
  vm_compute in Hu. discriminate.
Qed.

(** The queue before the extraction and after the re-insertion. *)
Lemma quickMatch_queue_order :
  queueOf VIDEO (addToQueue "u" "su" VIDEO world_partner_waiting).2 = [("p", 0); ("u", 1)]
  ∧ queueOf VIDEO (quickMatch "u" "su" VIDEO world_partner_waiting).2 = [("u", 2); ("p", 3)].
Proof. by vm_compute. Qed.

(** ** Relay handlers *)

Lemma trimStart_nil m : trimStart m = [] ↔ blank m = true.
Proof.
  unfold blank. induction m as [|c m IH]; simpl; [done|].
  destruct (isWhiteSpace c); simpl; [done|]. split; discriminate.
Qed.

Lemma blank_trimStart m : blank (trimStart m) = blank m.
Proof.
  unfold blank. induction m as [|c m IH]; simpl; [done|].
  destruct (isWhiteSpace c) eqn:Hc; simpl; [done|]. by rewrite Hc.
Qed.

Lemma blank_rev m : blank (rev m) = blank m.
Proof.
  unfold blank. induction m as [|c m IH]; simpl; [done|].
  rewrite forallb_app, IH. simpl. rewrite andb_true_r. apply andb_comm.
Qed.

Lemma trim_blank m :
  bool_decide (length m = 0%nat) || bool_decide (length (trim m) = 0%nat) = blank m.
Proof.
  assert (Ht : bool_decide (length (trim m) = 0%nat) = blank m).
  { unfold trim. rewrite length_rev.
    destruct (blank m) eqn:Hb.
    - apply bool_decide_eq_true. apply length_zero_iff_nil, trimStart_nil.
      by rewrite blank_rev, blank_trimStart.
    - apply bool_decide_eq_false. rewrite length_zero_iff_nil, trimStart_nil.
      by rewrite blank_rev, blank_trimStart, Hb. }
  rewrite Ht. destruct m; [done|]. by rewrite bool_decide_eq_false_2.
Qed.

Lemma with_outbox_nil w : with_outbox (fun l => l ++ []) w = w.
Proof. destruct w. unfold with_outbox. simpl. by rewrite app_nil_r. Qed.

Lemma emitEach_eq socks ev data w :
  emitEach socks ev data w =
    (tt, with_outbox (fun l => l ++ map (fun s => mkEmission s ev data) socks) w).
Proof.
  revert w. induction socks as [|s socks IH]; intros w; simpl.
  - by rewrite with_outbox_nil.
  - unfold mbind, M_bind, emit, modify. rewrite IH.
    unfold with_outbox. simpl. by rewrite <- app_assoc.
Qed.

Lemma emitToUser_eq u ev data w :
  emitToUser u ev data w = (tt, with_outbox (fun l => l ++ fanout u ev data w) w).
Proof.
  unfold emitToUser, getUserSockets, mbind, M_bind, gets. apply emitEach_eq.
Qed.

Lemma getSessionPartner_eq u w :
  getSessionPartner u w =
    ((fun s => if bool_decide (user1Id s = u) then user2Id s else user1Id s)
       <$> (getActiveSession u w).1,
     (getActiveSession u w).2).
Proof.
  unfold getSessionPartner, mbind, M_bind, mret, M_ret.
  by destruct (getActiveSession u w) as [[s|] w'].
Qed.

(** The partner lookup changes nothing but, possibly, a reverse pointer. *)
Lemma getActiveSession_relay_frame u w :
  let w' := (getActiveSession u w).2 in
  outbox w' = outbox w ∧ userSockets w' = userSockets w ∧
  clock w' = clock w ∧ ticks w' = ticks w.
Proof.
  cbv zeta. rewrite getActiveSession_eq.
  destruct (session_user (redis w) !! u) as [sid|]; [|done].
  case_bool_decide; [done|]. by destruct (session (redis w) !! sid).
Qed.


Lemma onChatMessage_eq socket userId message w :
  onChatMessage socket userId message w =
    if blank message then (tt, sendError socket ERROR "Message cannot be empty" w)
    else if bool_decide (1000 < length message)%nat then
      (tt, sendError socket ERROR "Message too long (max 1000 characters)" w)
    else
      let w1 := (getActiveSession userId w).2 in
      let partnerId := (getSessionPartner userId w).1 in
      if falsy partnerId then (tt, sendError socket ERROR "No active session" w1)
      else
        let data := ChatPayload message (clock w1 (ticks w1)) userId in
        (tt, with_metrics (fun l => l ++ [messagesSent_inc "random"])
               (with_outbox (fun l => l ++ fanout (default "" partnerId) CHAT_MESSAGE data w1)
                  (tick w1))).
Proof.
  unfold onChatMessage. rewrite trim_blank.
  destruct (blank message); [done|].
  case_bool_decide; [done|].
  unfold mbind at 1, M_bind at 1. rewrite getSessionPartner_eq. cbv zeta. cbn [fst snd].
  destruct (getActiveSession userId w) as [[s|] w1]; cbn [fst snd fmap option_fmap option_map];
    [|done].
  destruct (falsy _); [done|].
  unfold mbind, M_bind, Date_now, track, modify. rewrite emitToUser_eq. done.
Qed.

(** C6, as amended.  A [chat:message] whose text is empty or consists of
    white space only, or is longer than 1000 code units, or whose sender has
    no session partner, is answered with one error event to the sender and
    nothing is delivered; otherwise the payload [{message, timestamp,
    senderId}] goes to every socket the partner has registered on this
    instance and to nobody else.  The store is not written, except that the
    partner lookup may delete a dangling reverse pointer. *)
Theorem onChatMessage_rule socket userId message w : chat_rule socket userId message w.
Proof.
  unfold chat_rule. cbv zeta. rewrite onChatMessage_eq.
  destruct (blank message); cbn [orb]; [split; [by eexists | by left]|].
  case_bool_decide; cbn [orb]; [split; [by eexists | by left]|].
  cbv zeta.
  destruct (getActiveSession_relay_frame userId w) as (Ho & Hs & Hc & Ht).
  destruct (falsy _); cbn [snd].
  - split; [|by right]. unfold rejected, sendError. simpl. rewrite Ho. by eexists.
  - split; [|by right]. unfold delivered, fanout, socketsOf. simpl.
    by rewrite Ho, Hs, Hc, Ht.
Qed.

Lemma onSignal_eq k socket userId blob w :
  onSignal k socket userId blob w =
    let w1 := (getActiveSession userId w).2 in
    let partnerId := (getSessionPartner userId w).1 in
    if falsy partnerId then
      match k with
      | Ice => (tt, w1)
      | _ => (tt, sendError socket CALL_ERROR "No active session" w1)
      end
    else
      (tt, with_outbox
             (fun l => l ++ fanout (default "" partnerId)
                             (relayed k userId blob).1 (relayed k userId blob).2 w1) w1).
Proof.
  cbv zeta. destruct k; simpl;
    unfold onCallOffer, onCallAnswer, onCallIceCandidate;
    unfold mbind at 1, M_bind at 1; rewrite getSessionPartner_eq; cbn [fst snd];
    (destruct (getActiveSession userId w) as [[s|] w1];
       cbn [fst snd fmap option_fmap option_map]; [|done]);
    (destruct (falsy _); [done|]); by rewrite emitToUser_eq.
Qed.

(** C7, as amended.  From a user without session partner [call:ice] is
    dropped silently, while [call:offer] and [call:answer] are not relayed
    but answered with a [call:error] event to the sender; with a partner the
    payload is relayed as received, with the sender id added, to the sockets
    of the partner. *)
Theorem onSignal_rule k socket userId blob w : signal_rule k socket userId blob w.
Proof.
  unfold signal_rule. cbv zeta. rewrite onSignal_eq. cbv zeta.
  destruct (getActiveSession_relay_frame userId w) as (Ho & Hs & Hc & Ht).
  destruct (falsy _).
  - destruct k; cbn [snd]; unfold sendError; simpl; by rewrite ?Ho.
  - unfold signal_relayed, fanout, socketsOf. simpl. by rewrite Ho, Hs.
Qed.

(** C6, as stated, fails: a text of one space, sent by a user in a session
    whose partner is connected, is rejected. *)
Lemma onChatMessage_rejects_blank :
  ¬ chat_rule_as_stated "sa" "a" [32%N] world_chat.
Proof.
  unfold chat_rule_as_stated. vm_compute. discriminate.
Qed.

(** C7, as stated, fails: an offer from a user without partner is answered
    with an error event. *)
Lemma onCallOffer_answers_with_error :
  ¬ signal_rule_as_stated Offer "sa" "a" "sdp" (world0 []).
Proof.
  unfold signal_rule_as_stated. vm_compute. discriminate.
Qed.

Lemma onCallAnswer_answers_with_error :
  ¬ signal_rule_as_stated Answer "sa" "a" "sdp" (world0 []).
Proof.
  unfold signal_rule_as_stated. vm_compute. discriminate.
Qed.

(** ** Presence on disconnect *)








(** [SocketManager.unregisterSocket] keeps the presence record while the
    user has another socket... *)
Lemma unregisterSocket_other_socket socket other u s w :
  userSockets w !! u = Some s → other ∈ s → other ≠ socket →
  presence (unregisterSocket socket u w).2 = presence w.
Proof.
  intros Hs Hin Hne. unfold unregisterSocket, mbind, M_bind, gets, modify.
  rewrite Hs. simpl.
  rewrite bool_decide_eq_false_2; [done|].
  intros Hlen. apply length_zero_iff_nil in Hlen.
  assert (Hmem : other ∈ set_delete socket s).
  { unfold set_delete. apply list_elem_of_In, filter_In. split.
    - by apply list_elem_of_In.
    - by rewrite bool_decide_eq_false_2. }
  rewrite Hlen in Hmem. by apply elem_of_nil in Hmem.
Qed.

(** ... and removes it with the last one. *)
Lemma unregisterSocket_last_socket socket u w :
  userSockets w !! u = Some [socket] →
  isOnline u (unregisterSocket socket u w).2 = false.
Proof.
  intros Hs. unfold unregisterSocket, mbind, M_bind, gets, modify, setUserOffline, isOnline.
  rewrite Hs. unfold set_delete. simpl.
  rewrite (bool_decide_eq_true_2 (socket = socket)) by done. simpl.
  apply bool_decide_eq_false.
  intros [_ H]%elem_of_difference. apply H. by apply elem_of_singleton.
Qed.

(** C8.  The failing input: [u] holds the sockets [s1] and [s2] and [s1]
    disconnects.  [WebSocketServer.handleDisconnection] runs
    [cleanupUserSession], which marks [u] offline although [s2] is still
    connected and registered. *)
Lemma handleDisconnection_marks_offline_with_open_tab :
  let w := world_two_tabs in
  let w' := (handleDisconnection "s1" "u" w).2 in
  isOnline "u" w = true
  ∧ activeConnections w' !! "s2" = Some "u"
  ∧ userSockets w' !! "u" = Some ["s1"; "s2"]
  ∧ isOnline "u" w' = false.
Proof. by vm_compute. Qed.

(** On the same input [SocketManager.unregisterSocket] keeps [u] online. *)
Lemma unregisterSocket_keeps_online_with_open_tab :
  isOnline "u" (unregisterSocket "s1" "u" world_two_tabs).2 = true.
Proof. by vm_compute. Qed.

(** ** LoadBalancer *)

Section LeastLoaded.
Import LoadBalancer.

Lemma head_sort_insert {A} (cmp : A -> A -> Q) a l :
  head (sort_insert cmp a l) =
    match head l with
    | None => Some a
    | Some b => if Qle_bool (cmp a b) 0 then Some a else Some b
    end.
Proof. destruct l as [|b l]; simpl; [done|]. by destruct (Qle_bool (cmp a b) 0). Qed.

Lemma head_sort_first_minimal (l : list IServerInstance) :
  match head (sort compareScore (map withScore l)) with
  | None => l = []
  | Some (r, score) =>
      score = loadScore r ∧
      ∃ before after, l = before ++ r :: after ∧
        (∀ y, y ∈ before → (loadScore r < loadScore y)%Q) ∧
        (∀ y, y ∈ after → (loadScore r <= loadScore y)%Q)
  end.
Proof.
  induction l as [|x l IH]; simpl; [done|].
  rewrite head_sort_insert.
  destruct (head (sort compareScore (map withScore l))) as [[b sb]|].
  - destruct IH as (-> & before & after & -> & Hbefore & Hafter).
    unfold compareScore. cbn [fst snd withScore].
    destruct (Qle_bool (loadScore x - loadScore b) 0) eqn:Hle.
    + apply Qle_bool_iff in Hle.
      split; [done|]. exists [], (before ++ b :: after). split_and!; [done | |].
      * intros y Hy. by apply elem_of_nil in Hy.
      * intros y Hy. apply elem_of_app in Hy as [Hy|Hy].
        -- specialize (Hbefore y Hy). lra.
        -- apply elem_of_cons in Hy as [->|Hy]; [lra|].
           specialize (Hafter y Hy). lra.
    + assert (Hgt : (loadScore b < loadScore x)%Q).
      { apply Qnot_le_lt. intros Hc. apply not_true_iff_false in Hle. apply Hle.
        apply Qle_bool_iff. lra. }
      split; [done|]. exists (x :: before), after. split_and!; [done | | done].
      intros y Hy. apply elem_of_cons in Hy as [->|Hy]; [done | by apply Hbefore].
  - subst l. split; [done|]. exists [], []. split_and!; [done | |];
      intros y Hy; by apply elem_of_nil in Hy.
Qed.



End LeastLoaded.

(* ===================================================================== *)
(** * Part III.  Further properties of the services                       *)
(* ===================================================================== *)

(** ** Queue order *)

Lemma entry_leb_total a b : entry_leb a b = false → entry_leb b a = true.
Proof.
  unfold entry_leb. destruct a as [x s], b as [y t]; simpl.
  intros H. apply orb_false_iff in H as [Hlt H].
  apply Z.ltb_ge in Hlt.
  destruct (Z.ltb_spec t s) as [|Hge]; [done|]. simpl.
  assert (s = t) as -> by lia. rewrite Z.eqb_refl in *. simpl in *.
  destruct (String.leb_total x y) as [Hxy|Hyx]; congruence.
Qed.

Lemma entry_leb_trans a b c :
  entry_leb a b = true → entry_leb b c = true → entry_leb a c = true.
Proof.
  unfold entry_leb. destruct a as [x s], b as [y t], c as [z r]; simpl.
  intros H1 H2.
  apply orb_true_iff in H1 as [H1|H1], H2 as [H2|H2];
    repeat match goal with
    | H : Z.ltb _ _ = true |- _ => apply Z.ltb_lt in H
    | H : _ && _ = true |- _ => apply andb_true_iff in H as [? ?]
    | H : Z.eqb _ _ = true |- _ => apply Z.eqb_eq in H
    end; subst.
  - apply orb_true_iff. left. apply Z.ltb_lt. lia.
  - apply orb_true_iff. left. apply Z.ltb_lt. lia.
  - apply orb_true_iff. left. apply Z.ltb_lt. lia.
  - apply orb_true_iff. right. rewrite Z.eqb_refl. simpl.
    match goal with
    | Hxy : String.leb x y = true, Hyz : String.leb y z = true |- _ =>
        apply Is_true_true; apply Is_true_true in Hxy, Hyz;
        by apply (transitivity (R := String.le) (y := y))
    end.
Qed.

Lemma elem_of_zinsert y e z : y ∈ zinsert e z ↔ y = e ∨ y ∈ z.
Proof.
  induction z as [|b z IH]; simpl.
  - rewrite list_elem_of_singleton, elem_of_nil. tauto.
  - destruct (entry_leb e b).
    + rewrite !elem_of_cons. tauto.
    + rewrite !elem_of_cons, IH. tauto.
Qed.

Lemma zinsert_sorted e z :
  StronglySorted entry_le z → StronglySorted entry_le (zinsert e z).
Proof.
  induction 1 as [|x z Hs IH Hx]; simpl.
  - constructor; [constructor | constructor].
  - destruct (entry_leb e x) eqn:Hex.
    + constructor; [by constructor|].
      constructor; [exact Hex|].
      eapply Forall_impl; [exact Hx|]. intros y Hy. by eapply entry_leb_trans.
    + constructor; [exact IH|].
      apply Forall_forall. intros y Hy.
      apply elem_of_zinsert in Hy as [->|Hy].
      * by apply entry_leb_total.
      * rewrite Forall_forall in Hx. by apply Hx.
Qed.

Lemma filter_sorted (f : string * Z → bool) z :
  StronglySorted entry_le z → StronglySorted entry_le (List.filter f z).
Proof.
  induction 1 as [|x z Hs IH Hx]; simpl; [constructor|].
  destruct (f x); [|done]. constructor; [done|].
  apply Forall_forall. intros y Hy. rewrite Forall_forall in Hx.
  apply Hx. apply list_elem_of_In. apply list_elem_of_In in Hy.
  by apply filter_In in Hy as [? _].
Qed.

Lemma filter_members_NoDup (f : string * Z → bool) z :
  NoDup (members z) → NoDup (members (List.filter f z)).
Proof.
  unfold members. induction z as [|[x s] z IH]; simpl; [done|].
  intros [Hx Hz]%NoDup_cons. destruct (f (x, s)); simpl; [|by apply IH].
  apply NoDup_cons. split; [|by apply IH].
  intros Hin. apply Hx. apply list_elem_of_fmap in Hin as (e & -> & He).
  apply list_elem_of_fmap. exists e. split; [done|].
  apply list_elem_of_In. apply list_elem_of_In in He. by apply filter_In in He as [? _].
Qed.

Lemma queues_wf_redis w : queues_wf w ↔ redis_wf (redis w).
Proof. done. Qed.

Lemma redis_wf_zput k z r :
  StronglySorted entry_le z → NoDup (members z) → redis_wf r → redis_wf (zput k z r).
Proof.
  intros Hs Hn (Hsort & Hnd & Hside). split_and!.
  - intros k'. destruct (decide (k' = k)) as [->|Hne].
    + by rewrite zget_zput_eq.
    + by rewrite zget_zput_ne.
  - intros k'. destruct (decide (k' = k)) as [->|Hne].
    + by rewrite zget_zput_eq.
    + by rewrite zget_zput_ne.
  - intros x d. rewrite queue_user_zput. apply Hside.
Qed.

Lemma redis_wf_set_locks f r : redis_wf r → redis_wf (set_locks f r).
Proof.
  intros (Hsort & Hnd & Hside). split_and!; [| | done];
    intros k; rewrite zget_set_locks; auto.
Qed.

Lemma redis_wf_delete_user u r :
  redis_wf r → redis_wf (set_queue_user (delete (userDataKey u)) r).
Proof.
  intros (Hsort & Hnd & Hside). split_and!.
  - intros k. rewrite zget_set_queue_user. auto.
  - intros k. rewrite zget_set_queue_user. auto.
  - intros x d. simpl. rewrite lookup_delete. case_decide; [done | apply Hside].
Qed.

Lemma redis_wf_insert_user u s now r :
  redis_wf r →
  redis_wf (set_queue_user <[userDataKey u := mkQueueUser u s now]> r).
Proof.
  intros (Hsort & Hnd & Hside). split_and!.
  - intros k. rewrite zget_set_queue_user. auto.
  - intros k. rewrite zget_set_queue_user. auto.
  - intros x d. simpl. unfold userDataKey. rewrite lookup_insert. case_decide as Hx.
    + injection Hx as ->. by intros [= <-].
    + apply Hside.
Qed.

Lemma zrem_list_sorted ms z :
  StronglySorted entry_le z → StronglySorted entry_le (zrem_list ms z).
Proof. apply filter_sorted. Qed.

Lemma zrem_list_NoDup ms z : NoDup (members z) → NoDup (members (zrem_list ms z)).
Proof. apply filter_members_NoDup. Qed.

Lemma zadd_list_sorted s m z :
  StronglySorted entry_le z → StronglySorted entry_le (zadd_list s m z).
Proof. intros H. unfold zadd_list. by apply zinsert_sorted, zrem_list_sorted. Qed.

Lemma addToQueue_redis u s t w :
  redis (addToQueue u s t w).2 =
    match scoreIn t u w with
    | Some _ => redis w
    | None =>
        zput (getQueueKey t) (zadd_list (clock w (ticks w)) u (queueOf t w))
          (set_queue_user <[userDataKey u := mkQueueUser u s (clock w (ticks w))]> (redis w))
    end.
Proof.
  rewrite addToQueue_eq. cbv zeta. unfold scoreIn, queueOf.
  by destruct (zscore_list u (zget (getQueueKey t) (redis w))).
Qed.

Lemma addToQueue_wf u s t w : queues_wf w → queues_wf (addToQueue u s t w).2.
Proof.
  rewrite !queues_wf_redis, addToQueue_redis. intros Hwf.
  destruct (scoreIn t u w); [done|].
  pose proof Hwf as (Hsort & Hnd & _).
  apply redis_wf_zput; [apply zadd_list_sorted, Hsort | apply zadd_list_NoDup, Hnd|].
  by apply redis_wf_insert_user.
Qed.

Lemma removeFromQueue_wf u t w : queues_wf w → queues_wf (removeFromQueue u t w).2.
Proof.
  rewrite !queues_wf_redis, removeFromQueue_redis. intros Hwf.
  pose proof Hwf as (Hsort & Hnd & _).
  apply redis_wf_delete_user, redis_wf_zput;
    [apply zrem_list_sorted, Hsort | apply zrem_list_NoDup, Hnd | done].
Qed.

Lemma findMatch_wf u t w : queues_wf w → queues_wf (findMatch u t w).2.
Proof.
  intros Hwf. rewrite findMatch_eq.
  case_bool_decide; [done|]. cbv zeta.
  assert (Hbase : queues_wf (unlocked t (with_redis (set_locks (cons t)) w))).
  { apply queues_wf_redis. simpl. by apply redis_wf_set_locks, redis_wf_set_locks. }
  destruct (queueOf t w) as [|[u0 s0] [|[u1 s1] z]] eqn:Hz; try exact Hbase.
  case_bool_decide; [|exact Hbase].
  assert (Hrem : queues_wf (unlocked t
             (with_redis (zput (getQueueKey t) (zrem_list [u0; u1] ((u0, s0) :: (u1, s1) :: z)))
                (with_redis (set_locks (cons t)) w)))).
  { apply queues_wf_redis. simpl. pose proof Hwf as (Hsort & Hnd & _).
    apply redis_wf_set_locks, redis_wf_zput.
    - rewrite <- Hz. apply zrem_list_sorted, Hsort.
    - rewrite <- Hz. apply zrem_list_NoDup, Hnd.
    - by apply redis_wf_set_locks. }
  destruct (userDataOf _ w); cbn [snd]; [exact Hrem|].
  by apply addToQueue_wf.
Qed.

Lemma removeFromAllQueues_eq u w :
  (removeFromAllQueues u w).2 =
    (removeFromQueue u TEXT (removeFromQueue u AUDIO (removeFromQueue u VIDEO w).2).2).2.
Proof.
  unfold removeFromAllQueues, mbind, M_bind, mret, M_ret.
  destruct (removeFromQueue u VIDEO w) as [r1 w1]. simpl.
  destruct (removeFromQueue u AUDIO w1) as [r2 w2]. simpl.
  by destruct (removeFromQueue u TEXT w2) as [r3 w3].
Qed.

Lemma removeFromAllQueues_wf u w : queues_wf w → queues_wf (removeFromAllQueues u w).2.
Proof.
  intros Hwf. rewrite removeFromAllQueues_eq. by do 3 apply removeFromQueue_wf.
Qed.

(** The store after the sweep of one queue. *)
Lemma cleanupStaleEntries_one_redis cutoff t w :
  redis (cleanupStaleEntries_one cutoff t w).2 =
    zput (getQueueKey t) (zremrangebyscore_list 0 cutoff (queueOf t w)) (redis w).
Proof.
  unfold cleanupStaleEntries_one, zremrangebyscore, queueOf. run_M.
  by case_bool_decide.
Qed.

Lemma cleanupStaleEntries_one_result cutoff t w :
  (cleanupStaleEntries_one cutoff t w).1 =
    (length (queueOf t w) - length (zremrangebyscore_list 0 cutoff (queueOf t w)))%nat.
Proof.
  unfold cleanupStaleEntries_one, zremrangebyscore, queueOf. run_M.
  by case_bool_decide.
Qed.

Lemma cleanupStaleEntries_one_clock cutoff t w :
  clock (cleanupStaleEntries_one cutoff t w).2 = clock w ∧
  ticks (cleanupStaleEntries_one cutoff t w).2 = ticks w.
Proof.
  unfold cleanupStaleEntries_one, zremrangebyscore, queueOf. run_M.
  by case_bool_decide.
Qed.

Lemma cleanupStaleEntries_one_wf cutoff t w :
  queues_wf w → queues_wf (cleanupStaleEntries_one cutoff t w).2.
Proof.
  rewrite !queues_wf_redis, cleanupStaleEntries_one_redis. intros Hwf.
  pose proof Hwf as (Hsort & Hnd & _).
  apply redis_wf_zput; [apply filter_sorted, Hsort | apply filter_members_NoDup, Hnd | done].
Qed.

Lemma cleanupStaleEntries_eq w :
  cleanupStaleEntries w =
    let cutoff := clock w (ticks w) - QUEUE_TIMEOUT in
    let r1 := cleanupStaleEntries_one cutoff VIDEO (tick w) in
    let r2 := cleanupStaleEntries_one cutoff AUDIO r1.2 in
    let r3 := cleanupStaleEntries_one cutoff TEXT r2.2 in
    ((r1.1 + r2.1 + r3.1)%nat, r3.2).
Proof.
  unfold cleanupStaleEntries, mbind, M_bind, mret, M_ret, Date_now. cbv zeta.
  destruct (cleanupStaleEntries_one _ VIDEO (tick w)) as [a w1]. simpl.
  destruct (cleanupStaleEntries_one _ AUDIO w1) as [b w2]. simpl.
  by destruct (cleanupStaleEntries_one _ TEXT w2) as [c w3].
Qed.

Lemma cleanupStaleEntries_wf w : queues_wf w → queues_wf (cleanupStaleEntries w).2.
Proof.
  intros Hwf. rewrite cleanupStaleEntries_eq. cbv zeta. cbn [snd].
  by do 3 apply cleanupStaleEntries_one_wf.
Qed.

Lemma boot_wf clk dbc dbe : queues_wf (boot clk dbc dbe).
Proof.
  split_and!.
  - intros []; constructor.
  - intros []; constructor.
  - intros x d. unfold userDataOf. simpl. by rewrite lookup_empty.
Qed.

(** X1.  In every world that [addToQueue], [removeFromQueue], [findMatch],
    [removeFromAllQueues] and [cleanupStaleEntries] reach from an empty
    store, each queue is ordered by score (then member) and holds a user at
    most once, and every sidecar record carries the id of the user it is
    stored for. *)
Theorem qm_reachable_wf w : qm_reachable w → queues_wf w.
Proof.
  induction 1 as [clk dbc dbe|w u s t _ IH|w u t _ IH|w u t _ IH|w u _ IH|w _ IH].
  - apply boot_wf.
  - by apply addToQueue_wf.
  - by apply removeFromQueue_wf.
  - by apply findMatch_wf.
  - by apply removeFromAllQueues_wf.
  - by apply cleanupStaleEntries_wf.
Qed.

(** ** More of QueueManager *)

Lemma zrank_list_spec m z :
  match zrank_list m z with
  | None => zscore_list m z = None
  | Some n => (n < length z)%nat ∧ ∃ s, z !! n = Some (m, s) ∧ zscore_list m z = Some s
  end.
Proof.
  induction z as [|[x s] z IH]; simpl; [done|].
  case_bool_decide as Hx.
  - subst. split; [lia|]. by exists s.
  - destruct (zrank_list m z) as [n|]; simpl; [|done].
    destruct IH as (Hn & s' & Hl & Hs). split; [lia|]. by exists s'.
Qed.

(** X2.  [getQueuePosition] changes nothing; it answers 0 exactly for a user
    without entry in the queue, never more than the size of the queue, and
    for a user with an entry the 1-based index of that entry. *)
Theorem getQueuePosition_position u t w : getQueuePosition_post u t w.
Proof.
  unfold getQueuePosition_post, getQueuePosition, scoreIn, queueOf. run_M.
  pose proof (zrank_list_spec u (zget (getQueueKey t) (redis w))) as H.
  destruct (zrank_list u (zget (getQueueKey t) (redis w))) as [n|]; simpl.
  - destruct H as (Hn & s & Hl & Hs). rewrite Hs. split_and!; [done | | lia |].
    + split; [lia | done].
    + intros s' [= <-]. split; [lia|]. by replace (n + 1 - 1)%nat with n by lia.
  - rewrite H. split_and!; [done | done | lia | done].
Qed.

Lemma isUserInQueue_None u w : (isUserInQueue u w).1 = None ↔ inNoQueue u w.
Proof.
  unfold inNoQueue, isUserInQueue, scoreIn, queueOf. run_M.
  destruct (zscore_list u (q_video (redis w))) eqn:Hv; simpl.
  { split; [done|]. intros H. specialize (H VIDEO). simpl in H. congruence. }
  destruct (zscore_list u (q_audio (redis w))) eqn:Ha; simpl.
  { split; [done|]. intros H. specialize (H AUDIO). simpl in H. congruence. }
  destruct (zscore_list u (q_text (redis w))) eqn:Ht; simpl.
  { split; [done|]. intros H. specialize (H TEXT). simpl in H. congruence. }
  split; [|done]. by intros _ [].
Qed.

Lemma isUserInQueue_Some_scoreIn u t w :
  (isUserInQueue u w).1 = Some t → is_Some (scoreIn t u w).
Proof.
  unfold isUserInQueue, scoreIn, queueOf. run_M.
  destruct (zscore_list u (q_video (redis w))) eqn:Hv; simpl.
  { intros [= <-]. simpl. by eexists. }
  destruct (zscore_list u (q_audio (redis w))) eqn:Ha; simpl.
  { intros [= <-]. simpl. by eexists. }
  destruct (zscore_list u (q_text (redis w))) eqn:Ht; simpl; [|done].
  intros [= <-]. simpl. by eexists.
Qed.

(** X3.  [isUserInQueue] changes nothing; it answers "not queued" exactly
    when the user has an entry in no queue, and otherwise names the first
    modality, in the order video, audio, text, in which the user has one. *)
Theorem isUserInQueue_first_modality u w : isUserInQueue_post u w.
Proof.
  unfold isUserInQueue_post, inNoQueue, isUserInQueue, scoreIn, queueOf. run_M.
  destruct (zscore_list u (q_video (redis w))) eqn:Hv; simpl.
  { split; [done|]. split; [by eexists|]. intros []; simpl; lia. }
  destruct (zscore_list u (q_audio (redis w))) eqn:Ha; simpl.
  { split; [done|]. split; [by eexists|]. intros []; simpl; (done || lia). }
  destruct (zscore_list u (q_text (redis w))) eqn:Ht; simpl.
  { split; [done|]. split; [by eexists|]. intros []; simpl; (done || lia). }
  split; [done|]. by intros [].
Qed.

Lemma removeFromQueue_scoreIn u t t' x w :
  scoreIn t' x (removeFromQueue u t w).2 =
    if bool_decide (t' = t ∧ x = u) then None else scoreIn t' x w.
Proof.
  unfold scoreIn, queueOf. rewrite removeFromQueue_redis, zget_set_queue_user.
  destruct (decide (t' = t)) as [->|Hne].
  - rewrite zget_zput_eq, zscore_list_zrem.
    case_bool_decide as Hx.
    + apply list_elem_of_singleton in Hx. by rewrite bool_decide_eq_true_2.
    + rewrite bool_decide_eq_false_2; [done|]. intros [_ ->]. apply Hx. left.
  - rewrite zget_zput_ne by (by intros ?%getQueueKey_inj).
    rewrite bool_decide_eq_false_2; [done | tauto].
Qed.

Lemma removeFromQueue_userDataOf u t x w :
  userDataOf x (removeFromQueue u t w).2 =
    if bool_decide (x = u) then None else userDataOf x w.
Proof.
  unfold userDataOf, userDataKey. rewrite removeFromQueue_redis. simpl.
  rewrite queue_user_zput, lookup_delete.
  case_decide as H; case_bool_decide as H'; try done.
  - injection H as ->. done.
  - by subst.
Qed.

(** X4.  After [removeFromAllQueues u] the user has no entry in any queue
    and no sidecar record, [isUserInQueue u] answers "not queued", and the
    entries and sidecar records of every other user are as before. *)
Theorem removeFromAllQueues_clears u w : removeFromAllQueues_post u w.
Proof.
  unfold removeFromAllQueues_post. cbv zeta.
  assert (Hno : inNoQueue u (removeFromAllQueues u w).2).
  { intros t. rewrite removeFromAllQueues_eq, !removeFromQueue_scoreIn.
    destruct t; repeat (case_bool_decide; try done); tauto. }
  split_and!.
  - exact Hno.
  - rewrite removeFromAllQueues_eq, removeFromQueue_userDataOf.
    by rewrite bool_decide_eq_true_2.
  - by apply isUserInQueue_None.
  - intros x Hx. rewrite removeFromAllQueues_eq. split.
    + intros t. rewrite !removeFromQueue_scoreIn.
      repeat (case_bool_decide; try done); tauto.
    + rewrite !removeFromQueue_userDataOf. by rewrite bool_decide_eq_false_2.
Qed.

Lemma zscore_list_filter (f : string * Z → bool) x z :
  NoDup (members z) →
  zscore_list x (List.filter f z) =
    match zscore_list x z with
    | Some s => if f (x, s) then Some s else None
    | None => None
    end.
Proof.
  induction z as [|[y sy] z IH]; simpl; [done|].
  intros [Hy Hz]%NoDup_cons. case_bool_decide as Hx.
  - subst y. destruct (f (x, sy)) eqn:Hf; simpl.
    + by rewrite bool_decide_eq_true_2.
    + rewrite IH by done. apply zscore_list_None in Hy. by rewrite Hy.
  - destruct (f (y, sy)); simpl; [rewrite bool_decide_eq_false_2 by done|]; by apply IH.
Qed.

Lemma cleanupStaleEntries_one_scoreIn cutoff t t' x w :
  NoDup (members (queueOf t w)) →
  scoreIn t' x (cleanupStaleEntries_one cutoff t w).2 =
    if bool_decide (t' = t) then
      match scoreIn t x w with
      | Some s => if stale cutoff s then None else Some s
      | None => None
      end
    else scoreIn t' x w.
Proof.
  intros Hnd. unfold scoreIn, queueOf. rewrite cleanupStaleEntries_one_redis.
  case_bool_decide as Ht.
  - subst. rewrite zget_zput_eq. unfold zremrangebyscore_list.
    rewrite zscore_list_filter by done. unfold queueOf, stale.
    destruct (zscore_list x _) as [s|]; [|done]. simpl.
    by destruct ((0 <=? s)%Z && (s <=? cutoff)%Z).
  - by rewrite zget_zput_ne by (by intros ?%getQueueKey_inj).
Qed.

Lemma cleanupStaleEntries_one_queueOf cutoff t t' w :
  queueOf t' (cleanupStaleEntries_one cutoff t w).2 =
    if bool_decide (t' = t) then zremrangebyscore_list 0 cutoff (queueOf t w)
    else queueOf t' w.
Proof.
  unfold queueOf. rewrite cleanupStaleEntries_one_redis.
  case_bool_decide as Ht.
  - subst. by rewrite zget_zput_eq.
  - by rewrite zget_zput_ne by (by intros ?%getQueueKey_inj).
Qed.

(** X5.  [cleanupStaleEntries], in a world whose queues hold a user at most
    once: with the cutoff 60 s before the time of the call, an entry is left
    exactly when its score is negative or above the cutoff; the number
    returned is the number of entries removed over the three queues; no
    sidecar record is deleted, also not those of the users swept out. *)
Theorem cleanupStaleEntries_sweeps w : queues_wf w → cleanupStaleEntries_post w.
Proof.
  intros Hwf. unfold cleanupStaleEntries_post. cbv zeta.
  rewrite cleanupStaleEntries_eq. cbv zeta. cbn [fst snd].
  set (cutoff := clock w (ticks w) - QUEUE_TIMEOUT).
  set (w1 := (cleanupStaleEntries_one cutoff VIDEO (tick w)).2).
  set (w2 := (cleanupStaleEntries_one cutoff AUDIO w1).2).
  assert (Hwf0 : queues_wf (tick w)) by exact Hwf.
  assert (Hwf1 : queues_wf w1) by by apply cleanupStaleEntries_one_wf.
  assert (Hwf2 : queues_wf w2) by by apply cleanupStaleEntries_one_wf.
  assert (Hnd : ∀ v t, queues_wf v → NoDup (members (queueOf t v))).
  { intros v t (_ & H & _). apply H. }
  split_and!.
  - intros t x.
    rewrite (cleanupStaleEntries_one_scoreIn cutoff TEXT t x w2) by by apply Hnd.
    unfold w2.
    rewrite !(cleanupStaleEntries_one_scoreIn cutoff AUDIO _ x w1) by by apply Hnd.
    unfold w1.
    rewrite !(cleanupStaleEntries_one_scoreIn cutoff VIDEO _ x (tick w)) by by apply Hnd.
    change (scoreIn ?a x (tick w)) with (scoreIn a x w).
    destruct t; simpl; done.
  - rewrite !cleanupStaleEntries_one_result.
    rewrite !cleanupStaleEntries_one_queueOf. simpl.
    unfold w2. rewrite !cleanupStaleEntries_one_queueOf. simpl.
    unfold w1. rewrite !cleanupStaleEntries_one_queueOf. simpl.
    done.
  - rewrite cleanupStaleEntries_one_redis, queue_user_zput. unfold w2.
    rewrite cleanupStaleEntries_one_redis, queue_user_zput. unfold w1.
    by rewrite cleanupStaleEntries_one_redis, queue_user_zput.
Qed.

Lemma zscore_list_Some_elem x s z : zscore_list x z = Some s → (x, s) ∈ z.
Proof.
  induction z as [|[y sy] z IH]; simpl; [done|].
  case_bool_decide as Hy.
  - intros [= ->]. subst. left.
  - intros H. right. by apply IH.
Qed.

Lemma entry_le_score a b : entry_le a b → (a.2 ≤ b.2)%Z.
Proof.
  unfold entry_le, entry_leb. intros [H|H]%orb_true_iff.
  - apply Z.ltb_lt in H. lia.
  - apply andb_true_iff in H as [H _]. apply Z.eqb_eq in H. lia.
Qed.

(** X6.  When [findMatch u t] returns a partner record in a world with
    ordered, duplicate-free queues, the caller and the partner were the two
    longest-waiting users: the partner differs from the caller, the record
    returned is its sidecar record, and everybody still in the queue has a
    score at least as high as both of theirs. *)
Theorem findMatch_pairs_oldest u t p w :
  queues_wf w → (findMatch u t w).1 = Some p → findMatch_fifo u t p w.
Proof.
  intros (Hsort & Hnd & _). unfold findMatch_fifo. cbv zeta. rewrite findMatch_eq.
  case_bool_decide as Hlock; [done|]. cbv zeta.
  specialize (Hsort (getQueueKey t)). specialize (Hnd (getQueueKey t)).
  fold (queueOf t w) in Hsort, Hnd. unfold scoreIn.
  destruct (queueOf t w) as [|[u0 s0] [|[u1 s1] z]] eqn:Hz; try done.
  case_bool_decide as Hin; [|done].
  assert (Hne : u0 ≠ u1).
  { simpl in Hnd. apply NoDup_cons in Hnd as [Hnd _]. intros ->. apply Hnd. left. }
  destruct (userDataOf (if bool_decide (u0 = u) then u1 else u0) w) as [p'|] eqn:Hp;
    cbn [fst snd]; [|done].
  intros [= ->].
  apply StronglySorted_inv in Hsort as [Hsort H0].
  apply StronglySorted_inv in Hsort as [_ H1].
  rewrite Forall_forall in H0, H1.
  assert (H01 : (s0 ≤ s1)%Z) by (apply (entry_le_score (u0, s0) (u1, s1)), H0; left).
  assert (Hrest : ∀ x sx,
    zscore_list x (zrem_list [u0; u1] ((u0, s0) :: (u1, s1) :: z)) = Some sx → (s1 ≤ sx)%Z).
  { intros x sx Hx. rewrite zscore_list_zrem in Hx.
    case_bool_decide as Hx01; [done|].
    rewrite elem_of_pair in Hx01. simpl in Hx.
    rewrite !bool_decide_eq_false_2 in Hx by (intros ->; apply Hx01; auto).
    apply zscore_list_Some_elem in Hx.
    apply (entry_le_score (u1, s1) (x, sx)), H1, Hx. }
  assert (Hq : queueOf t (with_metrics
      (λ l, l ++ [updateQueueSize t (length (zrem_list [u0; u1] ((u0, s0) :: (u1, s1) :: z)));
                  trackQueueLeave t "matched"])
      (unlocked t (with_redis (zput (getQueueKey t)
         (zrem_list [u0; u1] ((u0, s0) :: (u1, s1) :: z)))
         (with_redis (set_locks (cons t)) w))))
     = zrem_list [u0; u1] ((u0, s0) :: (u1, s1) :: z)).
  { unfold queueOf, unlocked. simpl. by rewrite zget_set_locks, zget_zput_eq. }
  rewrite Hq. simpl.
  apply elem_of_pair in Hin as [->| ->].
  - exists u1, s0, s1. rewrite bool_decide_eq_true_2 in Hp |- * by done.
    rewrite (bool_decide_eq_false_2 (u0 = u1)) by done.
    rewrite (bool_decide_eq_true_2 (u1 = u1)) by done.
    split_and!; try done. intros x sx Hx. specialize (Hrest x sx Hx). lia.
  - exists u0, s1, s0. rewrite bool_decide_eq_false_2 in Hp by done.
    rewrite (bool_decide_eq_false_2 (u0 = u1)) by done.
    rewrite (bool_decide_eq_true_2 (u1 = u1)) by done.
    rewrite (bool_decide_eq_true_2 (u0 = u0)) by done.
    split_and!; try done. intros x sx Hx. specialize (Hrest x sx Hx). lia.
Qed.

Lemma entry_leb_later u now x s : (s < now)%Z → entry_leb (u, now) (x, s) = false.
Proof.
  intros Hlt. unfold entry_leb. simpl. apply orb_false_iff. split.
  - apply Z.ltb_ge. lia.
  - apply andb_false_iff. left. apply Z.eqb_neq. lia.
Qed.

Lemma zinsert_later u now z :
  Forall (λ e, (e.2 < now)%Z) z → zinsert (u, now) z = z ++ [(u, now)].
Proof.
  induction 1 as [|[x s] z Hx Hz IH]; simpl; [done|].
  rewrite entry_leb_later by done. by rewrite IH.
Qed.

Lemma zrank_list_app_absent m z e :
  zscore_list m z = None → zrank_list m (z ++ [e]) = (if bool_decide (e.1 = m) then Some (length z) else None).
Proof.
  induction z as [|[x s] z IH]; simpl.
  - intros _. destruct e as [y sy]. simpl. by case_bool_decide.
  - destruct (decide (x = m)) as [Hx|Hx].
    + by rewrite (bool_decide_eq_true_2 (x = m)).
    + rewrite !(bool_decide_eq_false_2 (x = m)) by done.
      intros Hz. rewrite IH by done. by case_bool_decide.
Qed.

Lemma zrank_list_app_other m z e :
  e.1 ≠ m → zrank_list m (z ++ [e]) = zrank_list m z.
Proof.
  intros He. induction z as [|[x s] z IH]; simpl.
  - destruct e as [y sy]. simpl in *. by rewrite bool_decide_eq_false_2.
  - case_bool_decide; [done|]. by rewrite IH.
Qed.

(** X7.  A user without entry in the queue of [t] who joins when every
    entry there has a score below the current time is placed last: its
    position and the size of the queue are both the old size plus one, and
    the position of every other user is unchanged. *)
Theorem addToQueue_joins_at_back u s t w :
  scoreIn t u w = None →
  Forall (λ e, (e.2 < clock w (ticks w))%Z) (queueOf t w) →
  joins_at_back u s t w.
Proof.
  intros Hu Hlate. unfold joins_at_back. cbv zeta.
  assert (Hq : zget (getQueueKey t) (redis (addToQueue u s t w).2)
               = queueOf t w ++ [(u, clock w (ticks w))]).
  { rewrite addToQueue_redis, Hu, zget_zput_eq. unfold zadd_list.
    rewrite zrem_list_absent by done. by apply zinsert_later. }
  unfold getQueuePosition, getQueueSize. run_M. rewrite Hq.
  split_and!.
  - rewrite zrank_list_app_absent by done. simpl.
    rewrite bool_decide_eq_true_2 by done. lia.
  - rewrite length_app. simpl. lia.
  - intros x Hx. by rewrite zrank_list_app_other by done.
Qed.

(** X8.  For a user without entry in the queue of [t], [addToQueue]
    followed by [removeFromQueue] returns true twice, leaves the three queues
    as they were, leaves no sidecar record of the user and keeps those of the
    others. *)
Theorem enqueue_then_dequeue u s t w :
  scoreIn t u w = None → enqueue_dequeue_post u s t w.
Proof.
  intros Hu. unfold enqueue_dequeue_post. cbv zeta.
  destruct (addToQueue_fresh u s t w Hu) as (Hadd & Hq1 & Hd1 & _).
  pose proof (addToQueue_removeFromQueue u s t w Hu) as Hround.
  split_and!.
  - exact Hadd.
  - rewrite removeFromQueue_result. fold (queueOf t (addToQueue u s t w).2).
    rewrite Hq1. unfold zadd_list. rewrite zrem_list_absent by done.
    rewrite zrem_list_zinsert by done.
    apply bool_decide_eq_true.
    assert (length (zinsert (u, clock w (ticks w)) (queueOf t w)) = S (length (queueOf t w))).
    { clear. induction (queueOf t w) as [|e z IH]; simpl; [done|].
      destruct (entry_leb _ e); simpl; [done | by rewrite IH]. }
    lia.
  - unfold waiting.
    pose proof (removeFromQueue_other_queue u t) as Hother.
    assert (Hall : ∀ t', queueOf t' (removeFromQueue u t (addToQueue u s t w).2).2 = queueOf t' w).
    { intros t'. destruct (decide (t' = t)) as [->|Hne]; [done|].
      rewrite Hother by done. unfold queueOf. rewrite addToQueue_redis, Hu.
      rewrite zget_zput_ne by (by intros ?%getQueueKey_inj).
      by rewrite zget_set_queue_user. }
    pose proof (Hall VIDEO) as Hv. pose proof (Hall AUDIO) as Ha. pose proof (Hall TEXT) as Ht.
    unfold queueOf in Hv, Ha, Ht. simpl in Hv, Ha, Ht. by rewrite Hv, Ha, Ht.
  - rewrite removeFromQueue_userDataOf. by rewrite bool_decide_eq_true_2.
  - intros x Hx. rewrite removeFromQueue_userDataOf, bool_decide_eq_false_2 by done.
    by rewrite Hd1, bool_decide_eq_false_2.
Qed.

Lemma addToQueue_locks u s t w : locks (redis (addToQueue u s t w).2) = locks (redis w).
Proof.
  rewrite addToQueue_redis. destruct (scoreIn t u w); [done|]. by destruct t.
Qed.

Lemma filter_cons_absent (t : SessionType) l :
  t ∉ l → List.filter (λ x, negb (bool_decide (x = t))) (t :: l) = l.
Proof.
  intros Ht. simpl. rewrite bool_decide_eq_true_2 by done. simpl.
  induction l as [|y l IH]; simpl; [done|].
  apply not_elem_of_cons in Ht as [Hy Hl].
  rewrite bool_decide_eq_false_2 by done. simpl. by rewrite IH.
Qed.

Lemma findMatch_locks u t w : locks (redis (findMatch u t w).2) = locks (redis w).
Proof.
  rewrite findMatch_eq.
  case_bool_decide as Hlock; [done|]. cbv zeta.
  assert (H0 : locks (redis (unlocked t (with_redis (set_locks (cons t)) w))) = locks (redis w)).
  { unfold unlocked. simpl. by apply filter_cons_absent. }
  destruct (queueOf t w) as [|[u0 s0] [|[u1 s1] z]]; try exact H0.
  case_bool_decide; [|exact H0].
  assert (H1 : ∀ z', locks (redis (unlocked t (with_redis (zput (getQueueKey t) z')
                 (with_redis (set_locks (cons t)) w)))) = locks (redis w)).
  { intros z'. unfold unlocked. simpl.
    replace (locks (zput (getQueueKey t) z' (set_locks (cons t) (redis w))))
      with (t :: locks (redis w)) by (by destruct t).
    by apply filter_cons_absent. }
  destruct (userDataOf _ w); cbn [snd].
  - apply H1.
  - rewrite addToQueue_locks. apply H1.
Qed.

(** X9.  [findMatch] never leaves the matching lock in another state than it
    found it; called while the lock of the modality is held, it returns null
    and changes nothing at all. *)
Theorem findMatch_releases_lock u t w : findMatch_lock_post u t w.
Proof.
  unfold findMatch_lock_post. split.
  - intros Hin. by rewrite findMatch_eq, bool_decide_eq_true_2.
  - apply findMatch_locks.
Qed.

Lemma zrem_list_length_lt m z :
  (length (zrem_list [m] z) ≤ length z)%nat ∧
  ((length (zrem_list [m] z) < length z)%nat ↔ is_Some (zscore_list m z)).
Proof.
  unfold zrem_list. induction z as [|[x s] z [IH1 IH2]]; simpl.
  - split; [lia|]. split; [lia | by intros [? ?]].
  - case_bool_decide as Hx.
    + apply list_elem_of_singleton in Hx. subst. simpl.
      rewrite bool_decide_eq_true_2 by done.
      split; [lia|]. split; [by eexists | lia].
    + simpl. rewrite bool_decide_eq_false_2
        by (intros ->; apply Hx; left).
      split; [lia|]. rewrite <- IH2. lia.
Qed.

(** X10.  [cancelMatching u t] returns true exactly when [u] had an entry in
    the queue of [t]; afterwards the entry and the sidecar record of [u] are
    gone, and the "cancelled" leave is counted exactly when true is
    returned. *)
Theorem cancelMatching_removes u t w : cancelMatching_post u t w.
Proof.
  unfold cancelMatching_post. cbv zeta.
  unfold cancelMatching, mbind, M_bind, mret, M_ret, track, modify.
  pose proof (removeFromQueue_result u t w) as Hres.
  pose proof (removeFromQueue_scoreIn u t t u w) as Hsc.
  pose proof (removeFromQueue_userDataOf u t u w) as Hud.
  rewrite bool_decide_eq_true_2 in Hsc by done.
  rewrite bool_decide_eq_true_2 in Hud by done.
  assert (Hm : ∃ l, metrics (removeFromQueue u t w).2 = metrics w ++ l
                    ∧ trackQueueLeave t "cancelled" ∉ l).
  { unfold removeFromQueue. run_M.
    destruct (queue_user (redis w) !! userDataKey u); simpl.
    - rewrite <- app_assoc. eexists. split; [done|]. cbn [app].
      rewrite !not_elem_of_cons. split_and!; [done | done | apply not_elem_of_nil].
    - eexists. split; [done|]. cbn [app].
      rewrite !not_elem_of_cons. split_and!; [done | apply not_elem_of_nil]. }
  destruct (removeFromQueue u t w) as [removed w1]. cbn [fst snd] in *.
  destruct Hm as (l & Hl & Hnot).
  assert (Hiff : removed = true ↔ is_Some (scoreIn t u w)).
  { rewrite Hres. rewrite bool_decide_eq_true.
    destruct (zrem_list_length_lt u (zget (getQueueKey t) (redis w))) as [Hle Hlt].
    unfold scoreIn, queueOf. rewrite <- Hlt. lia. }
  destruct removed; cbn [fst snd].
  - split_and!; [done | done | done |].
    split; [done|]. intros _. simpl. rewrite Hl, <- app_assoc, drop_app_length.
    apply elem_of_app. right. left.
  - split_and!; [done | done | done |].
    split; [|done]. rewrite Hl, drop_app_length. done.
Qed.

(** *** Instances *)

Lemma world_partner_waiting_wf : queues_wf world_partner_waiting.
Proof. apply addToQueue_wf, boot_wf. Qed.

Lemma qm_reachable_wf_witness :
  qm_reachable world_partner_waiting ∧ queues_wf world_partner_waiting.
Proof.
  assert (H : qm_reachable world_partner_waiting) by apply qm_addToQueue, qm_boot.
  split; [exact H|]. exact (qm_reachable_wf world_partner_waiting H).
Defined.

Lemma cleanupStaleEntries_sweeps_witness :
  queues_wf world_partner_waiting ∧ cleanupStaleEntries_post world_partner_waiting.
Proof.
  split; [exact world_partner_waiting_wf|].
  exact (cleanupStaleEntries_sweeps world_partner_waiting world_partner_waiting_wf).
Defined.

Lemma findMatch_pairs_oldest_witness :
  let p := mkQueueUser "p" "sp" 0 in
  let w := (addToQueue "u" "su" VIDEO world_partner_waiting).2 in
  queues_wf w ∧ (findMatch "u" VIDEO w).1 = Some p ∧ findMatch_fifo "u" VIDEO p w.
Proof.
  intros p w.
  assert (H1 : queues_wf w) by apply addToQueue_wf, world_partner_waiting_wf.
  assert (H2 : (findMatch "u" VIDEO w).1 = Some p) by (by vm_compute).
  split_and!; [exact H1 | exact H2 |].
  exact (findMatch_pairs_oldest "u" VIDEO p w H1 H2).
Defined.

Lemma addToQueue_joins_at_back_witness :
  let w := world_partner_waiting in
  scoreIn VIDEO "u" w = None
  ∧ Forall (λ e, (e.2 < clock w (ticks w))%Z) (queueOf VIDEO w)
  ∧ joins_at_back "u" "su" VIDEO w.
Proof.
  intros w.
  assert (H1 : scoreIn VIDEO "u" w = None) by (by vm_compute).
  assert (H2 : Forall (λ e, (e.2 < clock w (ticks w))%Z) (queueOf VIDEO w)).
  { apply (bool_decide_unpack _). by vm_compute. }
  split_and!; [exact H1 | exact H2 |].
  exact (addToQueue_joins_at_back "u" "su" VIDEO w H1 H2).
Defined.

Lemma enqueue_then_dequeue_witness :
  scoreIn VIDEO "u" world_partner_waiting = None
  ∧ enqueue_dequeue_post "u" "su" VIDEO world_partner_waiting.
Proof.
  assert (H1 : scoreIn VIDEO "u" world_partner_waiting = None) by (by vm_compute).
  split; [exact H1|].
  exact (enqueue_then_dequeue "u" "su" VIDEO world_partner_waiting H1).
Defined.

(** ** Sessions *)

Lemma getActiveSession_session u w :
  session (redis (getActiveSession u w).2) = session (redis w).
Proof.
  rewrite getActiveSession_eq.
  destruct (session_user (redis w) !! u) as [sid|]; [|done].
  case_bool_decide; [done|]. by destruct (session (redis w) !! sid).
Qed.

Lemma getActiveSession_pointer_ne u x w :
  x ≠ u → session_user (redis (getActiveSession u w).2) !! x = session_user (redis w) !! x.
Proof.
  intros Hx. rewrite getActiveSession_eq.
  destruct (session_user (redis w) !! u) as [sid|]; [|done].
  case_bool_decide; [done|]. destruct (session (redis w) !! sid); [done|].
  cbn [snd redis with_redis session_user set_session_user]. by rewrite lookup_delete_ne.
Qed.

Lemma getActiveSession_idem u w :
  getActiveSession u (getActiveSession u w).2 = getActiveSession u w.
Proof.
  rewrite !getActiveSession_eq.
  destruct (session_user (redis w) !! u) as [sid|] eqn:Hu.
  - case_bool_decide as Hsid.
    + cbn [snd]. by rewrite Hu, bool_decide_eq_true_2.
    + destruct (session (redis w) !! sid) as [d|] eqn:Hd; cbn [snd].
      * by rewrite Hu, bool_decide_eq_false_2, Hd.
      * cbn [redis with_redis session_user set_session_user]. by rewrite lookup_delete_eq.
  - cbn [snd]. by rewrite Hu.
Qed.

(** X11.  A lookup [getActiveSession u] is stable: a second lookup gives the
    same answer and changes nothing.  It never changes a session record or
    the reverse pointer of another user; an answer is the record that the
    non-empty reverse pointer of [u] names, with the world untouched; without
    an answer the reverse pointer of [u] is absent afterwards (a dangling one
    is deleted) or empty. *)
Theorem getActiveSession_stable u w : getActiveSession_post u w.
Proof.
  unfold getActiveSession_post. cbv zeta. rewrite !getActiveSession_eq.
  destruct (session_user (redis w) !! u) as [sid|] eqn:Hu.
  - case_bool_decide as Hsid.
    + cbn [fst snd]. rewrite Hu, bool_decide_eq_true_2 by done.
      split_and!; [done | done | done |]. right. by rewrite Hsid.
    + destruct (session (redis w) !! sid) as [d|] eqn:Hd; cbn [fst snd].
      * rewrite Hu, bool_decide_eq_false_2, Hd by done.
        split_and!; [done | done | done | done |]. by exists sid.
      * cbn [redis with_redis session_user set_session_user session].
        rewrite lookup_delete_eq.
        split_and!; [done | done | | by left].
        intros x Hx. by rewrite lookup_delete_ne.
  - cbn [fst snd]. rewrite Hu. split_and!; [done | done | done | by left].
Qed.

Lemma getActiveSession_fst_eq u w w' :
  session_user (redis w') !! u = session_user (redis w) !! u →
  (∀ sid, session_user (redis w) !! u = Some sid →
          session (redis w') !! sid = session (redis w) !! sid) →
  (getActiveSession u w').1 = (getActiveSession u w).1.
Proof.
  intros Hp Hs. rewrite !getActiveSession_eq, Hp.
  destruct (session_user (redis w) !! u) as [sid|]; [|done].
  case_bool_decide; [done|]. rewrite (Hs sid eq_refl).
  by destruct (session (redis w) !! sid).
Qed.

Lemma Redis_eq (r r' : Redis) :
  q_video r = q_video r' → q_audio r = q_audio r' → q_text r = q_text r' →
  queue_user r = queue_user r' → session r = session r' →
  session_user r = session_user r' → locks r = locks r' → r = r'.
Proof. destruct r, r'. simpl. congruence. Qed.

Lemma sessions_wf_redis w w' : redis w' = redis w → sessions_wf w → sessions_wf w'.
Proof. unfold sessions_wf, pointsTo. by intros ->. Qed.

Lemma getActiveSession_wf u w :
  sessions_wf w →
  getActiveSession u w =
    (match session_user (redis w) !! u with
     | Some sid => session (redis w) !! sid
     | None => None
     end, w).
Proof.
  intros [Hrec Hptr]. rewrite getActiveSession_eq.
  destruct (session_user (redis w) !! u) as [sid|] eqn:Hu; [|done].
  destruct (Hptr u sid Hu) as (d & Hd & _).
  destruct (Hrec sid d Hd) as (_ & Hne & _).
  rewrite bool_decide_eq_false_2 by done. by rewrite Hd.
Qed.

Lemma partner_wf w u p :
  sessions_wf w →
  (getSessionPartner u w).1 = Some p →
  ∃ sid d, pointsTo u sid w ∧ pointsTo p sid w ∧ session (redis w) !! sid = Some d ∧
           id d = sid ∧ memberOf u d ∧ memberOf p d ∧
           p = (if bool_decide (user1Id d = u) then user2Id d else user1Id d).
Proof.
  intros Hwf. rewrite getSessionPartner_eq, getActiveSession_wf by done.
  destruct Hwf as [Hrec Hptr].
  cbn [fst]. destruct (session_user (redis w) !! u) as [sid|] eqn:Hu; [|done].
  destruct (session (redis w) !! sid) as [d|] eqn:Hd; [|done].
  simpl. intros [= <-]. exists sid, d.
  destruct (Hrec sid d Hd) as (Hid & _ & P1 & P2).
  destruct (Hptr u sid Hu) as (d' & Hd' & Hmem).
  rewrite Hd in Hd'. injection Hd' as <-.
  unfold memberOf. case_bool_decide; split_and!; auto.
Qed.

(** X12.  In a consistent session store the partner relation is symmetric:
    if [getSessionPartner u] answers [p] then [getSessionPartner p] answers
    [u]. *)
Theorem getSessionPartner_symmetric w u p :
  sessions_wf w →
  (getSessionPartner u w).1 = Some p → (getSessionPartner p w).1 = Some u.
Proof.
  intros Hwf Hp.
  destruct (partner_wf w u p Hwf Hp) as (sid & d & Pu & Pp & Hd & _ & Mu & Mp & Hpd).
  rewrite getSessionPartner_eq, getActiveSession_wf by done.
  cbn [fst]. unfold pointsTo in Pp. rewrite Pp, Hd. simpl. f_equal.
  revert Hpd. destruct Mu as [->| ->].
  - rewrite bool_decide_eq_true_2 by done. intros ->. by case_bool_decide.
  - case_bool_decide as H1; intros ->.
    + by rewrite bool_decide_eq_true_2.
    + by rewrite bool_decide_eq_true_2.
Qed.

Lemma endSessionForUser_wf_eq w u p :
  sessions_wf w →
  (getSessionPartner u w).1 = Some p →
  ∃ sid d, session (redis w) !! sid = Some d ∧ memberOf u d ∧ memberOf p d ∧
    (∀ x, memberOf x d → x = u ∨ x = p) ∧
    (∀ x sid', x ≠ u → x ≠ p → pointsTo x sid' w → sid' ≠ sid) ∧
    endSessionForUser u w = endSession sid ENDED w.
Proof.
  intros Hwf Hp.
  destruct (partner_wf w u p Hwf Hp) as (sid & d & Pu & Pp & Hd & Hid & Mu & Mp & Hpd).
  exists sid, d. split_and!; try done.
  - intros x Hx. revert Hpd. destruct Mu as [->| ->], Hx as [->| ->]; auto.
    + rewrite bool_decide_eq_true_2 by done. auto.
    + case_bool_decide; auto.
  - intros x sid' Hxu Hxp Hx ->. destruct Hwf as [_ Hptr].
    destruct (Hptr x sid Hx) as (d' & Hd' & Hm). rewrite Hd in Hd'. injection Hd' as <-.
    revert Hpd. destruct Mu as [->| ->], Hm as [->| ->]; try done.
    + rewrite bool_decide_eq_true_2 by done. congruence.
    + case_bool_decide; congruence.
  - unfold endSessionForUser, mbind, M_bind, mret, M_ret.
    rewrite getActiveSession_wf by done. unfold pointsTo in Pu. rewrite Pu, Hd.
    by rewrite Hid.
Qed.

Lemma endSessionForUser_wf w u p :
  sessions_wf w →
  (getSessionPartner u w).1 = Some p →
  let w' := (endSessionForUser u w).2 in
  if db_end w (db_calls w) then
    (endSessionForUser u w).1 = true ∧
    (isUserInSession u w').1 = false ∧ (isUserInSession p w').1 = false ∧
    (∀ x, x ≠ u → x ≠ p → (getActiveSession x w').1 = (getActiveSession x w).1)
  else (endSessionForUser u w).1 = false ∧ redis w' = redis w.
Proof.
  intros Hwf Hp. cbv zeta.
  destruct (endSessionForUser_wf_eq w u p Hwf Hp) as (sid & d & Hd & Mu & Mp & Hmem & Hoth & ->).
  unfold isUserInSession, mbind, M_bind, mret, M_ret.
  rewrite endSession_eq, Hd. cbv zeta.
  destruct (db_end w (db_calls w)); cbn [fst snd]; [|done].
  set (w' := with_metrics _ _).
  assert (Hsu : ∀ x, memberOf x d → session_user (redis w') !! x = None).
  { intros x Hx. unfold w'. simpl. destruct Hx as [->| ->].
    - destruct (decide (user2Id d = user1Id d)) as [->|Hne].
      + apply lookup_delete_eq.
      + rewrite lookup_delete_ne by done. apply lookup_delete_eq.
    - apply lookup_delete_eq. }
  split_and!; [done | | |].
  - by rewrite getActiveSession_eq, (Hsu u Mu).
  - by rewrite getActiveSession_eq, (Hsu p Mp).
  - intros x Hxu Hxp.
    assert (Hx : ¬ memberOf x d).
    { intros Hx. destruct (Hmem x Hx); done. }
    apply getActiveSession_fst_eq.
    + unfold w'. simpl. rewrite !lookup_delete_ne; [done | |];
        intros <-; apply Hx; unfold memberOf; auto.
    + intros sid' Hx'. unfold w'. simpl.
      rewrite lookup_delete_ne; [done|]. intros <-. by apply (Hoth x sid).
Qed.

(** X13.  [endSessionForUser u] for a user in session with [p], in a
    consistent session store: when the database acknowledges the update the
    call returns true, neither [u] nor [p] is in a session afterwards and the
    session of every other user is what it was; when the database does not
    acknowledge, the call returns false and the store is unchanged. *)
Theorem endSessionForUser_ends_for_both w u p :
  sessions_wf w →
  (getSessionPartner u w).1 = Some p →
  endSessionForUser_post u p w.
Proof. intros Hwf Hp. apply endSessionForUser_wf; done. Qed.

Section SessionProperties.

Variable clk : nat -> Z.
Variable dbc : nat -> option string.
Variable dbe : nat -> bool.
Hypothesis dbc_fresh : fresh_ids dbc.

Lemma sm_reachable_id h w :
  sm_reachable clk dbc dbe h w → ∀ sid d, session (redis w) !! sid = Some d → id d = sid.
Proof.
  induction 1 as [|h w t a b _ IH|h w sid status _ IH|h w u _ IH]; intros sid' d'.
  - simpl. by rewrite lookup_empty.
  - rewrite createSession_eq. cbv zeta.
    pose proof (getActiveSession_session a w) as Hs1.
    pose proof (getActiveSession_session b (getActiveSession a w).2) as Hs2.
    destruct (bool_decide _ || bool_decide _); cbn [fst snd].
    { rewrite Hs2, Hs1. apply IH. }
    destruct (db_create _ _) as [sid|]; cbn [fst snd].
    + unfold sessionWritten.
      cbn [redis with_metrics with_redis tick db_called session set_session set_session_user].
      rewrite lookup_insert. case_decide as Hs.
      * intros [= <-]. by subst.
      * rewrite Hs2, Hs1. apply IH.
    + cbn [redis db_called]. rewrite Hs2, Hs1. apply IH.
  - rewrite endSession_eq. destruct (session (redis w) !! sid) as [d|]; [|apply IH].
    cbv zeta. destruct (db_end w (db_calls w)); cbn [fst snd].
    + cbn [redis with_metrics with_redis tick db_called session set_session set_session_user].
      rewrite lookup_delete. case_decide; [done | apply IH].
    + apply IH.
  - rewrite getActiveSession_session. apply IH.
Qed.

(** X14.  In every world that [createSession], [endSession] and
    [getActiveSession] reach from an empty store - the database handing out
    fresh, non-empty ids - every session record is stored under its own id
    and no user is a member of two records. *)
Theorem sm_reachable_one_session h w :
  sm_reachable clk dbc dbe h w → one_session_per_user w.
Proof.
  intros Hreach. split; [by apply (sm_reachable_id h)|].
  destruct (sm_reachable_inv clk dbc dbe dbc_fresh _ _ Hreach) as [_ Hrec _ _].
  intros u sid1 sid2 d1 d2 H1 H2 M1 M2.
  destruct (Hrec sid1 d1 H1) as (_ & _ & P1 & P1').
  destruct (Hrec sid2 d2 H2) as (_ & _ & P2 & P2').
  unfold pointsTo in *. destruct M1 as [->| ->], M2 as [E|E]; rewrite E in *; congruence.
Qed.

Lemma getActiveSession_is_Some h u w :
  sm_inv dbc h w → is_Some (getActiveSession u w).1 ↔ ¬ free u w.
Proof.
  intros Hinv. rewrite (getActiveSession_inv dbc h) by done. cbn [fst]. unfold free.
  destruct (session_user (redis w) !! u) as [sid|] eqn:Hu.
  - destruct (inv_pointer _ _ _ Hinv u sid Hu) as (d & Hd & _). rewrite Hd.
    split; [done | by eexists].
  - split; [by intros [? ?] | done].
Qed.

Lemma createSession_inv_eq h t a b w :
  sm_inv dbc h w →
  createSession t a b w =
    if bool_decide (free a w) && bool_decide (free b w) then
      match db_create w (db_calls w) with
      | None => (None, db_called w)
      | Some sid => (Some sid, sessionWritten t a b sid (db_called w))
      end
    else (None, w).
Proof.
  intros Hinv. rewrite createSession_eq. cbv zeta.
  pose proof (getActiveSession_is_Some h a w Hinv) as Ha.
  pose proof (getActiveSession_is_Some h b w Hinv) as Hb.
  rewrite (getActiveSession_inv dbc h a w Hinv) in *. cbn [fst snd] in *.
  rewrite (getActiveSession_inv dbc h b w Hinv) in *. cbn [fst snd] in *.
  destruct (decide (free a w)) as [Fa|Fa], (decide (free b w)) as [Fb|Fb].
  - rewrite (bool_decide_eq_true_2 (free a w)), (bool_decide_eq_true_2 (free b w)) by done.
    rewrite !bool_decide_eq_false_2; [done | by rewrite Hb; auto | by rewrite Ha; auto].
  - rewrite (bool_decide_eq_false_2 (free b w)), andb_false_r by done.
    rewrite (bool_decide_eq_true_2 (is_Some (match session_user (redis w) !! b with
      Some sid => _ | None => _ end))) by (by apply Hb).
    by rewrite orb_true_r.
  - rewrite (bool_decide_eq_false_2 (free a w)) by done. cbn [andb].
    by rewrite bool_decide_eq_true_2 by (by apply Ha).
  - rewrite (bool_decide_eq_false_2 (free a w)) by done. cbn [andb].
    by rewrite bool_decide_eq_true_2 by (by apply Ha).
Qed.

(** X15.  [createSession t a b] in such a reachable world succeeds exactly
    when neither user has a reverse pointer and the database issues an id; a
    refusal leaves the store unchanged; after a success the id is the one
    the database issued, both users have the new record as active session,
    each is the partner of the other, and the active session of everybody
    else is unchanged. *)
Theorem createSession_pairs_free_users h t a b w :
  sm_reachable clk dbc dbe h w → createSession_post t a b w.
Proof.
  intros Hreach.
  pose proof (sm_reachable_inv clk dbc dbe dbc_fresh _ _ Hreach) as Hinv.
  unfold createSession_post. cbv zeta.
  rewrite (createSession_inv_eq h) by done.
  destruct (decide (free a w)) as [Fa|Fa]; [|
    rewrite (bool_decide_eq_false_2 (free a w)) by done; cbn [andb fst snd];
    split_and!; [split; [by intros [? ?] | by intros (? & _)] | done | done]].
  destruct (decide (free b w)) as [Fb|Fb]; [|
    rewrite (bool_decide_eq_false_2 (free b w)), andb_false_r by done; cbn [fst snd];
    split_and!; [split; [by intros [? ?] | by intros (_ & ? & _)] | done | done]].
  rewrite (bool_decide_eq_true_2 (free a w)), (bool_decide_eq_true_2 (free b w)) by done.
  cbn [andb].
  destruct (db_create w (db_calls w)) as [sid|] eqn:Hsid; cbn [fst snd].
  2: { split_and!; [split; [by intros [? ?] | by intros (_ & _ & [? ?])] | done | done]. }
  split_and!; [split; [done | by eexists] | done |].
  intros ? [= <-].
  destruct dbc_fresh as [Hinj Hnonempty].
  destruct Hinv as [Hdb Hrec Hptr Hhist]. rewrite Hdb in Hsid.
  assert (Hne : sid ≠ "") by (intros ->; by apply (Hnonempty (db_calls w))).
  assert (Hfresh : session (redis w) !! sid = None).
  { destruct (session (redis w) !! sid) as [d|] eqn:Hd; [|done].
    destruct (Hrec sid d Hd) as (_ & (i & Hi & Hdi) & _).
    pose proof (Hinj _ _ _ Hdi Hsid). lia. }
  set (d := mkActiveSession sid t a b (clock w (ticks w))).
  assert (Hpa : session_user (redis (sessionWritten t a b sid (db_called w))) !! a = Some sid).
  { unfold sessionWritten. simpl. destruct (decide (b = a)) as [->|Hab].
    - by rewrite lookup_insert_eq.
    - rewrite lookup_insert_ne by done. by rewrite lookup_insert_eq. }
  assert (Hpb : session_user (redis (sessionWritten t a b sid (db_called w))) !! b = Some sid).
  { unfold sessionWritten. simpl. by rewrite lookup_insert_eq. }
  assert (Hd : session (redis (sessionWritten t a b sid (db_called w))) !! sid = Some d).
  { unfold sessionWritten. simpl. by rewrite lookup_insert_eq. }
  assert (Ga : (getActiveSession a (sessionWritten t a b sid (db_called w))).1 = Some d).
  { by rewrite getActiveSession_eq, Hpa, bool_decide_eq_false_2, Hd. }
  assert (Gb : (getActiveSession b (sessionWritten t a b sid (db_called w))).1 = Some d).
  { by rewrite getActiveSession_eq, Hpb, bool_decide_eq_false_2, Hd. }
  split_and!; [done | exact Ga | exact Gb | | |].
  - rewrite getSessionPartner_eq. cbn [fst]. rewrite Ga. simpl.
    by rewrite bool_decide_eq_true_2.
  - rewrite getSessionPartner_eq. cbn [fst]. rewrite Gb. simpl.
    by case_bool_decide; subst.
  - intros x Hxa Hxb. apply getActiveSession_fst_eq.
    + unfold sessionWritten. simpl. by rewrite !lookup_insert_ne.
    + intros sid' Hx. unfold sessionWritten. simpl.
      rewrite lookup_insert_ne; [done|]. intros <-.
      destruct (Hptr x sid Hx) as (d' & Hd' & _). congruence.
Qed.

(** X16.  A session created by [createSession] in a reachable world and
    then ended by [endSession] under the id returned, the database
    acknowledging the update: [endSession] returns true and the store is
    again what it was before the session was created. *)
Theorem createSession_endSession_roundtrip h t a b sid status w :
  sm_reachable clk dbc dbe h w →
  (createSession t a b w).1 = Some sid →
  (let w1 := (createSession t a b w).2 in db_end w1 (db_calls w1) = true) →
  create_end_roundtrip t a b sid status w.
Proof.
  intros Hreach.
  pose proof (sm_reachable_inv clk dbc dbe dbc_fresh _ _ Hreach) as Hinv.
  unfold create_end_roundtrip. cbv zeta.
  rewrite (createSession_inv_eq h) by done.
  destruct (decide (free a w)) as [Fa|Fa];
    [|by rewrite (bool_decide_eq_false_2 (free a w)) by done].
  destruct (decide (free b w)) as [Fb|Fb];
    [|by rewrite (bool_decide_eq_false_2 (free b w)), andb_false_r by done].
  rewrite (bool_decide_eq_true_2 (free a w)), (bool_decide_eq_true_2 (free b w)) by done.
  cbn [andb].
  destruct (db_create w (db_calls w)) as [sid'|] eqn:Hsid; cbn [fst snd]; [|done].
  intros [= ->] Hack.
  destruct dbc_fresh as [Hinj Hnonempty].
  destruct Hinv as [Hdb Hrec Hptr Hhist]. rewrite Hdb in Hsid.
  assert (Hfresh : session (redis w) !! sid = None).
  { destruct (session (redis w) !! sid) as [d|] eqn:Hd; [|done].
    destruct (Hrec sid d Hd) as (_ & (i & Hi & Hdi) & _).
    pose proof (Hinj _ _ _ Hdi Hsid). lia. }
  rewrite endSession_eq. unfold sessionWritten in *.
  cbn [redis with_metrics with_redis tick db_called session set_session set_session_user
       db_end db_calls] in *.
  rewrite lookup_insert_eq. cbv zeta.
  rewrite Hack. cbn [fst snd]. split; [done|].
  apply Redis_eq; try done; simpl.
  - by apply delete_insert_id.
  - unfold free in Fa, Fb. apply map_eq. intros k.
    rewrite !lookup_delete, !lookup_insert.
    repeat case_decide; subst; done.
Qed.

Lemma sm_reachable_sessions_wf h w :
  sm_reachable clk dbc dbe h w → sessions_wf w.
Proof.
  intros Hreach.
  pose proof (sm_reachable_id h w Hreach) as Hid.
  destruct (sm_reachable_inv clk dbc dbe dbc_fresh _ _ Hreach) as [_ Hrec Hptr _].
  split.
  - intros sid d Hd. destruct (Hrec sid d Hd) as (Hne & _ & P1 & P2).
    split_and!; auto.
  - intros u sid Hu. destruct (Hptr u sid Hu) as (d & Hd & Hm). by exists d.
Qed.

End SessionProperties.

(** *** Instances *)

Lemma fresh_ids_s1_s2 : fresh_ids (fun n => ["s1"; "s2"] !! n).
Proof. apply fresh_ids_list; apply (bool_decide_unpack _); by vm_compute. Qed.

Lemma world_in_session_reachable :
  sm_reachable (fun n => Z.of_nat n) (fun n => ["s1"; "s2"] !! n) (fun _ => true)
    ([] ++ created VIDEO "a" "b" (world0 ["s1"; "s2"])) world_in_session.
Proof. apply sm_createSession, sm_boot. Qed.

Lemma world_in_session_wf : sessions_wf world_in_session.
Proof.
  exact (sm_reachable_sessions_wf _ _ _ fresh_ids_s1_s2 _ _ world_in_session_reachable).
Qed.

Lemma world_chat_wf : sessions_wf world_chat.
Proof. apply (sessions_wf_redis world_in_session); [done | exact world_in_session_wf]. Qed.

Lemma getSessionPartner_symmetric_witness :
  sessions_wf world_chat
  ∧ (getSessionPartner "a" world_chat).1 = Some "b"
  ∧ (getSessionPartner "b" world_chat).1 = Some "a".
Proof.
  assert (H : (getSessionPartner "a" world_chat).1 = Some "b") by (by vm_compute).
  split_and!; [exact world_chat_wf | exact H |].
  exact (getSessionPartner_symmetric world_chat "a" "b" world_chat_wf H).
Defined.

Lemma endSessionForUser_ends_for_both_witness :
  sessions_wf world_chat
  ∧ (getSessionPartner "a" world_chat).1 = Some "b"
  ∧ endSessionForUser_post "a" "b" world_chat.
Proof.
  assert (H : (getSessionPartner "a" world_chat).1 = Some "b") by (by vm_compute).
  split_and!; [exact world_chat_wf | exact H |].
  exact (endSessionForUser_ends_for_both world_chat "a" "b" world_chat_wf H).
Defined.

Lemma sm_reachable_one_session_witness :
  let clk := fun n => Z.of_nat n in
  let dbc := fun n => ["s1"; "s2"] !! n in
  let dbe := fun _ : nat => true in
  fresh_ids dbc
  ∧ sm_reachable clk dbc dbe ([] ++ created VIDEO "a" "b" (world0 ["s1"; "s2"])) world_in_session
  ∧ one_session_per_user world_in_session.
Proof.
  intros clk dbc dbe.
  split_and!; [exact fresh_ids_s1_s2 | exact world_in_session_reachable |].
  exact (sm_reachable_one_session clk dbc dbe fresh_ids_s1_s2 _ _ world_in_session_reachable).
Defined.

Lemma createSession_pairs_free_users_witness :
  let clk := fun n => Z.of_nat n in
  let dbc := fun n => ["s1"; "s2"] !! n in
  let dbe := fun _ : nat => true in
  fresh_ids dbc
  ∧ sm_reachable clk dbc dbe ([] ++ created VIDEO "a" "b" (world0 ["s1"; "s2"])) world_in_session
  ∧ createSession_post AUDIO "c" "d" world_in_session.
Proof.
  intros clk dbc dbe.
  split_and!; [exact fresh_ids_s1_s2 | exact world_in_session_reachable |].
  exact (createSession_pairs_free_users clk dbc dbe fresh_ids_s1_s2 _ AUDIO "c" "d" _
           world_in_session_reachable).
Defined.

Lemma createSession_endSession_roundtrip_witness :
  let clk := fun n => Z.of_nat n in
  let dbc := fun n => ["s1"; "s2"] !! n in
  let dbe := fun _ : nat => true in
  let w := world_in_session in
  fresh_ids dbc
  ∧ sm_reachable clk dbc dbe ([] ++ created VIDEO "a" "b" (world0 ["s1"; "s2"])) w
  ∧ (createSession AUDIO "c" "d" w).1 = Some "s2"
  ∧ (let w1 := (createSession AUDIO "c" "d" w).2 in db_end w1 (db_calls w1) = true)
  ∧ create_end_roundtrip AUDIO "c" "d" "s2" ENDED w.
Proof.
  intros clk dbc dbe w.
  assert (H1 : (createSession AUDIO "c" "d" w).1 = Some "s2") by (by vm_compute).
  assert (H2 : let w1 := (createSession AUDIO "c" "d" w).2 in db_end w1 (db_calls w1) = true)
    by reflexivity.
  split_and!; [exact fresh_ids_s1_s2 | exact world_in_session_reachable | exact H1 | exact H2 |].
  exact (createSession_endSession_roundtrip clk dbc dbe fresh_ids_s1_s2 _ AUDIO "c" "d" "s2"
           ENDED w world_in_session_reachable H1 H2).
Defined.

(** ** PairingEngine *)

Lemma forLoop_matchOldestUsers n t w : forLoop n (matchOldestUsers t) w = (tt, w).
Proof. induction n as [|n IH]; [done|]. simpl. unfold mbind, M_bind. simpl. exact IH. Qed.

(** X17.  The periodic [processQueue] of the pairing engine reads the size
    of the queue and calls [matchOldestUsers], which only logs: whatever the
    queue holds, the call changes nothing and pairs nobody. *)
Theorem processQueue_inert t w : processQueue_post t w.
Proof.
  unfold processQueue_post, processQueue. run_M.
  destruct (length (zget (getQueueKey t) (redis w)) <? 2)%nat; [done|].
  apply forLoop_matchOldestUsers.
Qed.

Lemma session_frame_refl w : session_frame w w.
Proof. by split_and!. Qed.

Lemma session_frame_trans w1 w2 w3 :
  session_frame w1 w2 → session_frame w2 w3 → session_frame w1 w3.
Proof.
  intros (A1 & A2 & A3 & A4 & A5 & A6) (B1 & B2 & B3 & B4 & B5 & B6).
  split_and!; congruence.
Qed.

Lemma addToQueue_session_frame u s t w : session_frame w (addToQueue u s t w).2.
Proof.
  rewrite addToQueue_eq. cbv zeta.
  destruct (zscore_list u (zget (getQueueKey t) (redis w))); cbn [snd]; [by split_and!|].
  split_and!; try done; simpl.
  - by rewrite session_zput.
  - by rewrite session_user_zput.
Qed.

Lemma removeFromQueue_session_frame u t w : session_frame w (removeFromQueue u t w).2.
Proof.
  pose proof (removeFromQueue_redis u t w) as Hr.
  split_and!.
  - rewrite Hr. simpl. by rewrite session_zput.
  - rewrite Hr. simpl. by rewrite session_user_zput.
  - unfold removeFromQueue. run_M. by destruct (queue_user (redis w) !! userDataKey u).
  - unfold removeFromQueue. run_M. by destruct (queue_user (redis w) !! userDataKey u).
  - unfold removeFromQueue. run_M. by destruct (queue_user (redis w) !! userDataKey u).
  - unfold removeFromQueue. run_M. by destruct (queue_user (redis w) !! userDataKey u).
Qed.

Lemma removeFromAllQueues_session_frame u w : session_frame w (removeFromAllQueues u w).2.
Proof.
  rewrite removeFromAllQueues_eq.
  eapply session_frame_trans; [|apply removeFromQueue_session_frame].
  eapply session_frame_trans; [|apply removeFromQueue_session_frame].
  apply removeFromQueue_session_frame.
Qed.

Lemma findMatch_session_frame u t w : session_frame w (findMatch u t w).2.
Proof.
  rewrite findMatch_eq.
  case_bool_decide; [apply session_frame_refl|]. cbv zeta.
  assert (H0 : session_frame w (unlocked t (with_redis (set_locks (cons t)) w))).
  { by split_and!. }
  assert (H1 : ∀ z', session_frame w (unlocked t (with_redis (zput (getQueueKey t) z')
                 (with_redis (set_locks (cons t)) w)))).
  { intros z'. split_and!; try done; simpl.
    - by rewrite session_zput.
    - by rewrite session_user_zput. }
  destruct (queueOf t w) as [|[u0 s0] [|[u1 s1] z]]; try exact H0.
  case_bool_decide; [|exact H0].
  destruct (userDataOf _ w); cbn [snd].
  - destruct (H1 (zrem_list [u0; u1] ((u0, s0) :: (u1, s1) :: z))) as (A1 & A2 & A3 & A4 & A5 & A6).
    by split_and!.
  - eapply session_frame_trans; [apply H1 | apply addToQueue_session_frame].
Qed.

Lemma getActiveSession_congr u w w' :
  session_frame w w' →
  (getActiveSession u w').1 = (getActiveSession u w).1 ∧
  session_frame (getActiveSession u w).2 (getActiveSession u w').2.
Proof.
  intros (A1 & A2 & A3 & A4 & A5 & A6). rewrite !getActiveSession_eq, A1, A2.
  destruct (session_user (redis w) !! u) as [sid|]; [|by split_and!].
  case_bool_decide; [by split_and!|].
  destruct (session (redis w) !! sid); [by split_and!|].
  split; [done|]. split_and!; try done. simpl. by rewrite A2.
Qed.

Lemma createSession_congr t a b w w' :
  session_frame w w' → (createSession t a b w').1 = (createSession t a b w).1.
Proof.
  intros Hf. rewrite !createSession_eq. cbv zeta.
  destruct (getActiveSession_congr a w w' Hf) as [Ha Hf1].
  destruct (getActiveSession_congr b _ _ Hf1) as [Hb Hf2].
  rewrite Ha, Hb.
  destruct (bool_decide _ || bool_decide _); [done|].
  destruct Hf2 as (_ & _ & B3 & _ & B5 & _). rewrite B3, B5.
  by destruct (db_create _ _).
Qed.

(** [getActiveSession] and [createSession] leave the queues, the sidecar
    records, the lock and the published events alone. *)
Lemma getActiveSession_queues u w :
  let w' := (getActiveSession u w).2 in
  (∀ k, zget k (redis w') = zget k (redis w)) ∧
  queue_user (redis w') = queue_user (redis w) ∧
  locks (redis w') = locks (redis w) ∧ published w' = published w.
Proof.
  cbv zeta. rewrite getActiveSession_eq.
  destruct (session_user (redis w) !! u) as [sid|]; [|done].
  case_bool_decide; [done|]. by destruct (session (redis w) !! sid).
Qed.

Lemma createSession_queues t a b w :
  let w' := (createSession t a b w).2 in
  (∀ k, zget k (redis w') = zget k (redis w)) ∧
  queue_user (redis w') = queue_user (redis w) ∧
  locks (redis w') = locks (redis w) ∧ published w' = published w.
Proof.
  cbv zeta. rewrite createSession_eq. cbv zeta.
  destruct (getActiveSession_queues a w) as (A1 & A2 & A3 & A4).
  destruct (getActiveSession_queues b (getActiveSession a w).2) as (B1 & B2 & B3 & B4).
  cbv zeta in *.
  assert (H : (∀ k, zget k (redis (getActiveSession b (getActiveSession a w).2).2)
                    = zget k (redis w)) ∧
              queue_user (redis (getActiveSession b (getActiveSession a w).2).2)
                = queue_user (redis w) ∧
              locks (redis (getActiveSession b (getActiveSession a w).2).2) = locks (redis w) ∧
              published (getActiveSession b (getActiveSession a w).2).2 = published w).
  { split_and!; [intros k; by rewrite B1, A1 | congruence | congruence | congruence]. }
  destruct (bool_decide _ || bool_decide _); cbn [snd]; [exact H|].
  destruct (db_create _ _); cbn [snd]; [|exact H].
  destruct H as (H1 & H2 & H3 & H4). unfold sessionWritten. simpl.
  split_and!; done.
Qed.

Lemma matchWithFriend_eq u f t w :
  matchWithFriend u f t w =
    (match (createSession t u f w).1 with
     | Some sid => mkMatchResult true (Some sid) None None
     | None =>
         if bool_decide (is_Some (getActiveSession u w).1)
            || bool_decide (is_Some (getActiveSession f (getActiveSession u w).2).1)
         then failure "One or both users are already in a session"
         else failure "Failed to create session"
     end, (createSession t u f w).2).
Proof.
  unfold matchWithFriend, mbind, M_bind, mret, M_ret.
  rewrite (createSession_eq t u f w). cbv zeta.
  pose proof (getActiveSession_idem u w) as Hu.
  pose proof (getActiveSession_idem f (getActiveSession u w).2) as Hf.
  pose proof (getActiveSession_eq u (getActiveSession f (getActiveSession u w).2).2) as Hu2.
  pose proof (getActiveSession_pointer_ne f u (getActiveSession u w).2) as Hptr.
  pose proof (getActiveSession_session f (getActiveSession u w).2) as Hses.
  rewrite (getActiveSession_eq u (getActiveSession u w).2) in Hu.
  destruct (getActiveSession u w) as [r1 w1]. cbn [fst snd] in *.
  destruct (getActiveSession f w1) as [r2 w2] eqn:Hgf. cbn [fst snd] in *.
  destruct (bool_decide (is_Some r1) || bool_decide (is_Some r2)) eqn:Hbusy; [done|].
  apply orb_false_iff in Hbusy as [H1 H2].
  apply bool_decide_eq_false in H1, H2.
  assert (r1 = None) as -> by (destruct r1; [exfalso; apply H1; by eexists | done]).
  assert (r2 = None) as -> by (destruct r2; [exfalso; apply H2; by eexists | done]).
  assert (Hgu : getActiveSession u w2 = (None, w2)).
  { destruct (decide (u = f)) as [->|Hne]; [exact Hf|].
    rewrite Hu2, Hptr, Hses by done.
    destruct (session_user (redis w1) !! u) as [sid|] eqn:Hp; [|done].
    destruct (bool_decide (sid = "")); [done|].
    destruct (session (redis w1) !! sid); [done|].
    injection Hu as Hw. exfalso.
    assert (Hd : session_user (redis (with_redis (set_session_user (delete u)) w1)) !! u
                 = None) by apply lookup_delete_eq.
    rewrite Hw in Hd. congruence. }
  rewrite createSession_eq. cbv zeta. rewrite Hgu. cbn [fst snd]. rewrite Hf. cbn [fst snd].
  rewrite (bool_decide_eq_false_2 (is_Some None)) by (by intros [? ?]). cbn [orb].
  by destruct (db_create w2 (db_calls w2)).
Qed.

(** X18.  [matchWithFriend u f t] ends in the world in which
    [createSession t u f] ends and reports the session id it returns: it
    succeeds exactly when a session was created, names no partner record, and
    leaves the queues and the sidecar records untouched. *)
Theorem matchWithFriend_is_createSession u f t w : matchWithFriend_post u f t w.
Proof.
  unfold matchWithFriend_post. cbv zeta. rewrite matchWithFriend_eq. cbn [fst snd].
  destruct (createSession_queues t u f w) as (Hz & Hq & _ & _). cbv zeta in Hz, Hq.
  split_and!; try done.
  - destruct (createSession t u f w).1; [done|]. by destruct (_ || _).
  - destruct (createSession t u f w).1.
    + cbn [success]. symmetry. apply bool_decide_eq_true. by eexists.
    + rewrite (bool_decide_eq_false_2 (is_Some None)) by (by intros [? ?]).
      by destruct (_ || _).
  - destruct (createSession t u f w).1; [done|]. by destruct (_ || _).
  - unfold waiting. pose proof (Hz QUEUE_VIDEO) as Hv. pose proof (Hz QUEUE_AUDIO) as Ha.
    pose proof (Hz QUEUE_TEXT) as Ht. simpl in Hv, Ha, Ht. by rewrite Hv, Ha, Ht.
Qed.

Lemma removeFromAllQueues_inNoQueue u w : inNoQueue u (removeFromAllQueues u w).2.
Proof.
  intros t. rewrite removeFromAllQueues_eq, !removeFromQueue_scoreIn.
  destruct t; repeat (case_bool_decide; try done); tauto.
Qed.

Lemma removeFromAllQueues_scoreIn_None u x t w :
  scoreIn t x w = None → scoreIn t x (removeFromAllQueues u w).2 = None.
Proof.
  intros H. rewrite removeFromAllQueues_eq, !removeFromQueue_scoreIn.
  repeat (case_bool_decide; try done).
Qed.

Lemma removeFromAllQueues_userDataOf u x w :
  userDataOf x (removeFromAllQueues u w).2 = if bool_decide (x = u) then None else userDataOf x w.
Proof.
  rewrite removeFromAllQueues_eq, !removeFromQueue_userDataOf. by case_bool_decide.
Qed.

(** X19.  After [forceMatch u1 u2 t], whether it succeeds or not, both
    users have no entry in any queue and no sidecar record; the session id
    reported, and the success flag, are those of [createSession t u1 u2] in
    the world before the call. *)
Theorem forceMatch_evicts u1 u2 t w : forceMatch_post u1 u2 t w.
Proof.
  unfold forceMatch_post. cbv zeta.
  unfold forceMatch, mbind, M_bind, mret, M_ret.
  pose proof (removeFromAllQueues_inNoQueue u1 w) as N1.
  pose proof (removeFromAllQueues_userDataOf u1 u1 w) as D1.
  pose proof (removeFromAllQueues_session_frame u1 w) as F1.
  destruct (removeFromAllQueues u1 w) as [[] w1]. cbn [fst snd] in *.
  pose proof (removeFromAllQueues_inNoQueue u2 w1) as N2.
  pose proof (λ t, removeFromAllQueues_scoreIn_None u2 u1 t w1 (N1 t)) as N1'.
  pose proof (removeFromAllQueues_userDataOf u2 u2 w1) as D2.
  pose proof (removeFromAllQueues_userDataOf u2 u1 w1) as D1'.
  pose proof (removeFromAllQueues_session_frame u2 w1) as F2.
  destruct (removeFromAllQueues u2 w1) as [[] w2]. cbn [fst snd] in *.
  pose proof (createSession_congr t u1 u2 w w2 (session_frame_trans _ _ _ F1 F2)) as Hc.
  destruct (createSession_queues t u1 u2 w2) as (Hz & Hq & _ & _). cbv zeta in Hz, Hq.
  rewrite <- Hc.
  assert (Hs : ∀ x t', scoreIn t' x (createSession t u1 u2 w2).2 = scoreIn t' x w2).
  { intros x t'. unfold scoreIn, queueOf. by rewrite Hz. }
  assert (Hd : ∀ x, userDataOf x (createSession t u1 u2 w2).2 = userDataOf x w2).
  { intros x. unfold userDataOf. by rewrite Hq. }
  rewrite bool_decide_eq_true_2 in D1, D2 by done.
  assert (D1'' : userDataOf u1 w2 = None).
  { rewrite D1'. by case_bool_decide. }
  destruct (createSession t u1 u2 w2) as [[sid|] w3]; cbn [fst snd] in *.
  - split_and!; [intros t'; by rewrite Hs | intros t'; by rewrite Hs
                 | by rewrite Hd | by rewrite Hd | done |].
    symmetry. apply bool_decide_eq_true. by eexists.
  - split_and!; [intros t'; by rewrite Hs | intros t'; by rewrite Hs
                 | by rewrite Hd | by rewrite Hd | done |].
    symmetry. apply bool_decide_eq_false. by intros [? ?].
Qed.

(** X20.  [getMatchingStatus u] changes nothing.  For a user in no queue it
    reports [inQueue = false] and nothing else; otherwise it reports the
    first modality in which the user waits, the 1-based place [n + 1] of the
    user in that queue, and an estimated wait of 5 s for each of the [n]
    users ahead. *)
Theorem getMatchingStatus_reports_place u w : getMatchingStatus_post u w.
Proof.
  unfold getMatchingStatus_post. cbv zeta.
  unfold getMatchingStatus, mbind, M_bind, mret, M_ret.
  pose proof (isUserInQueue_world u w) as Hw.
  pose proof (isUserInQueue_None u w) as Hnone.
  pose proof (λ t, isUserInQueue_Some_scoreIn u t w) as Hsome.
  destruct (isUserInQueue u w) as [[t|] w1]; cbn [fst snd] in *; subst w1.
  - unfold getQueuePosition, getQueueSize. run_M.
    split_and!; [done | |].
    + intros Hin. apply Hnone in Hin. done.
    + intros t' [= <-]. destruct (Hsome t eq_refl) as [s Hs].
      pose proof (zrank_list_spec u (zget (getQueueKey t) (redis w))) as Hr.
      unfold scoreIn, queueOf in Hs.
      destruct (zrank_list u (zget (getQueueKey t) (redis w))) as [n|]; [|congruence].
      destruct Hr as (_ & s' & Hl & _). exists n, s'. split; [exact Hl|].
      f_equal; [f_equal; lia | f_equal; lia].
  - split_and!; [done | done | done].
Qed.

Lemma quickMatch_no_partner u s t w :
  scoreIn t u w = None →
  (findMatch u t (addToQueue u s t w).2).1 = None →
  quickMatch u s t w =
    (failure "Waiting for match", (findMatch u t (addToQueue u s t w).2).2).
Proof.
  intros Hu Hfind.
  destruct (addToQueue_fresh u s t w Hu) as (Hadd & Hq1 & _).
  assert (Hinq : is_Some (isUserInQueue u (addToQueue u s t w).2).1).
  { apply (isUserInQueue_Some u t). unfold scoreIn. rewrite Hq1, zscore_list_zadd_eq.
    by eexists. }
  unfold quickMatch, matchUser, mbind, M_bind, mret, M_ret.
  destruct (addToQueue u s t w) as [added w1]. cbn [fst snd] in *. subst added. cbn [negb].
  pose proof (isUserInQueue_world u w1) as Hw.
  destruct (isUserInQueue u w1) as [inq w1']. cbn [fst snd] in *. subst w1'.
  destruct Hinq as [q ->].
  destruct (findMatch u t w1) as [r w2]. cbn [fst snd] in *. subst r. reflexivity.
Qed.

(** X21.  [quickMatch] for a user without entry in the queue of [t], all
    entries of which are older than the call, when nobody or more than one
    user is waiting there: the result is "Waiting for match", the user is
    appended to the queue with the time of the call as score and its sidecar
    record is written, and no session record, reverse pointer, published
    event or database call is made. *)
Theorem quickMatch_newcomer_waits u s t w :
  scoreIn t u w = None →
  Forall (λ e, (e.2 < clock w (ticks w))%Z) (queueOf t w) →
  length (queueOf t w) ≠ 1%nat →
  quickMatch_waits u s t w.
Proof.
  intros Hu Hlate Hlen. unfold quickMatch_waits. cbv zeta.
  destruct (addToQueue_fresh u s t w Hu) as (Hadd & Hq1 & Hd1 & Hl1 & _).
  destruct (addToQueue_session_frame u s t w) as (F1 & F2 & _ & _ & F5 & F6).
  assert (Hq1' : queueOf t (addToQueue u s t w).2 = queueOf t w ++ [(u, clock w (ticks w))]).
  { rewrite Hq1. unfold zadd_list. rewrite zrem_list_absent by done. by apply zinsert_later. }
  specialize (Hd1 u). rewrite bool_decide_eq_true_2 in Hd1 by done.
  assert (Hfm : findMatch u t (addToQueue u s t w).2 = (None, (addToQueue u s t w).2) ∨
                findMatch u t (addToQueue u s t w).2 =
                  (None, unlocked t (with_redis (set_locks (cons t)) (addToQueue u s t w).2))).
  { rewrite findMatch_eq. case_bool_decide; [by left|]. right. cbv zeta. rewrite Hq1'.
    unfold scoreIn in Hu.
    destruct (queueOf t w) as [|[u0 s0] [|[u1 s1] z]]; simpl in *; [done | done |].
    rewrite bool_decide_eq_false_2; [done|].
    intros Hin. apply elem_of_pair in Hin. destruct Hin as [->| ->].
    - by rewrite bool_decide_eq_true_2 in Hu.
    - destruct (bool_decide (u0 = u1)); [done|]. by rewrite bool_decide_eq_true_2 in Hu. }
  rewrite quickMatch_no_partner; [|done|by destruct Hfm as [-> | ->]].
  cbn [fst snd].
  destruct Hfm as [-> | ->]; cbn [snd]; [by split_and!|].
  unfold queueOf, userDataOf, unlocked in *.
  cbn [redis with_redis session session_user set_locks queue_user published db_calls].
  rewrite !zget_set_locks. by split_and!.
Qed.

Lemma quickMatch_matched u s t p sid w :
  scoreIn t u w = None →
  let w1 := (addToQueue u s t w).2 in
  let w2 := (findMatch u t w1).2 in
  let w3 := (createSession t u (userId p) w2).2 in
  let w4 := (removeFromQueue u t w3).2 in
  let w5 := (removeFromQueue (userId p) t w4).2 in
  (findMatch u t w1).1 = Some p →
  (createSession t u (userId p) w2).1 = Some sid →
  quickMatch u s t w =
    (mkMatchResult true (Some sid) (Some p) None,
     with_metrics (fun l => l ++ [trackQueueLeave t "matched"])
       (with_published (fun l => l ++ [mkMatchFound sid u (userId p) t]) w5)).
Proof.
  intros Hu w1 w2 w3 w4 w5 Hfind Hcreate. subst w1 w2 w3 w4 w5.
  destruct (addToQueue_fresh u s t w Hu) as (Hadd & Hq1 & _).
  assert (Hinq : is_Some (isUserInQueue u (addToQueue u s t w).2).1).
  { apply (isUserInQueue_Some u t). unfold scoreIn. rewrite Hq1, zscore_list_zadd_eq.
    by eexists. }
  unfold quickMatch, matchUser, mbind, M_bind, mret, M_ret, track, publish, modify.
  destruct (addToQueue u s t w) as [added w1]. cbn [fst snd] in *. subst added. cbn [negb].
  pose proof (isUserInQueue_world u w1) as Hw.
  destruct (isUserInQueue u w1) as [inq w1']. cbn [fst snd] in *. subst w1'.
  destruct Hinq as [q ->].
  destruct (findMatch u t w1) as [r w2]. cbn [fst snd] in *. subst r.
  destruct p as [pu ps pj]. cbn [userId socketId] in *.
  destruct (createSession t u pu w2) as [r w3]. cbn [fst snd] in *. subst r.
  destruct (removeFromQueue u t w3) as [r4 w4]. cbn [fst snd].
  destruct (removeFromQueue pu t w4) as [r5 w5]. cbn [fst snd].
  reflexivity.
Qed.

Lemma zrem_list_pair a sa b sb : zrem_list [a; b] [(a, sa); (b, sb)] = [].
Proof.
  unfold zrem_list. simpl.
  rewrite (bool_decide_eq_true_2 (a ∈ [a; b])) by (apply elem_of_pair; auto).
  rewrite (bool_decide_eq_true_2 (b ∈ [a; b])) by (apply elem_of_pair; auto).
  done.
Qed.

Lemma zrem_list_nil ms : zrem_list ms [] = [].
Proof. done. Qed.

Lemma removeFromQueue_locks u t w : locks (redis (removeFromQueue u t w).2) = locks (redis w).
Proof. rewrite removeFromQueue_redis. by destruct t. Qed.

Lemma removeFromQueue_queueOf u t w :
  queueOf t (removeFromQueue u t w).2 = zrem_list [u] (queueOf t w).
Proof.
  unfold queueOf. by rewrite removeFromQueue_redis, zget_set_queue_user, zget_zput_eq.
Qed.

(** X22.  [quickMatch] for a newcomer [u] when exactly one other user waits
    in the queue of [t] with its sidecar record [p], the matching lock is
    free, neither user has a reverse pointer and the database issues the id
    [sid]: the call succeeds with [sid] and [p]; afterwards the queue is
    empty, both sidecar records are gone, the record of [sid] names [u] as
    first and the partner as second member, both reverse pointers name
    [sid], exactly one match event is published, and the lock is free. *)
Theorem quickMatch_pairs_with_single_waiter u s t p sp sid w :
  queueOf t w = [(userId p, sp)] →
  userDataOf (userId p) w = Some p →
  u ≠ userId p →
  t ∉ locks (redis w) →
  free u w → free (userId p) w →
  db_create w (db_calls w) = Some sid →
  quickMatch_paired u s t p sid w.
Proof.
  intros Hq Hp Hne Hlock Fu Fp Hdb.
  assert (Hu : scoreIn t u w = None).
  { unfold scoreIn. rewrite Hq. simpl. by rewrite bool_decide_eq_false_2. }
  destruct (addToQueue_fresh u s t w Hu) as (Hadd & Hq1 & Hd1 & Hl1 & _).
  pose proof (addToQueue_session_frame u s t w) as F1.
  set (now := clock w (ticks w)) in *.
  set (w1 := (addToQueue u s t w).2) in *.
  assert (Hq1' : queueOf t w1 = [(u, now); (userId p, sp)]
                 ∨ queueOf t w1 = [(userId p, sp); (u, now)]).
  { rewrite Hq1, Hq. unfold zadd_list. rewrite zrem_list_absent.
    - simpl. destruct (entry_leb _ _); auto.
    - simpl. by rewrite bool_decide_eq_false_2. }
  assert (Hp1 : userDataOf (userId p) w1 = Some p).
  { rewrite Hd1. by rewrite bool_decide_eq_false_2. }
  assert (Hfind : (findMatch u t w1).1 = Some p ∧ queueOf t (findMatch u t w1).2 = []).
  { rewrite findMatch_eq. rewrite bool_decide_eq_false_2 by (by rewrite Hl1). cbv zeta.
    destruct Hq1' as [-> | ->].
    - rewrite (bool_decide_eq_true_2 (u ∈ [u; userId p])) by (apply elem_of_pair; auto).
      rewrite (bool_decide_eq_true_2 (u = u)) by done. rewrite Hp1. cbn [fst snd].
      split; [done|]. unfold queueOf, unlocked. simpl.
      by rewrite zget_set_locks, zget_zput_eq, zrem_list_pair.
    - rewrite (bool_decide_eq_true_2 (u ∈ [userId p; u])) by (apply elem_of_pair; auto).
      rewrite (bool_decide_eq_false_2 (userId p = u)) by done. rewrite Hp1. cbn [fst snd].
      split; [done|]. unfold queueOf, unlocked. simpl.
      by rewrite zget_set_locks, zget_zput_eq, zrem_list_pair. }
  destruct Hfind as [Hfind Hq2].
  pose proof (findMatch_session_frame u t w1) as F2.
  pose proof (findMatch_locks u t w1) as Hl2.
  set (w2 := (findMatch u t w1).2) in *.
  pose proof (session_frame_trans _ _ _ F1 F2) as (S1 & S2 & S3 & S4 & S5 & S6).
  assert (Hcreate : createSession t u (userId p) w2
            = (Some sid, sessionWritten t u (userId p) sid (db_called w2))).
  { rewrite createSession_eq. cbv zeta. unfold free in Fu, Fp.
    assert (G1 : getActiveSession u w2 = (None, w2)).
    { by rewrite getActiveSession_eq, S2, Fu. }
    assert (G2 : getActiveSession (userId p) w2 = (None, w2)).
    { by rewrite getActiveSession_eq, S2, Fp. }
    rewrite G1. cbn [fst snd]. rewrite G2. cbn [fst snd].
    rewrite (bool_decide_eq_false_2 (is_Some None)) by (by intros [? ?]). cbn [orb].
    by rewrite S3, S5, Hdb. }
  destruct (createSession_queues t u (userId p) w2) as (Hz3 & _ & Hl3 & Hpub3).
  cbv zeta in Hz3, Hl3, Hpub3.
  unfold quickMatch_paired. cbv zeta.
  assert (Hc1 : (createSession t u (userId p) w2).1 = Some sid) by (by rewrite Hcreate).
  rewrite (quickMatch_matched u s t p sid w Hu Hfind Hc1).
  cbn [fst snd]. fold w1 w2.
  set (w3 := (createSession t u (userId p) w2).2) in *.
  pose proof (removeFromQueue_session_frame u t w3) as (A1 & A2 & _ & _ & _ & A6).
  set (w4 := (removeFromQueue u t w3).2) in *.
  pose proof (removeFromQueue_session_frame (userId p) t w4) as (B1 & B2 & _ & _ & _ & B6).
  assert (Hw3 : w3 = sessionWritten t u (userId p) sid (db_called w2)).
  { unfold w3. by rewrite Hcreate. }
  split_and!.
  - done.
  - change (queueOf t (with_metrics ?f (with_published ?g ?v))) with (queueOf t v).
    rewrite removeFromQueue_queueOf. unfold w4. rewrite removeFromQueue_queueOf.
    unfold queueOf at 1. rewrite Hz3. fold (queueOf t w2). by rewrite Hq2.
  - change (userDataOf u (with_metrics ?f (with_published ?g ?v))) with (userDataOf u v).
    rewrite removeFromQueue_userDataOf. rewrite bool_decide_eq_false_2 by done.
    unfold w4. rewrite removeFromQueue_userDataOf. by rewrite bool_decide_eq_true_2.
  - change (userDataOf ?x (with_metrics ?f (with_published ?g ?v))) with (userDataOf x v).
    rewrite removeFromQueue_userDataOf. by rewrite bool_decide_eq_true_2.
  - exists (clock (db_called w2) (ticks (db_called w2))).
    change (session (redis (with_metrics ?f (with_published ?g ?v)))) with (session (redis v)).
    rewrite B1, A1, Hw3. unfold sessionWritten. simpl. by rewrite lookup_insert_eq.
  - unfold pointsTo.
    change (session_user (redis (with_metrics ?f (with_published ?g ?v))))
      with (session_user (redis v)).
    rewrite B2, A2, Hw3. unfold sessionWritten. simpl.
    rewrite lookup_insert_ne by done. by rewrite lookup_insert_eq.
  - unfold pointsTo.
    change (session_user (redis (with_metrics ?f (with_published ?g ?v))))
      with (session_user (redis v)).
    rewrite B2, A2, Hw3. unfold sessionWritten. simpl. by rewrite lookup_insert_eq.
  - change (published (with_metrics ?f (with_published ?g ?v))) with (g (published v)).
    cbv beta. by rewrite B6, A6, Hpub3, S6.
  - change (locks (redis (with_metrics ?f (with_published ?g ?v)))) with (locks (redis v)).
    rewrite removeFromQueue_locks. unfold w4. rewrite removeFromQueue_locks.
    by rewrite Hl3, Hl2, Hl1.
Qed.

(** *** Instances *)

Lemma quickMatch_newcomer_waits_witness :
  let w := (addToQueue "q" "sq" VIDEO world_partner_waiting).2 in
  scoreIn VIDEO "u" w = None
  ∧ Forall (λ e, (e.2 < clock w (ticks w))%Z) (queueOf VIDEO w)
  ∧ length (queueOf VIDEO w) ≠ 1%nat
  ∧ quickMatch_waits "u" "su" VIDEO w.
Proof.
  intros w.
  assert (H1 : scoreIn VIDEO "u" w = None) by (by vm_compute).
  assert (H2 : Forall (λ e, (e.2 < clock w (ticks w))%Z) (queueOf VIDEO w)).
  { apply (bool_decide_unpack _). by vm_compute. }
  assert (H3 : length (queueOf VIDEO w) ≠ 1%nat) by (by vm_compute).
  split_and!; [exact H1 | exact H2 | exact H3 |].
  exact (quickMatch_newcomer_waits "u" "su" VIDEO w H1 H2 H3).
Defined.

Lemma quickMatch_pairs_with_single_waiter_witness :
  let p := mkQueueUser "p" "sp" 0 in
  let w := (addToQueue "p" "sp" VIDEO (world0 ["s1"])).2 in
  queueOf VIDEO w = [(userId p, 0)]
  ∧ userDataOf (userId p) w = Some p
  ∧ "u" ≠ userId p
  ∧ (VIDEO ∉ locks (redis w))
  ∧ free "u" w ∧ free (userId p) w
  ∧ db_create w (db_calls w) = Some "s1"
  ∧ quickMatch_paired "u" "su" VIDEO p "s1" w.
Proof.
  intros p w.
  assert (H1 : queueOf VIDEO w = [(userId p, 0)]) by (by vm_compute).
  assert (H2 : userDataOf (userId p) w = Some p) by (by vm_compute).
  assert (H3 : "u" ≠ userId p) by done.
  assert (H4 : VIDEO ∉ locks (redis w)) by (apply (bool_decide_unpack _); by vm_compute).
  assert (H5 : free "u" w) by (by vm_compute).
  assert (H6 : free (userId p) w) by (by vm_compute).
  assert (H7 : db_create w (db_calls w) = Some "s1") by (by vm_compute).
  split_and!; [exact H1 | exact H2 | exact H3 | exact H4 | exact H5 | exact H6 | exact H7 |].
  exact (quickMatch_pairs_with_single_waiter "u" "su" VIDEO p 0 "s1" w H1 H2 H3 H4 H5 H6 H7).
Defined.

(** ** SocketManager *)

Lemma set_add_NoDup x l : NoDup l → NoDup (set_add x l).
Proof.
  intros Hl. unfold set_add. case_bool_decide as Hx; [done|].
  apply NoDup_app. split_and!; [done | | apply NoDup_singleton].
  intros y Hy Hy'. apply list_elem_of_singleton in Hy'. by subst.
Qed.

Lemma set_add_nonempty x l : set_add x l ≠ [].
Proof.
  unfold set_add. case_bool_decide as Hx.
  - intros ->. by apply elem_of_nil in Hx.
  - by destruct l.
Qed.

Lemma set_delete_NoDup x l : NoDup l → NoDup (set_delete x l).
Proof.
  unfold set_delete. induction 1 as [|y l Hy Hl IH]; simpl; [constructor|].
  destruct (negb (bool_decide (y = x))); [|done].
  constructor; [|done]. intros Hin. apply Hy.
  apply list_elem_of_In, filter_In in Hin as [Hin _]. by apply list_elem_of_In.
Qed.

Lemma registerSocket_eq socket u w :
  registerSocket socket u w =
    (tt, with_presence (fun p => {[u]} ∪ p)
           (with_userSockets <[u := set_add socket (socketsOf u w)]> w)).
Proof.
  unfold registerSocket, setUserOnline, socketsOf. run_M.
  destruct (userSockets w !! u) as [l|] eqn:Hl; simpl.
  - unfold with_presence, with_userSockets. simpl. by rewrite Hl.
  - unfold with_presence, with_userSockets. simpl.
    by rewrite lookup_insert_eq, insert_insert_eq.
Qed.

Lemma unregisterSocket_eq socket u w :
  unregisterSocket socket u w =
    match userSockets w !! u with
    | None => (tt, w)
    | Some l =>
        if bool_decide (set_delete socket l = []) then
          (tt, with_presence (fun p => p ∖ {[u]}) (with_userSockets (delete u) w))
        else (tt, with_userSockets <[u := set_delete socket l]> w)
    end.
Proof.
  unfold unregisterSocket, setUserOffline. run_M.
  destruct (userSockets w !! u) as [l|]; [|done]. simpl.
  destruct (set_delete socket l) as [|y l'] eqn:Hd; simpl; [|done].
  unfold with_presence, with_userSockets. simpl. by rewrite delete_insert_eq.
Qed.

Lemma registerSocket_wf socket u w : sockets_wf w → sockets_wf (registerSocket socket u w).2.
Proof.
  intros [Hdom Hl]. rewrite registerSocket_eq. cbn [snd]. split; simpl.
  - by rewrite dom_insert_L, Hdom.
  - intros x l. rewrite lookup_insert. case_decide as Hx.
    + intros [= <-]. split; [apply set_add_nonempty|].
      apply set_add_NoDup. unfold socketsOf.
      destruct (userSockets w !! u) as [l'|] eqn:Hu; simpl; [|constructor].
      by apply (Hl u).
    + apply Hl.
Qed.

Lemma unregisterSocket_wf socket u w :
  sockets_wf w → sockets_wf (unregisterSocket socket u w).2.
Proof.
  intros [Hdom Hl]. rewrite unregisterSocket_eq.
  destruct (userSockets w !! u) as [l|] eqn:Hu; [|done].
  case_bool_decide as He; cbn [snd]; split; simpl.
  - by rewrite dom_delete_L, Hdom.
  - intros x l'. rewrite lookup_delete. case_decide; [done | apply Hl].
  - rewrite dom_insert_L, <- Hdom.
    assert (u ∈ dom (userSockets w)) by (apply elem_of_dom; by eexists).
    apply set_eq. intros y. rewrite elem_of_union, elem_of_singleton.
    split; [intros [->|]; done | auto].
  - intros x l'. rewrite lookup_insert. case_decide as Hx.
    + intros [= <-]. split; [done|]. apply set_delete_NoDup. by apply (Hl u).
    + apply Hl.
Qed.

Lemma sock_reachable_wf w : sock_reachable w → sockets_wf w.
Proof.
  induction 1 as [clk dbc dbe|w s u _ IH|w s u _ IH].
  - split; simpl.
    + by rewrite dom_empty_L.
    + intros u l. by rewrite lookup_empty.
  - by apply registerSocket_wf.
  - by apply unregisterSocket_wf.
Qed.

(** X23.  In every world that [registerSocket] and [unregisterSocket] reach
    from an empty registry, the users with a presence record are exactly the
    users with a socket set, no socket set is empty or lists a socket twice,
    [isUserConnected] agrees with the presence record and [getUserCount]
    counts the users that are online. *)
Theorem sock_reachable_presence w : sock_reachable w → presence_tracks_sockets w.
Proof.
  intros Hreach. pose proof (sock_reachable_wf w Hreach) as Hwf.
  split; [exact Hwf|]. destruct Hwf as [Hdom Hl]. split.
  - intros u. unfold isUserConnected, isOnline, gets. cbn [fst]. rewrite <- Hdom.
    destruct (userSockets w !! u) as [l|] eqn:Hu.
    + destruct (Hl u l Hu) as [Hne _].
      rewrite !bool_decide_eq_true_2; [done | | ].
      * apply elem_of_dom. by eexists.
      * destruct l; [done | simpl; lia].
    + symmetry. apply bool_decide_eq_false. by rewrite not_elem_of_dom.
  - unfold getUserCount, gets. cbn [fst]. by rewrite <- Hdom, size_dom.
Qed.

Lemma set_delete_set_add x l : x ∉ l → set_delete x (set_add x l) = l.
Proof.
  intros Hx. unfold set_add, set_delete. rewrite bool_decide_eq_false_2 by done.
  rewrite List.filter_app. simpl. rewrite bool_decide_eq_true_2 by done. simpl.
  rewrite app_nil_r. induction l as [|y l IH]; simpl; [done|].
  apply not_elem_of_cons in Hx as [Hy Hx].
  rewrite bool_decide_eq_false_2 by done. simpl. by rewrite IH.
Qed.

(** X24.  Registering a socket the user does not have yet and
    unregistering it again leaves every user with the sockets it had; the
    user is online afterwards exactly when it had another socket, and the
    presence of every other user is unchanged. *)
Theorem registerSocket_unregisterSocket socket u w :
  socket ∉ socketsOf u w → register_unregister_post socket u w.
Proof.
  intros Hs. unfold register_unregister_post. cbv zeta.
  rewrite registerSocket_eq. cbn [snd]. rewrite unregisterSocket_eq.
  cbn [userSockets with_presence with_userSockets]. rewrite lookup_insert_eq.
  rewrite set_delete_set_add by done.
  unfold socketsOf, isOnline in *.
  case_bool_decide as He; cbn [snd userSockets presence with_presence with_userSockets].
  - split_and!.
    + intros x. rewrite lookup_delete. case_decide as Hx.
      * subst x. simpl. by rewrite He.
      * by rewrite lookup_insert_ne.
    + rewrite (bool_decide_eq_false_2 (_ ≠ [])) by (intros H; by apply H).
      apply bool_decide_eq_false.
      intros [_ H]%elem_of_difference. apply H. by apply elem_of_singleton.
    + intros x Hx. apply bool_decide_ext.
      rewrite elem_of_difference, elem_of_union, !elem_of_singleton. 
      split; [intros [[->|] _]; done | intros; split; [by right | done]].
  - split_and!.
    + intros x. rewrite insert_insert_eq, lookup_insert. case_decide as Hx; [|done].
      by subst x.
    + rewrite (bool_decide_eq_true_2 (_ ≠ [])) by done.
      apply bool_decide_eq_true. apply elem_of_union. left. by apply elem_of_singleton.
    + intros x Hx. apply bool_decide_ext.
      rewrite elem_of_union, elem_of_singleton.
      split; [intros [->|]; done | by right].
Qed.

(** ** Handlers *)

Lemma onTyping_eq k socket userId w :
  onTyping k socket userId w =
    let w1 := (getActiveSession userId w).2 in
    let partnerId := (getSessionPartner userId w).1 in
    if falsy partnerId then (tt, w1)
    else
      (tt, with_outbox
             (fun l => l ++ fanout (default "" partnerId) (typingEvent k) (UserPayload userId) w1)
             w1).
Proof.
  cbv zeta. destruct k; simpl;
    unfold onChatTyping, onChatStopTyping;
    unfold mbind at 1, M_bind at 1; rewrite getSessionPartner_eq; cbn [fst snd];
    (destruct (getActiveSession userId w) as [[s|] w1];
       cbn [fst snd fmap option_fmap option_map]; [|done]);
    (destruct (falsy _); [done|]); by rewrite emitToUser_eq.
Qed.

Lemma getActiveSession_metrics u w : metrics (getActiveSession u w).2 = metrics w.
Proof.
  rewrite getActiveSession_eq.
  destruct (session_user (redis w) !! u) as [sid|]; [|done].
  case_bool_decide; [done|]. by destruct (session (redis w) !! sid).
Qed.

(** X25.  [chat:typing] and [chat:stop_typing] are relayed with the id of
    the sender to every socket of the session partner; without a partner (or
    with an empty partner id) nothing is sent, in particular no error to the
    sender.  Nothing else changes, except that the partner lookup may delete
    a dangling reverse pointer. *)
Theorem onTyping_rule k socket userId w : typing_rule k socket userId w.
Proof.
  unfold typing_rule. cbv zeta. rewrite onTyping_eq. cbv zeta.
  destruct (getActiveSession_relay_frame userId w) as (Ho & Hs & Hc & Ht).
  pose proof (getActiveSession_metrics userId w) as Hm.
  destruct (falsy _); cbn [snd].
  - by rewrite app_nil_r.
  - unfold fanout, socketsOf. simpl. by rewrite Ho, Hs.
Qed.

Lemma getSessionPartner_redis u w w' :
  redis w' = redis w → (getSessionPartner u w').1 = (getSessionPartner u w).1.
Proof.
  intros Hr. rewrite !getSessionPartner_eq. cbn [fst]. f_equal.
  apply getActiveSession_fst_eq; by rewrite Hr.
Qed.


(** What [endSessionForUser] leaves alone. *)
Lemma endSessionForUser_frame u w :
  let w' := (endSessionForUser u w).2 in
  outbox w' = outbox w ∧ activeConnections w' = activeConnections w ∧
  (∀ k, zget k (redis w') = zget k (redis w)) ∧
  queue_user (redis w') = queue_user (redis w).
Proof.
  cbv zeta. unfold endSessionForUser, mbind, M_bind, mret, M_ret.
  assert (H1 : outbox (getActiveSession u w).2 = outbox w ∧
               activeConnections (getActiveSession u w).2 = activeConnections w ∧
               (∀ k, zget k (redis (getActiveSession u w).2) = zget k (redis w)) ∧
               queue_user (redis (getActiveSession u w).2) = queue_user (redis w)).
  { rewrite getActiveSession_eq.
    destruct (session_user (redis w) !! u) as [sid|]; [|done].
    case_bool_decide; [done|]. by destruct (session (redis w) !! sid). }
  destruct (getActiveSession u w) as [[s|] w1]; cbn [fst snd] in *; [|exact H1].
  destruct H1 as (A1 & A2 & A3 & A4).
  rewrite endSession_eq. destruct (session (redis w1) !! id s); [|done].
  cbv zeta. destruct (db_end w1 (db_calls w1)); cbn [snd]; simpl; by split_and!.
Qed.

Lemma onCallEnd_eq socket u w :
  (onCallEnd socket u w).2 =
    let w1 := (getActiveSession u w).2 in
    let partnerId := (getSessionPartner u w).1 in
    (endSessionForUser u
       (if falsy partnerId then w1
        else with_outbox
               (fun l => l ++ fanout (default "" partnerId) CALL_END (UserPayload u) w1) w1)).2.
Proof.
  cbv zeta. unfold onCallEnd. unfold mbind at 1 2, M_bind at 1 2.
  rewrite getSessionPartner_eq. cbn [fst snd].
  destruct (getActiveSession u w) as [[s|] w1]; cbn [fst snd fmap option_fmap option_map].
  - destruct (falsy _).
    + unfold mbind, M_bind, mret, M_ret. by destruct (endSessionForUser u w1).
    + rewrite emitToUser_eq. unfold mbind, M_bind, mret, M_ret. cbn [default].
      by destruct (endSessionForUser u _).
  - unfold mbind, M_bind, mret, M_ret, falsy. by destruct (endSessionForUser u w1).
Qed.

(** X26.  [call:end] from a user [u], in a consistent session store: with a
    partner, [call:end] carrying the id of [u] goes to every socket of the
    partner (to nobody when the partner id is empty) and to nobody else; then
    the session is ended - the database acknowledging, neither [u] nor the
    partner is in a session afterwards, and otherwise the store is unchanged.
    Without a session nothing is sent and no session record changes. *)
Theorem onCallEnd_notifies_then_ends socket u w :
  sessions_wf w → onCallEnd_post socket u w.
Proof.
  intros Hwf. unfold onCallEnd_post. cbv zeta. rewrite onCallEnd_eq. cbv zeta.
  pose proof (endSessionForUser_wf w u) as Hend.
  rewrite getSessionPartner_eq, getActiveSession_wf in * by done. cbn [fst snd] in *.
  destruct (match session_user (redis w) !! u with Some sid => _ | None => _ end) as [d|] eqn:Hd;
    cbn [fmap option_fmap option_map] in *.
  - set (p := if bool_decide (user1Id d = u) then user2Id d else user1Id d) in *.
    unfold falsy. cbn [default].
    case_bool_decide as Hempty.
    + specialize (Hend p Hwf eq_refl). cbv zeta in Hend.
      destruct (endSessionForUser_frame u w) as (Ho & _). cbv zeta in Ho.
      rewrite app_nil_r. split; [done|].
      destruct (db_end w (db_calls w)); [by destruct Hend as (_ & ? & ? & _) | by destruct Hend].
    + set (we := with_outbox _ w).
      assert (Hr : redis we = redis w) by done.
      pose proof (endSessionForUser_wf we u p (sessions_wf_redis w we Hr Hwf)) as Hend'.
      rewrite (getSessionPartner_redis u w we Hr), getSessionPartner_eq,
        getActiveSession_wf in Hend' by done.
      cbn [fst] in Hend'. rewrite Hd in Hend'. specialize (Hend' eq_refl). cbv zeta in Hend'.
      destruct (endSessionForUser_frame u we) as (Ho & _). cbv zeta in Ho.
      change (db_end we (db_calls we)) with (db_end w (db_calls w)) in Hend'.
      split; [by rewrite Ho|].
      destruct (db_end w (db_calls w)); [by destruct Hend' as (_ & ? & ? & _) | by destruct Hend'].
  - unfold falsy. destruct (endSessionForUser_frame u w) as (Ho & _). cbv zeta in Ho.
    split; [done|].
    unfold endSessionForUser, mbind, M_bind, mret, M_ret.
    rewrite getActiveSession_wf by done. by rewrite Hd.
Qed.






(** *** Instances *)

Lemma world_two_sockets_reachable :
  sock_reachable (registerSocket "s2" "u" (registerSocket "s1" "u" (world0 [])).2).2.
Proof. apply sock_registerSocket, sock_registerSocket, sock_boot. Qed.

Lemma sock_reachable_presence_witness :
  let w := (registerSocket "s2" "u" (registerSocket "s1" "u" (world0 [])).2).2 in
  sock_reachable w ∧ presence_tracks_sockets w.
Proof.
  intros w. split; [exact world_two_sockets_reachable|].
  exact (sock_reachable_presence w world_two_sockets_reachable).
Defined.

Lemma registerSocket_unregisterSocket_witness :
  ("s3" ∉ socketsOf "u" world_two_tabs)
  ∧ register_unregister_post "s3" "u" world_two_tabs.
Proof.
  assert (H : "s3" ∉ socketsOf "u" world_two_tabs).
  { apply (bool_decide_unpack _). by vm_compute. }
  split; [exact H|].
  exact (registerSocket_unregisterSocket "s3" "u" world_two_tabs H).
Defined.

Lemma onCallEnd_notifies_then_ends_witness :
  sessions_wf world_chat ∧ onCallEnd_post "sa" "a" world_chat.
Proof.
  split; [exact world_chat_wf|].
  exact (onCallEnd_notifies_then_ends "sa" "a" world_chat world_chat_wf).
Defined.


(** ** LoadBalancer *)

Section HealthyInstances.
Import LoadBalancer.

Lemma passes_tick w i x : passes (tick w) i x = passes w (S i) x.
Proof. unfold passes. simpl. by rewrite Nat.add_succ_r. Qed.

Lemma getHealthyInstances_cons x rest w :
  getHealthyInstances (x :: rest) w =
    (if passes w 0 x then x :: (getHealthyInstances rest (tick w)).1
     else (getHealthyInstances rest (tick w)).1,
     (getHealthyInstances rest (tick w)).2).
Proof.
  unfold passes. rewrite Nat.add_0_r. simpl. unfold mbind, M_bind, mret, M_ret, Date_now.
  destruct (getHealthyInstances rest (tick w)) as [l w']. cbn [fst snd].
  by destruct (bool_decide _ && isHealthy x).
Qed.

Lemma getHealthyInstances_char scan w :
  let l := (getHealthyInstances scan w).1 in
  sublist l scan ∧
  (∀ x, x ∈ l → ∃ i, scan !! i = Some x ∧ passes w i x = true) ∧
  (∀ i x, scan !! i = Some x → passes w i x = true → x ∈ l) ∧
  ticks (getHealthyInstances scan w).2 = (ticks w + length scan)%nat.
Proof.
  cbv zeta. revert w. induction scan as [|y rest IH]; intros w.
  - simpl. split_and!; [constructor | | | lia].
    + intros x Hx. by apply elem_of_nil in Hx.
    + intros i x Hx. by rewrite lookup_nil in Hx.
  - rewrite getHealthyInstances_cons. cbn [fst snd].
    destruct (IH (tick w)) as (Hsub & Hsound & Hcompl & Hticks).
    split_and!.
    + destruct (passes w 0 y); [by constructor | by apply sublist_cons].
    + intros x Hx.
      assert (Hcase : (x = y ∧ passes w 0 y = true)
                      ∨ x ∈ (getHealthyInstances rest (tick w)).1).
      { destruct (passes w 0 y); [|by right].
        apply elem_of_cons in Hx as [->|Hx]; [by left | by right]. }
      destruct Hcase as [[-> Hy]|Hin].
      * by exists 0%nat.
      * destruct (Hsound x Hin) as (i & Hi & Hp). exists (S i).
        split; [done|]. by rewrite <- passes_tick.
    + intros [|i] x Hx Hp; simpl in Hx.
      * injection Hx as ->. rewrite Hp. left.
      * rewrite <- passes_tick in Hp. specialize (Hcompl i x Hx Hp).
        destruct (passes w 0 y); [by right | done].
    + rewrite Hticks. simpl. lia.
Qed.

(** X28.  [getHealthyInstances] returns, in the order of the scan, exactly
    the scanned records that are flagged healthy and whose heartbeat, at the
    clock reading made for the record, is less than 30 s old; it reads the
    clock once per scanned record. *)
Theorem getHealthyInstances_keeps_passing scan w : healthy_rule scan w.
Proof. apply getHealthyInstances_char. Qed.

(** X29.  [getLeastLoadedInstance] only ever returns a scanned record that
    is flagged healthy and whose heartbeat was less than 30 s old when it was
    scanned; it returns nothing exactly when no scanned record is. *)
Theorem getLeastLoadedInstance_is_healthy scan w : least_loaded_healthy scan w.
Proof.
  unfold least_loaded_healthy, getLeastLoadedInstance.
  unfold mbind, M_bind, mret, M_ret.
  destruct (getHealthyInstances_char scan w) as (_ & Hsound & Hcompl & _).
  cbv zeta in Hsound, Hcompl.
  destruct (getHealthyInstances scan w) as [l w1]. cbn [fst] in *.
  case_bool_decide as Hlen; cbn [fst].
  - apply length_zero_iff_nil in Hlen. subst l.
    intros i x Hx. destruct (passes w i x) eqn:Hp; [|done].
    specialize (Hcompl i x Hx Hp). by apply elem_of_nil in Hcompl.
  - pose proof (head_sort_first_minimal l) as H. unfold withScore in H.
    destruct (head _) as [[r sc]|]; [|by subst l].
    destruct H as (_ & before & after & -> & _).
    apply Hsound. apply elem_of_app. right. left.
Qed.

End HealthyInstances.
